(** * football-fixtures: the fixture reader [data_processor/db_reader.py]

    A shallow embedding of the selection, normalisation, grouping and
    serialisation code of [db_reader.py], and the properties of it that the
    specification states.

    Python objects are modelled as follows.
    - A value read from SQLite is [VNone], [VInt] or [VStr] (the columns the
      query selects are INTEGER and TEXT; REAL and BLOB values are not
      modelled).  Text is a [string] of UTF-8 bytes: byte-wise lexicographic
      order on UTF-8 is Python's code-point order on [str].
    - A [dict] is an association list in insertion order, as Python's is.
    - An exception is a value of [exn]; code that may raise returns a
      [result].
    - Functions of the Python runtime and its libraries that the module
      calls are parameters of the module's code: [int] on text,
      [datetime.fromisoformat] and [datetime.astimezone] are the fields of a
      [Runtime], [json.loads] is a variable of the serialisation section.
      [cpython] is a concrete runtime used to run the code on examples.

    The last part embeds the site generator
    [static_generator/html_builder.py], which calls the reader: its
    template filters, the file name of a league page, and the methods that
    write the site, as functions on the state of the file system and the
    clock. *)

From Stdlib Require Import ZArith List String Ascii Bool Lia.
From Stdlib Require Import Permutation Sorted.
From Stdlib Require DecimalString.
Import ListNotations.

Set Warnings "-register-all".

Local Open Scope string_scope.
Local Open Scope Z_scope.

(** ** Exceptions and results *)

Inductive exn : Type :=
| ImportError
| ModuleNotFoundError
| SyntaxError
| AttributeError
| TypeError
| ValueError
| OverflowError
| FileNotFoundError
| PermissionError
| UnicodeEncodeError
| OperationalError.

Inductive result (A : Type) : Type :=
| Ok (a : A)
| Raise (e : exn).

Arguments Ok {A} a.
Arguments Raise {A} e.

Definition bind {A B : Type} (m : result A) (k : A -> result B) : result B :=
  match m with
  | Ok a => k a
  | Raise e => Raise e
  end.

Notation "x <- m ;; k" := (bind m (fun x => k))
  (at level 61, m at next level, right associativity).

(** [isinstance(e, ImportError)]: [ModuleNotFoundError] is a subclass. *)
Definition is_ImportError (e : exn) : bool :=
  match e with
  | ImportError | ModuleNotFoundError => true
  | _ => false
  end.

(** ** Values *)

Inductive value : Type :=
| VNone
| VInt (z : Z)
| VStr (s : string).

Definition value_eqb (a b : value) : bool :=
  match a, b with
  | VNone, VNone => true
  | VInt x, VInt y => x =? y
  | VStr s, VStr t => String.eqb s t
  | _, _ => false
  end.

(** Python truth value: [None], [0] and the empty string are false. *)
Definition truthy (v : value) : bool :=
  match v with
  | VNone => false
  | VInt z => negb (z =? 0)
  | VStr s => negb (String.eqb s "")
  end.

(** [a < b]: defined between two integers and between two strings;
    anything else is a [TypeError] (also [None < None]). *)
Definition value_lt (a b : value) : result bool :=
  match a, b with
  | VInt x, VInt y => Ok (x <? y)
  | VStr s, VStr t => Ok (String.ltb s t)
  | _, _ => Raise TypeError
  end.

(** ** Dictionaries, in insertion order *)

Section Dict.
Context {K V : Type} (eqb : K -> K -> bool).

Fixpoint dget (k : K) (d : list (K * V)) : option V :=
  match d with
  | [] => None
  | (k', v) :: d' => if eqb k k' then Some v else dget k d'
  end.

(** [d.get(k, default)] *)
Definition dget_or (k : K) (default : V) (d : list (K * V)) : V :=
  match dget k d with
  | Some v => v
  | None => default
  end.

(** [k in d] *)
Definition dmem (k : K) (d : list (K * V)) : bool :=
  match dget k d with
  | Some _ => true
  | None => false
  end.

(** [d[k] = v]: an existing key keeps its position, a new key goes last. *)
Fixpoint dset (k : K) (v : V) (d : list (K * V)) : list (K * V) :=
  match d with
  | [] => [(k, v)]
  | (k', v') :: d' =>
      if eqb k k' then (k', v) :: d' else (k', v') :: dset k v d'
  end.

(** [d[k] = f(d[k])] for a key that is present. *)
Fixpoint dupdate (k : K) (f : V -> V) (d : list (K * V)) : list (K * V) :=
  match d with
  | [] => []
  | (k', v') :: d' =>
      if eqb k k' then (k', f v') :: d' else (k', v') :: dupdate k f d'
  end.

(** [dict(items)] *)
Definition dict_of (items : list (K * V)) : list (K * V) :=
  fold_left (fun d kv => dset (fst kv) (snd kv) d) items [].
End Dict.

(** A row, and a fixture: column name to value. *)
Definition fixture : Type := list (string * value).

Definition get (k : string) (f : fixture) : option value := dget String.eqb k f.
Definition get_or (k : string) (default : value) (f : fixture) : value :=
  dget_or String.eqb k default f.
Definition set (k : string) (v : value) (f : fixture) : fixture :=
  dset String.eqb k v f.

(** ** Date and time values *)

(** A [datetime]; [tzinfo] is the UTC offset in seconds of an aware value and
    [None] for a naive one. *)
Record datetime : Type := mkdt {
  year : Z; month : Z; day : Z;
  hour : Z; minute : Z; second : Z; microsecond : Z;
  tzinfo : option Z
}.

Definition digit (n : Z) : ascii := ascii_of_nat (48 + Z.to_nat (n mod 10)).
Definition pad2 (n : Z) : string :=
  String (digit (n / 10)) (String (digit n) "").
Definition pad4 (n : Z) : string :=
  String (digit (n / 1000)) (String (digit (n / 100)) (pad2 n)).

(** [%Y] of [strftime].  CPython hands the format to the C library, and the
    C library of Linux (glibc) writes the year in decimal without padding:
    [999] for the year 999, four digits from the year 1000 on.  The years
    of a [datetime] are 1 to 9999. *)
Definition strftime_year (y : Z) : string :=
  if y <? 10 then String (digit y) ""
  else if y <? 100 then pad2 y
  else if y <? 1000 then String (digit (y / 100)) (pad2 y)
  else pad4 y.

(** [dt.strftime('%Y-%m-%d')], [dt.strftime('%H:%M')] and
    [dt.strftime('%Y-%m-%d %H:%M')]; the month, the day, the hour and the
    minute are zero-padded. *)
Definition strftime_date (dt : datetime) : string :=
  strftime_year (year dt) ++ "-" ++ pad2 (month dt) ++ "-" ++ pad2 (day dt).
Definition strftime_time (dt : datetime) : string :=
  pad2 (hour dt) ++ ":" ++ pad2 (minute dt).
Definition strftime_datetime (dt : datetime) : string :=
  strftime_date dt ++ " " ++ strftime_time dt.

(** [s.replace('Z', '+00:00')]: every occurrence is replaced. *)
Fixpoint replace_Z (s : string) : string :=
  match s with
  | EmptyString => EmptyString
  | String c s' =>
      if Ascii.eqb c "Z"%char then "+00:00" ++ replace_Z s'
      else String c (replace_Z s')
  end.

(** ** Decoded JSON

    A value that [json.loads] returns.  A [str] is kept as its UTF-8
    bytes; [json.loads] also returns lone surrogates (it decodes the text
    [\ud800] inside a JSON string to the character U+D800), which UTF-8
    does not encode: such a character is kept as the three bytes of its
    code point, ED, A0 to BF, 80 to BF. *)

Inductive json : Type :=
| JNull
| JBool (b : bool)
| JNumber (literal : string)
| JString (s : string)
| JArray (items : list json)
| JObject (members : list (string * json)).

(** ** The runtime the module runs on *)

Record Runtime : Type := {
  (** [int(s)] on text; [None] stands for [ValueError]. *)
  int_of_str : string -> option Z;
  (** [datetime.fromisoformat(s)]; [None] stands for [ValueError]. *)
  fromisoformat : string -> option datetime;
  (** [dt.astimezone()]: conversion to the local time zone of the process;
      [None] stands for an exception ([OverflowError], [OSError]). *)
  astimezone : datetime -> option datetime
}.

(** ** The competition allow-list (module level, lines 19-57) *)

(** The fallback identifiers: the literal set of the source, 39 to 500. *)
Definition DEFAULT_LEAGUE_IDS : list Z := map Z.of_nat (seq 39 462).

(** What [from league_manager import LEAGUE_ID_TO_TRADITIONAL_CHINESE] does:
    it binds the name to an object, a [dict] from identifier to name or
    something else, or it raises: [ModuleNotFoundError] when the module is
    missing, [ImportError] when the module lacks the name, and whatever the
    module's own code raises while it is loaded. *)
Inductive pyobject : Type :=
| PyDict (items : list (Z * string))
| PyOther.

Inductive import_outcome : Type :=
| Imported (LEAGUE_ID_TO_TRADITIONAL_CHINESE : pyobject)
| ImportRaised (e : exn).

(** The [try] ... [except ImportError] statement that defines
    [TARGET_LEAGUE_IDS]; an object without [keys()] is an [AttributeError]
    at [set(....keys())]. *)
Definition TARGET_LEAGUE_IDS (o : import_outcome) : result (list Z) :=
  match o with
  | Imported (PyDict items) => Ok (map fst items)
  | Imported PyOther => Raise AttributeError
  | ImportRaised e =>
      if is_ImportError e then Ok DEFAULT_LEAGUE_IDS else Raise e
  end.

(** [z in TARGET_LEAGUE_IDS] *)
Definition mem (z : Z) (ids : list Z) : bool := existsb (Z.eqb z) ids.

(** ** The world outside the process *)

Record World : Type := {
  (** [Path(__file__).parent.parent] *)
  base_dir : string;
  (** [path.exists()].  pathlib answers [False] when the file is not there
      (ENOENT, ENOTDIR, EBADF, ELOOP) and raises every other [OSError] of
      [stat], as [PermissionError] for a location under a directory that
      the process may not search. *)
  path_exists : string -> result bool;
  (** [sqlite3.connect], [cursor.execute] with the two dates computed from
      the clock and [days_ahead], and [cursor.fetchall], each row turned
      into a [dict]. *)
  fetchall : string -> Z -> result (list fixture)
}.

(** ** [get_db_path] *)

Definition possible_paths (w : World) : list string :=
  [ base_dir w ++ "/api_football_sync/fixtures.db";
    base_dir w ++ "/fixtures.db";
    "/root/.openclaw/workspace/api_football_sync/fixtures.db";
    "/root/.openclaw/workspace/fixtures.db" ].

(** The loop of lines 69-72 and the [raise] after it: the locations are
    asked in order, and an exception of [exists()] ends the loop. *)
Fixpoint first_existing (exists_at : string -> result bool)
  (paths : list string) : result string :=
  match paths with
  | [] => Raise FileNotFoundError
  | path :: paths' =>
      found <- exists_at path ;;
      if found then Ok path else first_existing exists_at paths'
  end.

Definition get_db_path (w : World) : result string :=
  first_existing (path_exists w) (possible_paths w).

(** ** [get_fixtures] *)

(** [int(v)] *)
Definition py_int (rt : Runtime) (v : value) : result Z :=
  match v with
  | VInt z => Ok z
  | VStr s =>
      match int_of_str rt s with
      | Some z => Ok z
      | None => Raise ValueError
      end
  | VNone => Raise TypeError
  end.

(** The condition of line 149:
    [league_api_id and int(league_api_id) in TARGET_LEAGUE_IDS]. *)
Definition in_target (rt : Runtime) (ids : list Z) (row : fixture)
  : result bool :=
  let league_api_id := get_or "league_api_id" VNone row in
  if truthy league_api_id then
    z <- py_int rt league_api_id ;; Ok (mem z ids)
  else Ok false.

(** Lines 151-158, one name: [if not fixture.get(tc): fixture[tc] =
    fixture.get(en, placeholder)]. *)
Definition resolve_name (tc en placeholder : string) (f : fixture) : fixture :=
  if truthy (get_or tc VNone f) then f
  else set tc (get_or en (VStr placeholder) f) f.

(** The [except] branch of lines 168-171. *)
Definition degraded (event_date : value) (f : fixture) : fixture :=
  set "event_datetime_local" event_date
    (set "event_time_formatted" (VStr "00:00")
       (set "event_date_formatted" event_date f)).

(** Lines 161-171.  Calling [replace] on a value that is not text raises
    [AttributeError], which the bare [except] catches like the others. *)
Definition format_event_date (rt : Runtime) (f : fixture) : fixture :=
  let event_date := get_or "event_date" VNone f in
  if truthy event_date then
    match event_date with
    | VStr s =>
        match fromisoformat rt (replace_Z s) with
        | Some dt =>
            match astimezone rt dt with
            | Some local =>
                set "event_datetime_local" (VStr (strftime_datetime local))
                  (set "event_time_formatted" (VStr (strftime_time dt))
                     (set "event_date_formatted" (VStr (strftime_date dt)) f))
            | None => degraded event_date f
            end
        | None => degraded event_date f
        end
    | _ => degraded event_date f
    end
  else f.

(** The body of the [if] of line 149, lines 150-171. *)
Definition normalize_row (rt : Runtime) (row : fixture) : fixture :=
  format_event_date rt
    (resolve_name "away_team_name_tc" "away_team_name_en" "未知客隊"
       (resolve_name "home_team_name_tc" "home_team_name_en" "未知主隊"
          (resolve_name "league_name_tc" "league_name_en" "未知聯賽" row))).

(** The loop of lines 143-173: the rows in order, the first exception ends
    the loop. *)
Fixpoint normalize (rt : Runtime) (ids : list Z) (rows : list fixture)
  : result (list fixture) :=
  match rows with
  | [] => Ok []
  | row :: rows' =>
      keep <- in_target rt ids row ;;
      fixtures <- normalize rt ids rows' ;;
      Ok (if keep then normalize_row rt row :: fixtures else fixtures)
  end.

(** [get_fixtures(days_ahead)]; [ids] is the module's [TARGET_LEAGUE_IDS].
    The statistics printed after the loop (lines 175-193) only read
    [fixtures]. *)
Definition get_fixtures (rt : Runtime) (w : World) (ids : list Z)
  (days_ahead : Z) : result (list fixture) :=
  db_path <- get_db_path w ;;
  rows <- fetchall w db_path days_ahead ;;
  normalize rt ids rows.

(** ** Sorting: [sorted] *)

(** [sorted] is a stable sort that compares with [<] only.  It is modelled
    by a stable insertion sort.  A comparison between values raises exactly
    when they are not two integers or two strings, whichever two they are,
    so on two or more items any comparison sort raises exactly when the
    keys are not all integers or all strings; and a stable sort that
    returns has one possible result. *)
Section Sorted.
Context {A : Type} (lt : A -> A -> result bool).

Fixpoint insert_sorted (x : A) (l : list A) : result (list A) :=
  match l with
  | [] => Ok [x]
  | y :: l' =>
      b <- lt y x ;;
      if b then (r <- insert_sorted x l' ;; Ok (y :: r)) else Ok (x :: l)
  end.

Fixpoint sorted (l : list A) : result (list A) :=
  match l with
  | [] => Ok []
  | x :: l' => s <- sorted l' ;; insert_sorted x s
  end.
End Sorted.

(** ** [get_fixtures_by_league] *)

(** The value of [leagues[league_id]]: a dict with the keys ['id'],
    ['name'], ['country'] and ['fixtures']. *)
Record league : Type := mkleague {
  league_id : value;
  league_name : value;
  league_country : value;
  league_fixtures : list fixture
}.

Definition append_fixture (f : fixture) (l : league) : league :=
  mkleague (league_id l) (league_name l) (league_country l)
    (league_fixtures l ++ [f]).

(** One turn of the loop of lines 212-224. *)
Definition add_to_league (leagues : list (value * league)) (f : fixture)
  : list (value * league) :=
  let id := get_or "league_api_id" VNone f in
  let name := get_or "league_name_tc" (VStr "未知聯賽") f in
  let leagues :=
    if dmem value_eqb id leagues then leagues
    else dset value_eqb id
           (mkleague id name (get_or "league_country" (VStr "") f) []) leagues in
  dupdate value_eqb id (append_fixture f) leagues.

Definition group_by_league (fixtures : list fixture) : list (value * league) :=
  fold_left add_to_league fixtures [].

(** [key=lambda x: x[1]['name']] *)
Definition name_lt (a b : value * league) : result bool :=
  value_lt (league_name (snd a)) (league_name (snd b)).

(** [get_fixtures_by_league(fixtures)] for a list [fixtures]. *)
Definition get_fixtures_by_league (fixtures : list fixture)
  : result (list (value * league)) :=
  sorted_leagues <- sorted name_lt (group_by_league fixtures) ;;
  Ok (dict_of value_eqb sorted_leagues).

(** ** [get_fixtures_by_date] *)

(** One turn of the loop of lines 244-250. *)
Definition add_to_date (dates : list (value * list fixture)) (f : fixture)
  : list (value * list fixture) :=
  let date_key := get_or "event_date_formatted" (VStr "未知日期") f in
  let dates :=
    if dmem value_eqb date_key dates then dates
    else dset value_eqb date_key [] dates in
  dupdate value_eqb date_key (fun l => (l ++ [f])%list) dates.

Definition group_by_date (fixtures : list fixture)
  : list (value * list fixture) :=
  fold_left add_to_date fixtures [].

(** [a == b] on two dicts: as many keys, and each key of [a] has the same
    value in [b]. *)
Definition fixture_eqb (a b : fixture) : bool :=
  Nat.eqb (List.length a) (List.length b)
  && forallb (fun kv => match get (fst kv) b with
                        | Some v => value_eqb (snd kv) v
                        | None => false
                        end) a.

(** [a < b] on two lists of dicts: the first pair that differs decides, and
    two dicts do not compare; without one the shorter list is smaller. *)
Fixpoint fixtures_lt (a b : list fixture) : result bool :=
  match a, b with
  | [], [] => Ok false
  | [], _ :: _ => Ok true
  | _ :: _, [] => Ok false
  | x :: a', y :: b' =>
      if fixture_eqb x y then fixtures_lt a' b' else Raise TypeError
  end.

(** [a < b] on two items [(date_key, fixtures)]: tuples compare by their
    first components that differ. *)
Definition item_lt (a b : value * list fixture) : result bool :=
  if value_eqb (fst a) (fst b) then fixtures_lt (snd a) (snd b)
  else value_lt (fst a) (fst b).

(** [get_fixtures_by_date(fixtures)] for a list [fixtures]. *)
Definition get_fixtures_by_date (fixtures : list fixture)
  : result (list (value * list fixture)) :=
  sorted_dates <- sorted item_lt (group_by_date fixtures) ;;
  Ok (dict_of value_eqb sorted_dates).

(** ** [save_fixtures_to_json] *)

(** A value of the document: a value copied from the fixture, or a decoded
    payload. *)
Inductive jvalue : Type :=
| Plain (v : value)
| Decoded (j : json).

Section Serialization.
(** [json.loads(s)]; [None] stands for any exception. *)
Variable json_loads : string -> option json.

(** The body of the inner loop, lines 270-276; [str(value)] of a string
    is the string. *)
Definition serializable_value (key : string) (v : value) : jvalue :=
  if String.eqb key "raw_data" && truthy v then
    match v with
    | VStr s =>
        match json_loads s with
        | Some j => Decoded j
        | None => Plain (VStr s)
        end
    | _ => Plain v
    end
  else Plain v.

(** The inner loop, lines 268-276. *)
Definition serializable (f : fixture) : list (string * jvalue) :=
  fold_left
    (fun d kv => dset String.eqb (fst kv) (serializable_value (fst kv) (snd kv)) d)
    f [].

(** The outer loop, lines 265-277. *)
Definition serializable_fixtures (fixtures : list fixture)
  : list (list (string * jvalue)) :=
  map serializable fixtures.

(** [save_fixtures_to_json(fixtures, output_path)]; [dump] is [open] and
    [json.dump] on the file, the only calls that can raise. *)
Definition save_fixtures_to_json
  (dump : string -> list (list (string * jvalue)) -> result unit)
  (fixtures : list fixture) (output_path : string) : result unit :=
  dump output_path (serializable_fixtures fixtures).
End Serialization.

(** ** The writer of [save_fixtures_to_json]

    Lines 279-280: [open(output_path, 'w', encoding='utf-8')], then
    [json.dump(doc, f, ensure_ascii=False, indent=2)], which writes the
    document to the file piece by piece, in order, and leaves the
    characters of a string as they are; the file raises
    [UnicodeEncodeError] at a string that UTF-8 does not encode.
    [open_file] is [open], which raises when the file system refuses the
    file.  [interrupted] gives, for a document, the exception that ends the
    writing before such a string is reached, or when there is none: the
    encoder walks a document to a limited depth only, and the file system
    may refuse a write. *)

(** No lone surrogate: no byte ED followed by a byte from A0 to BF. *)
Fixpoint utf8_encodable (s : string) : bool :=
  match s with
  | String a ((String b _) as rest) =>
      negb ((nat_of_ascii a =? 237)%nat && (160 <=? nat_of_ascii b)%nat
            && (nat_of_ascii b <=? 191)%nat)
      && utf8_encodable rest
  | _ => true
  end.

Fixpoint json_encodable (j : json) : bool :=
  match j with
  | JString s => utf8_encodable s
  | JArray items => forallb json_encodable items
  | JObject members =>
      forallb (fun m => let '(k, v) := m in
                        utf8_encodable k && json_encodable v) members
  | _ => true
  end.

Definition jvalue_encodable (v : jvalue) : bool :=
  match v with
  | Plain (VStr s) => utf8_encodable s
  | Plain _ => true
  | Decoded j => json_encodable j
  end.

Definition document_encodable (doc : list (list (string * jvalue))) : bool :=
  forallb
    (forallb (fun kv => utf8_encodable (fst kv) && jvalue_encodable (snd kv)))
    doc.

Definition json_dump_file (open_file : string -> result unit)
  (interrupted : list (list (string * jvalue)) -> option exn)
  (output_path : string) (doc : list (list (string * jvalue)))
  : result unit :=
  _ <- open_file output_path ;;
  match interrupted doc with
  | Some e => Raise e
  | None => if document_encodable doc then Ok tt else Raise UnicodeEncodeError
  end.

(** ** Calendar arithmetic *)

Definition is_leap (y : Z) : bool :=
  (y mod 4 =? 0) && (negb (y mod 100 =? 0) || (y mod 400 =? 0)).

Definition days_in_month (y m : Z) : Z :=
  if m =? 2 then (if is_leap y then 29 else 28)
  else if (m =? 4) || (m =? 6) || (m =? 9) || (m =? 11) then 30
  else 31.

Definition next_day (y m d : Z) : Z * Z * Z :=
  if d <? days_in_month y m then (y, m, d + 1)
  else if m <? 12 then (y, m + 1, 1)
  else (y + 1, 1, 1).

Definition prev_day (y m d : Z) : Z * Z * Z :=
  if 1 <? d then (y, m, d - 1)
  else if 1 <? m then (y, m - 1, days_in_month y (m - 1))
  else (y - 1, 12, 31).

(** [dt + timedelta(seconds=delta)] for less than a day either way; a year
    outside 1..9999 is an [OverflowError]. *)
Definition add_seconds (dt : datetime) (delta : Z) : option datetime :=
  let t := 3600 * hour dt + 60 * minute dt + second dt + delta in
  let '(y, m, d) :=
    if t <? 0 then prev_day (year dt) (month dt) (day dt)
    else if 86400 <=? t then next_day (year dt) (month dt) (day dt)
    else (year dt, month dt, day dt) in
  let t' := t mod 86400 in
  if (1 <=? y) && (y <=? 9999) then
    Some (mkdt y m d (t' / 3600) ((t' / 60) mod 60) (t' mod 60)
            (microsecond dt) (tzinfo dt))
  else None.

Definition with_tzinfo (off : Z) (dt : datetime) : datetime :=
  mkdt (year dt) (month dt) (day dt) (hour dt) (minute dt) (second dt)
    (microsecond dt) (Some off).

(** The same instant in UTC, for an aware value. *)
Definition to_utc (dt : datetime) : option datetime :=
  match tzinfo dt with
  | Some off => option_map (with_tzinfo 0) (add_seconds dt (- off))
  | None => None
  end.

(** ** A concrete runtime

    [cpython local_offset] runs the code on examples.  Its [int] reads
    ASCII text: white space around an optional sign and decimal digits,
    single underscores between digits (digits of other scripts and the limit
    on the number of digits are left out).  Its [fromisoformat] reads
    [YYYY-MM-DD], alone or followed by one separator character and
    [HH[:MM[:SS[.fff[fff]]]]] and an optional offset [+HH:MM[:SS]] or
    [-HH:MM[:SS]], the format every version since Python 3.7 reads (later
    versions read more spellings).  Its local zone is the fixed offset
    [local_offset], in seconds. *)

Definition obind {A B : Type} (m : option A) (k : A -> option B) : option B :=
  match m with
  | Some a => k a
  | None => None
  end.

Notation "x <-? m ;; k" := (obind m (fun x => k))
  (at level 61, m at next level, right associativity).
Notation "' p <-? m ;; k" := (obind m (fun x => let 'p := x in k))
  (at level 61, p pattern, m at next level, right associativity).

Definition is_space (c : ascii) : bool :=
  let n := nat_of_ascii c in
  ((9 <=? n) && (n <=? 13) || (28 <=? n) && (n <=? 32))%nat.

Definition digit_val (c : ascii) : option Z :=
  let n := nat_of_ascii c in
  if ((48 <=? n) && (n <=? 57))%nat then Some (Z.of_nat (n - 48)) else None.

Fixpoint lstrip (l : list ascii) : list ascii :=
  match l with
  | c :: l' => if is_space c then lstrip l' else l
  | [] => []
  end.

Definition strip (l : list ascii) : list ascii := rev (lstrip (rev (lstrip l))).

Fixpoint digits (acc : Z) (after_digit : bool) (l : list ascii) : option Z :=
  match l with
  | [] => if after_digit then Some acc else None
  | c :: l' =>
      match digit_val c with
      | Some d => digits (10 * acc + d) true l'
      | None =>
          if Ascii.eqb c "_"%char && after_digit then digits acc false l'
          else None
      end
  end.

Definition cpython_int (s : string) : option Z :=
  match strip (list_ascii_of_string s) with
  | c :: l =>
      if Ascii.eqb c "+"%char then digits 0 false l
      else if Ascii.eqb c "-"%char then option_map Z.opp (digits 0 false l)
      else digits 0 false (c :: l)
  | [] => None
  end.

Definition take2 (l : list ascii) : option (Z * list ascii) :=
  match l with
  | a :: b :: r =>
      x <-? digit_val a ;; y <-? digit_val b ;; Some (10 * x + y, r)
  | _ => None
  end.

Definition expect (c : ascii) (l : list ascii) : option (list ascii) :=
  match l with
  | x :: r => if Ascii.eqb x c then Some r else None
  | [] => None
  end.

(** [:NN] if a colon follows, else the default [0]. *)
Definition colon2 (l : list ascii) : option (Z * list ascii) :=
  match expect ":"%char l with
  | Some l' => take2 l'
  | None => Some (0, l)
  end.

(** [.fff] or [.ffffff] before the end or the offset, in microseconds. *)
Definition fraction (l : list ascii) : option (Z * list ascii) :=
  match expect "."%char l with
  | Some l' =>
      '(a, l1) <-? take2 l' ;;
      x <-? (match l1 with c :: _ => digit_val c | [] => None end) ;;
      match take2 (tl l1) with
      | Some (b, l2) =>
          y <-? (match l2 with c :: _ => digit_val c | [] => None end) ;;
          Some (10000 * a + 1000 * x + 10 * b + y, tl l2)
      | None => Some (10000 * a + 1000 * x, tl l1)
      end
  | None => Some (0, l)
  end.

Definition parse_offset (l : list ascii) : option (option Z) :=
  match l with
  | [] => Some None
  | sign :: l1 =>
      sgn <-? (if Ascii.eqb sign "+"%char then Some 1
               else if Ascii.eqb sign "-"%char then Some (-1) else None) ;;
      '(h, l2) <-? take2 l1 ;;
      l3 <-? expect ":"%char l2 ;;
      '(m, l4) <-? take2 l3 ;;
      '(s, l5) <-? colon2 l4 ;;
      match l5 with
      | [] =>
          if (h <? 24) && (m <? 60) && (s <? 60)
          then Some (Some (sgn * (3600 * h + 60 * m + s))) else None
      | _ :: _ => None
      end
  end.

Definition parse_time (l : list ascii)
  : option (Z * Z * Z * Z * option Z) :=
  '(h, l1) <-? take2 l ;;
  '(mi, s, us, l') <-?
    match expect ":"%char l1 with
    | None => Some (0, 0, 0, l1)
    | Some l2 =>
        '(mi, l3) <-? take2 l2 ;;
        match expect ":"%char l3 with
        | None => Some (mi, 0, 0, l3)
        | Some l4 =>
            '(s, l5) <-? take2 l4 ;;
            '(us, l6) <-? fraction l5 ;;
            Some (mi, s, us, l6)
        end
    end ;;
  tz <-? parse_offset l' ;;
  if (h <? 24) && (mi <? 60) && (s <? 60)
  then Some (h, mi, s, us, tz) else None.

Definition cpython_fromisoformat (s : string) : option datetime :=
  let l := list_ascii_of_string s in
  '(yh, l) <-? take2 l ;;
  '(yl, l) <-? take2 l ;;
  l <-? expect "-"%char l ;;
  '(m, l) <-? take2 l ;;
  l <-? expect "-"%char l ;;
  '(d, l) <-? take2 l ;;
  let y := 100 * yh + yl in
  if (1 <=? y) && (1 <=? m) && (m <=? 12) && (1 <=? d)
     && (d <=? days_in_month y m) then
    match l with
    | [] => Some (mkdt y m d 0 0 0 0 None)
    | _ :: l' =>
        '(h, mi, sec, us, tz) <-? parse_time l' ;;
        Some (mkdt y m d h mi sec us tz)
    end
  else None.

(** [dt.astimezone()] where the local zone is a fixed offset: a naive value
    is taken as local time, an aware one goes through UTC. *)
Definition cpython_astimezone (local_offset : Z) (dt : datetime)
  : option datetime :=
  match tzinfo dt with
  | None => Some (with_tzinfo local_offset dt)
  | Some off =>
      utc <-? add_seconds dt (- off) ;;
      local <-? add_seconds utc local_offset ;;
      Some (with_tzinfo local_offset local)
  end.

Definition cpython (local_offset : Z) : Runtime :=
  {| int_of_str := cpython_int;
     fromisoformat := cpython_fromisoformat;
     astimezone := cpython_astimezone local_offset |}.

(** A row of the query of [get_fixtures]: its 27 columns in order. *)
Definition query_row
  (league_api_id : value) (league_name_tc league_name_en : value)
  (home_tc home_en away_tc away_en : value) (event_date : value)
  : fixture :=
  [ ("id", VInt 1); ("api_id", VInt 1001); ("league_id", VInt 7);
    ("home_team_id", VInt 11); ("away_team_id", VInt 12);
    ("event_date", event_date); ("event_timestamp", VInt 1709305200);
    ("status_short", VStr "NS"); ("status_long", VStr "Not Started");
    ("goals_home", VNone); ("goals_away", VNone);
    ("venue_name", VNone); ("venue_city", VNone); ("referee", VNone);
    ("round", VStr "Regular Season - 27"); ("season", VInt 2023);
    ("raw_data", VStr "{}");
    ("league_api_id", league_api_id);
    ("league_name_tc", league_name_tc); ("league_name_en", league_name_en);
    ("league_country", VStr "England");
    ("home_team_name_tc", home_tc); ("home_team_name_en", home_en);
    ("home_team_country", VStr "England");
    ("away_team_name_tc", away_tc); ("away_team_name_en", away_en);
    ("away_team_country", VStr "England") ].

(** A world with the database at its first location, holding [rows]. *)
Definition world_with (rows : list fixture) : World :=
  {| base_dir := "/srv/football-fixtures";
     path_exists := fun p =>
       Ok (String.eqb p
             "/srv/football-fixtures/api_football_sync/fixtures.db");
     fetchall := fun _ _ => Ok rows |}.

(** A world with no database file anywhere. *)
Definition world_without_db : World :=
  {| base_dir := "/srv/football-fixtures";
     path_exists := fun _ => Ok false;
     fetchall := fun _ _ => Raise OperationalError |}.

(** ** What a grouping is

    The groups [d] hold the fixtures [seen]: the keys are different, every
    fixture is in the groups once, and each is under its own key. *)
Definition groups_of {V : Type} (items : V -> list fixture)
  (key : fixture -> value) (d : list (value * V)) (seen : list fixture)
  : Prop :=
  NoDup (map fst d)
  /\ Permutation (flat_map (fun kv => items (snd kv)) d) seen
  /\ (forall k g f, In (k, g) d -> In f (items g) -> key f = k).

(** ** Typing of the grouping keys and the orders of the results *)

(** The field [k] of [f] is text, or [f] has no field [k]. *)
Definition text_or_absent (k : string) (f : fixture) : Prop :=
  match get k f with
  | None | Some (VStr _) => True
  | Some _ => False
  end.

(** The display name of the competition and the formatted date are text
    where the fixture has them. *)
Definition text_keyed (f : fixture) : Prop :=
  text_or_absent "league_name_tc" f /\ text_or_absent "event_date_formatted" f.

(** [a <= b] and [a < b] on the values that Python compares: two integers,
    or two strings in code-point order. *)
Definition value_le (a b : value) : Prop :=
  match a, b with
  | VInt x, VInt y => x <= y
  | VStr s, VStr t => String.leb s t = true
  | _, _ => False
  end.

Definition value_less (a b : value) : Prop :=
  match a, b with
  | VInt x, VInt y => x < y
  | VStr s, VStr t => String.ltb s t = true
  | _, _ => False
  end.

(** [a] is before [b] by display name. *)
Definition name_le (a b : value * league) : Prop :=
  value_le (league_name (snd a)) (league_name (snd b)).

(** [a] is before [b] by date key; [date_le] also when the keys are the
    same. *)
Definition date_le (a b : value * list fixture) : Prop :=
  fst a = fst b \/ value_le (fst a) (fst b).

Definition date_lt (a b : value * list fixture) : Prop :=
  value_less (fst a) (fst b).

(** The grouping keys of the two loops. *)
Definition league_key (f : fixture) : value := get_or "league_api_id" VNone f.
Definition date_key (f : fixture) : value :=
  get_or "event_date_formatted" (VStr "未知日期") f.

(** ** Selection of a row *)

(** The identifier of the row is false as a condition ([None], [0], empty
    text, or no such column) or [int] reads it. *)
Definition absent_or_numeric (rt : Runtime) (row : fixture) : Prop :=
  let league_api_id := get_or "league_api_id" VNone row in
  truthy league_api_id = false \/ exists z, py_int rt league_api_id = Ok z.

(** The condition of line 149 holds. *)
Definition selected (rt : Runtime) (ids : list Z) (row : fixture) : bool :=
  match in_target rt ids row with
  | Ok keep => keep
  | Raise _ => false
  end.

(** ** Example rows *)

(** Three rows: competition 39 with a timestamp in UTC, competition 99999,
    which is outside the fallback allow-list, and competition 61 with a
    timestamp that is not a date. *)
Definition example_rows : list fixture :=
  [ query_row (VInt 39) (VStr "英超") (VStr "Premier League")
      (VStr "阿仙奴") (VStr "Arsenal") (VStr "車路士") (VStr "Chelsea")
      (VStr "2024-03-01T15:00:00Z");
    query_row (VInt 99999) VNone (VStr "Sunday League")
      VNone (VStr "Red Lion") VNone (VStr "White Hart")
      (VStr "2024-03-01T16:00:00Z");
    query_row (VInt 61) VNone (VStr "Ligue 1")
      VNone (VStr "Lyon") VNone (VStr "Nice")
      (VStr "bad") ].

(** A row of competition 39 whose home team has no record in [teams] (the
    left join gives NULL for both names) and whose away team has an empty
    English name. *)
Definition unnamed_team_row : fixture :=
  query_row (VInt 39) VNone (VStr "Premier League")
    VNone VNone VNone (VStr "")
    (VStr "2024-03-01T15:00:00Z").

(** A row whose competition identifier is text that is not a number. *)
Definition text_id_row : fixture :=
  query_row (VStr "N/A") VNone (VStr "Premier League")
    VNone (VStr "Arsenal") VNone (VStr "Chelsea")
    (VStr "2024-03-01T15:00:00Z").

(** A row of competition 39 whose timestamp carries the offset +05:00. *)
Definition offset_row : fixture :=
  query_row (VInt 39) (VStr "英超") (VStr "Premier League")
    (VStr "阿仙奴") (VStr "Arsenal") (VStr "車路士") (VStr "Chelsea")
    (VStr "2024-03-01T02:30:00+05:00").

(** ** Well-formed date and time values *)

(** The fields of a [datetime] object are in their ranges. *)
Definition valid_datetime (dt : datetime) : Prop :=
  1 <= year dt <= 9999 /\ 0 <= hour dt < 24 /\ 0 <= minute dt < 60
  /\ 0 <= second dt < 60.

(** ** Example fixtures *)

(** Fixtures out of order; the third has neither a display name nor a
    formatted date, the last carries a raw timestamp as its date. *)
Definition shuffled_fixtures : list fixture :=
  [ [("league_api_id", VInt 61); ("league_name_tc", VStr "法甲");
     ("event_date_formatted", VStr "2024-03-02")];
    [("league_api_id", VInt 39); ("league_name_tc", VStr "英超");
     ("event_date_formatted", VStr "2024-03-01")];
    [("league_api_id", VInt 140)];
    [("league_api_id", VInt 61); ("league_name_tc", VStr "法甲");
     ("event_date_formatted", VStr "2024-03-01")];
    [("league_api_id", VInt 78); ("league_name_tc", VStr "Bundesliga");
     ("event_date_formatted", VStr "not-a-date")] ].

(** A row of competition 39 without timestamp. *)
Definition undated_row : fixture :=
  query_row (VInt 39) (VStr "英超") (VStr "Premier League")
    (VStr "阿仙奴") (VStr "Arsenal") (VStr "車路士") (VStr "Chelsea")
    VNone.

(** ** The local time zone *)

(** The runtime [rt] in a process whose conversion to local time is
    [zone]. *)
Definition with_zone (rt : Runtime) (zone : datetime -> option datetime)
  : Runtime :=
  {| int_of_str := int_of_str rt;
     fromisoformat := fromisoformat rt;
     astimezone := zone |}.

(** A decoder that knows the empty object only, for the examples. *)
Definition loads_empty_object (s : string) : option json :=
  if String.eqb s "{}" then Some (JObject []) else None.

(** The character U+D800, and the JSON text of the string that holds it:
    a quotation mark, [\ud800], a quotation mark. *)
Definition lone_surrogate : string :=
  String (ascii_of_nat 237) (String (ascii_of_nat 160)
    (String (ascii_of_nat 128) "")).

Definition surrogate_payload : string :=
  String (ascii_of_nat 34) ("\ud800" ++ String (ascii_of_nat 34) "").

(** A decoder that knows the empty object and this payload. *)
Definition loads_examples (s : string) : option json :=
  if String.eqb s "{}" then Some (JObject [])
  else if String.eqb s surrogate_payload then Some (JString lone_surrogate)
  else None.

(** A row of competition 39 with this payload. *)
Definition surrogate_row : fixture :=
  set "raw_data" (VStr surrogate_payload)
    (query_row (VInt 39) (VStr "英超") (VStr "Premier League")
       (VStr "阿仙奴") (VStr "Arsenal") (VStr "車路士") (VStr "Chelsea")
       (VStr "2024-03-01T15:00:00Z")).

(** A row of competition 39 in the year 999. *)
Definition early_year_row : fixture :=
  query_row (VInt 39) (VStr "英超") (VStr "Premier League")
    (VStr "阿仙奴") (VStr "Arsenal") (VStr "車路士") (VStr "Chelsea")
    (VStr "0999-06-15T12:00:00Z").

(** A world whose process may not search [/root]: the database is at none
    of the first two locations, and [exists()] raises at the third. *)
Definition world_unsearchable : World :=
  {| base_dir := "/srv/football-fixtures";
     path_exists := fun p =>
       if String.prefix "/root/" p then Raise PermissionError else Ok false;
     fetchall := fun _ _ => Raise OperationalError |}.

(** A fixture is a dict: no key twice. *)
Definition is_dict (f : fixture) : Prop := NoDup (map fst f).

(** Two rows of different competitions; the second competition has no
    name in either language. *)
Definition unnamed_league_rows : list fixture :=
  [ query_row (VInt 39) (VStr "英超") (VStr "Premier League")
      (VStr "阿仙奴") (VStr "Arsenal") (VStr "車路士") (VStr "Chelsea")
      (VStr "2024-03-01T15:00:00Z");
    query_row (VInt 61) VNone VNone
      (VStr "里昂") (VStr "Lyon") (VStr "尼斯") (VStr "Nice")
      (VStr "2024-03-02T20:00:00Z") ].

(** ** Values that [sorted] can order *)

Definition is_str (v : value) : bool :=
  match v with
  | VStr _ => true
  | _ => false
  end.

Definition is_int (v : value) : bool :=
  match v with
  | VInt _ => true
  | _ => false
  end.

(** At most one value, or strings only, or integers only. *)
Definition comparable_values (vs : list value) : Prop :=
  (List.length vs <= 1)%nat
  \/ Forall (fun v => is_str v = true) vs
  \/ Forall (fun v => is_int v = true) vs.

(** * [static_generator/html_builder.py] *)

(** ** The template filters *)

(** [format_time_filter(time_str)]: every path of the [try] returns
    [time_str]. *)
Definition format_time_filter (time_str : value) : value :=
  if truthy time_str then time_str else VStr "待定".

(** [datetime.strptime(s, '%Y-%m-%d')] on ASCII text, as the regular
    expression of [_strptime] reads it: [%Y] is four digits, [%m] is
    [1[0-2]|0[1-9]|[1-9]] and [%d] is [3[01]|[12]\d|0[1-9]|[1-9]| [1-9]], the
    alternatives in this order, with nothing after the day; then the date
    has to exist. *)
Definition strptime_year (s : string) : option (Z * string) :=
  match s with
  | String a (String b (String c (String d rest))) =>
      x1 <-? digit_val a ;; x2 <-? digit_val b ;;
      x3 <-? digit_val c ;; x4 <-? digit_val d ;;
      Some (1000 * x1 + 100 * x2 + 10 * x3 + x4, rest)
  | _ => None
  end.

Definition strptime_month (s : string) : option (Z * string) :=
  match s with
  | String a rest1 =>
      da <-? digit_val a ;;
      let one_digit := if 1 <=? da then Some (da, rest1) else None in
      match rest1 with
      | String b rest2 =>
          match digit_val b with
          | Some db =>
              if (da =? 1) && (db <=? 2) then Some (10 + db, rest2)
              else if (da =? 0) && (1 <=? db) then Some (db, rest2)
              else one_digit
          | None => one_digit
          end
      | EmptyString => one_digit
      end
  | EmptyString => None
  end.

Definition strptime_day (s : string) : option (Z * string) :=
  match s with
  | String a rest1 =>
      if Ascii.eqb a " "%char then
        match rest1 with
        | String b rest2 =>
            db <-? digit_val b ;;
            if 1 <=? db then Some (db, rest2) else None
        | EmptyString => None
        end
      else
        da <-? digit_val a ;;
        let one_digit := if 1 <=? da then Some (da, rest1) else None in
        match rest1 with
        | String b rest2 =>
            match digit_val b with
            | Some db =>
                if (da =? 3) && (db <=? 1) then Some (30 + db, rest2)
                else if (da =? 1) || (da =? 2) then Some (10 * da + db, rest2)
                else if (da =? 0) && (1 <=? db) then Some (db, rest2)
                else one_digit
            | None => one_digit
            end
        | EmptyString => one_digit
        end
  | EmptyString => None
  end.

Definition expect_dash (s : string) : option string :=
  match s with
  | String c rest => if Ascii.eqb c "-"%char then Some rest else None
  | EmptyString => None
  end.

Definition cpython_strptime_ymd (s : string) : option datetime :=
  '(y, s1) <-? strptime_year s ;;
  s2 <-? expect_dash s1 ;;
  '(m, s3) <-? strptime_month s2 ;;
  s4 <-? expect_dash s3 ;;
  '(d, s5) <-? strptime_day s4 ;;
  match s5 with
  | EmptyString =>
      if (1 <=? y) && (d <=? days_in_month y m)
      then Some (mkdt y m d 0 0 0 0 None) else None
  | String _ _ => None
  end.

(** [dt.strftime('%m月%d日')] *)
Definition strftime_month_day (dt : datetime) : string :=
  pad2 (month dt) ++ "月" ++ pad2 (day dt) ++ "日".

(** [format_date_filter(date_str)]; [strptime] is
    [datetime.strptime(s, '%Y-%m-%d')], [None] for an exception.  A value
    that is not text makes [strptime] raise [TypeError], which the [except]
    catches. *)
Definition format_date_filter (strptime : string -> option datetime)
  (date_str : value) : value :=
  if truthy date_str then
    match date_str with
    | VStr s =>
        match strptime s with
        | Some dt => VStr (strftime_month_day dt)
        | None => date_str
        end
    | _ => date_str
    end
  else VStr "待定".

(** [key in name] on two strings.  On UTF-8, a string occurs in another as
    a sequence of bytes exactly when it does as a sequence of code
    points. *)
Fixpoint contains (key name : string) : bool :=
  String.prefix key name
  || match name with
     | String _ name' => contains key name'
     | EmptyString => false
     end.

(** The table of [league_icon_filter], in the order of the source. *)
Definition league_icons : list (string * string) :=
  [ ("英超", "premier-league"); ("西甲", "la-liga"); ("德甲", "bundesliga");
    ("意甲", "serie-a"); ("法甲", "ligue-1"); ("歐冠", "champions-league");
    ("歐霸", "europa-league"); ("歐協", "europa-conference");
    ("亞冠", "afc-champions"); ("中超", "csl") ].

(** [league_icon_filter(league_name)]; [key in league_name] raises
    [TypeError] when the name is [None] or a number. *)
Definition league_icon_filter (league_name : value) : result string :=
  match league_name with
  | VStr name =>
      match find (fun entry => contains (fst entry) name) league_icons with
      | Some (_, icon) => Ok icon
      | None => Ok "default-league"
      end
  | _ => Raise TypeError
  end.

(** A date that exists. *)
Definition valid_date (dt : datetime) : Prop :=
  1 <= year dt <= 9999 /\ 1 <= month dt <= 12
  /\ 1 <= day dt <= days_in_month (year dt) (month dt).

(** ** The file name of a league page (lines 195-198)

    A [str] is a sequence of characters; [isalnum] and [isspace] are the
    predicates of Python on a character, and [fallback] is
    [f'league_{league_id}']. *)
Section SafeName.
Variable char : Type.
Variable char_eqb : char -> char -> bool.
Variables isalnum isspace : char -> bool.
Variables space hyphen underscore : char.

(** [c.isalnum() or c in (' ', '-', '_')] *)
Definition kept (c : char) : bool :=
  isalnum c || char_eqb c space || char_eqb c hyphen || char_eqb c underscore.

Fixpoint lstrip_chars (l : list char) : list char :=
  match l with
  | c :: l' => if isspace c then lstrip_chars l' else l
  | [] => []
  end.

(** [s.strip()] *)
Definition strip_chars (l : list char) : list char :=
  rev (lstrip_chars (rev (lstrip_chars l))).

(** [s.replace(a, b)] for two characters *)
Definition replace_char (a b : char) (l : list char) : list char :=
  map (fun c => if char_eqb c a then b else c) l.

Definition safe_name (league_name fallback : list char) : list char :=
  let safe := strip_chars (filter kept league_name) in
  let safe := replace_char hyphen underscore
                (replace_char space underscore safe) in
  match safe with
  | [] => fallback
  | _ :: _ => safe
  end.
End SafeName.

(** The predicates of Python on an ASCII character. *)
Definition ascii_isalnum (c : ascii) : bool :=
  let n := nat_of_ascii c in
  ((48 <=? n) && (n <=? 57) || (65 <=? n) && (n <=? 90)
   || (97 <=? n) && (n <=? 122))%nat.

Definition ascii_safe_name (league_name fallback : string) : string :=
  string_of_list_ascii
    (safe_name ascii Ascii.eqb ascii_isalnum is_space " "%char "-"%char "_"%char
       (list_ascii_of_string league_name) (list_ascii_of_string fallback)).

(** ** The generator

    The methods of [HTMLBuilder] that write the site.  What they do to the
    world is kept in a [state]: the operations on the file system, in the
    order they were performed, and the number of times the methods of the
    generator have called [datetime.now()].  The reader reads the clock
    itself, once in each call of [get_fixtures] that has found and opened
    the database file (line 92 of [db_reader.py]); that reading is part of
    the query of the [World] and is not counted here.
    A method is a function from the state before to an [outcome] and the
    state after; an exception leaves the state as it was when it was
    raised.  Console output is not modelled.

    The libraries the methods call are the fields of a [Site]: [pathlib]'s
    [/] followed by [str], the [render] of a jinja2 template,
    [datetime.now()] and the file system.  An operation on the file system
    is atomic: [open] followed by [json.dump] is one [Write]. *)

(** [str(v)], as an f-string formats a value. *)
Definition py_str (v : value) : string :=
  match v with
  | VNone => "None"
  | VInt z => DecimalString.NilZero.string_of_int (Z.to_int z)
  | VStr s => s
  end.

(** [dt.strftime('%Y-%m-%d %H:%M:%S')] *)
Definition strftime_seconds (dt : datetime) : string :=
  strftime_datetime dt ++ ":" ++ pad2 (second dt).

Definition pad6 (n : Z) : string :=
  pad2 (n / 10000) ++ pad2 (n / 100) ++ pad2 n.

(** [dt.isoformat()]: the year has four digits, the microseconds are
    written when they are not zero, and the offset of an aware value after
    them. *)
Definition isoformat (dt : datetime) : string :=
  pad4 (year dt) ++ "-" ++ pad2 (month dt) ++ "-" ++ pad2 (day dt)
  ++ "T" ++ strftime_time dt ++ ":" ++ pad2 (second dt)
  ++ (if microsecond dt =? 0 then "" else "." ++ pad6 (microsecond dt))
  ++ match tzinfo dt with
     | None => ""
     | Some off =>
         let a := Z.abs off in
         (if off <? 0 then "-" else "+")
         ++ pad2 (a / 3600) ++ ":" ++ pad2 (a mod 3600 / 60)
         ++ (if a mod 60 =? 0 then "" else ":" ++ pad2 (a mod 60))
     end.

(** The keyword arguments of [template.render]. *)
Inductive template_data : Type :=
| IndexData (title subtitle : string) (fixtures : list fixture)
    (fixtures_by_date : list (value * list fixture))
    (fixtures_by_league : list (value * league))
    (total_fixtures total_leagues : nat) (generated_at : string)
    (days_ahead : Z)
| LeagueData (title : string) (league_data : league)
    (fixtures : list fixture) (generated_at : string).

(** The objects given to [json.dump], field by field; an entry of the
    ['leagues'] list of the statistics is [(id, name, count)]. *)
Inductive document : Type :=
| FullData (status : string) (count : nat) (generated_at : string)
    (data : list fixture)
| LeaguesData (status : string) (count : nat) (generated_at : string)
    (data : list (value * league))
| DatesData (status : string) (count : nat) (generated_at : string)
    (data : list (value * list fixture))
| StatsData (status : string) (generated_at : string)
    (total_fixtures total_leagues total_dates : nat)
    (leagues : list (value * value * nat)).

(** What is written to a file: the text of a page, the serialisation of a
    document, or one of the two literals [css_content] and [js_content]. *)
Inductive content : Type :=
| Html (text : string)
| Json (doc : document)
| Stylesheet
| Script.

(** [path.mkdir(parents=True, exist_ok=True)] and a write that replaces the
    file. *)
Inductive event : Type :=
| Mkdir (path : string)
| Write (path : string) (c : content).

(** What a method can raise: an exception of the reader or of a builtin, an
    exception of jinja2, or an [OSError] of the file system. *)
Inductive failure : Type :=
| Raised (e : exn)
| TemplateError
| OSError.

Inductive outcome (A : Type) : Type :=
| Returned (a : A)
| Failed (f : failure).
Arguments Returned {A} a.
Arguments Failed {A} f.

Record Site : Type := {
  (** [self.output_dir] *)
  output_dir : string;
  (** [str(Path(dir) / name)] *)
  join : string -> string -> string;
  (** [self.env.get_template(name)] and its [render] on the keyword
      arguments; the template, and the
      filters it calls, may raise anything. *)
  render : string -> template_data -> outcome string;
  (** [datetime.now()] in a method of the generator, when the generator
      has called it [k] times before *)
  clock : nat -> datetime;
  (** whether the file system performs an operation, after the operations
      performed before *)
  permits : list event -> event -> bool
}.

(** A [str] as the sequence of its characters, with the predicates of
    Python on a character. *)
Record Unicode : Type := {
  code_point : Type;
  code_point_eqb : code_point -> code_point -> bool;
  isalnum : code_point -> bool;
  isspace : code_point -> bool;
  space : code_point;
  hyphen : code_point;
  underscore : code_point;
  (** the characters of a [str], and [''.join] of characters *)
  code_points : string -> list code_point;
  of_code_points : list code_point -> string
}.

Record state : Type := mkstate {
  events : list event;
  clock_reads : nat
}.

Definition gen (A : Type) : Type := state -> outcome A * state.

Definition ret {A : Type} (a : A) : gen A := fun st => (Returned a, st).

Definition gbind {A B : Type} (m : gen A) (k : A -> gen B) : gen B :=
  fun st =>
    match m st with
    | (Returned a, st') => k a st'
    | (Failed f, st') => (Failed f, st')
    end.

Notation "x <~ m ;; k" := (gbind m (fun x => k))
  (at level 61, m at next level, right associativity).

(** A call of a function of the reader. *)
Definition lift {A : Type} (r : result A) : gen A :=
  fun st =>
    match r with
    | Ok a => (Returned a, st)
    | Raise e => (Failed (Raised e), st)
    end.

(** The file name of a league page, lines 195-198; iterating over a name
    that is not a [str] raises [TypeError]. *)
Definition page_file_name (u : Unicode) (name id : value) : result string :=
  match name with
  | VStr s =>
      let safe_name :=
        strip_chars (code_point u) (isspace u)
          (filter (kept (code_point u) (code_point_eqb u) (isalnum u)
                     (space u) (hyphen u) (underscore u))
             (code_points u s)) in
      let safe_name :=
        replace_char (code_point u) (code_point_eqb u) (hyphen u) (underscore u)
          (replace_char (code_point u) (code_point_eqb u) (space u)
             (underscore u) safe_name) in
      Ok match safe_name with
         | [] => "league_" ++ py_str id
         | _ :: _ => of_code_points u safe_name
         end
  | _ => Raise TypeError
  end.

(** The paths returned by [generate_json_api] and by [generate_all]. *)
Record api_paths : Type := mkapi {
  fixtures_path : string;
  leagues_path : string;
  dates_path : string;
  stats_path : string
}.

Record site_paths : Type := mksite {
  index : string;
  league_pages : list (value * string);
  json_api : api_paths;
  css : string;
  js : string
}.

Section Generator.
Variable rt : Runtime.
Variable w : World.
Variable ids : list Z.
Variable u : Unicode.
Variable site : Site.

(** [datetime.now()] *)
Definition now : gen datetime :=
  fun st =>
    (Returned (clock site (clock_reads st)),
     mkstate (events st) (S (clock_reads st))).

(** An operation on the file system. *)
Definition perform (e : event) : gen unit :=
  fun st =>
    if permits site (events st) e
    then (Returned tt, mkstate (events st ++ [e]) (clock_reads st))
    else (Failed OSError, st).

(** [if fixtures is None: fixtures = get_fixtures(days_ahead)] *)
Definition fixtures_or_get (fixtures : option (list fixture)) (days_ahead : Z)
  : gen (list fixture) :=
  match fixtures with
  | Some l => ret l
  | None => lift (get_fixtures rt w ids days_ahead)
  end.

(** [generate_index(fixtures, days_ahead)] *)
Definition generate_index (fixtures : option (list fixture)) (days_ahead : Z)
  : gen string :=
  fixtures <~ fixtures_or_get fixtures days_ahead ;;
  fixtures_by_date <~ lift (get_fixtures_by_date fixtures) ;;
  fixtures_by_league <~ lift (get_fixtures_by_league fixtures) ;;
  t <~ now ;;
  let template_data :=
    IndexData "足球賽事數據中心" "實時更新的足球賽事信息（繁體中文）"
      fixtures fixtures_by_date fixtures_by_league
      (List.length fixtures) (List.length fixtures_by_league)
      (strftime_seconds t) days_ahead in
  html_content <~ (fun st => (render site "index.html.j2" template_data, st)) ;;
  let output_path := join site (output_dir site) "index.html" in
  _ <~ perform (Write output_path (Html html_content)) ;;
  ret output_path.

(** One turn of the loop of [generate_league_pages], lines 173-203. *)
Definition league_page (pages : list (value * string))
  (item : value * league) : gen (list (value * string)) :=
  let id := fst item in
  let league_data := snd item in
  let name := league_name league_data in
  t <~ now ;;
  let template_data :=
    LeagueData (py_str name ++ " - 賽事列表") league_data
      (league_fixtures league_data) (strftime_seconds t) in
  html_content <~ (fun st => (render site "league.html.j2" template_data, st)) ;;
  let league_dir := join site (output_dir site) "leagues" in
  _ <~ perform (Mkdir league_dir) ;;
  safe_name <~ lift (page_file_name u name id) ;;
  let output_path := join site league_dir (safe_name ++ ".html") in
  _ <~ perform (Write output_path (Html html_content)) ;;
  ret (dset value_eqb id output_path pages).

Fixpoint league_page_loop (pages : list (value * string))
  (items : list (value * league)) : gen (list (value * string)) :=
  match items with
  | [] => ret pages
  | item :: items' =>
      pages' <~ league_page pages item ;;
      league_page_loop pages' items'
  end.

(** [generate_league_pages(fixtures)] *)
Definition generate_league_pages (fixtures : option (list fixture))
  : gen (list (value * string)) :=
  fixtures <~ fixtures_or_get fixtures 7 ;;
  fixtures_by_league <~ lift (get_fixtures_by_league fixtures) ;;
  league_page_loop [] fixtures_by_league.

(** [generate_json_api(fixtures)] *)
Definition generate_json_api (fixtures : option (list fixture))
  : gen api_paths :=
  fixtures <~ fixtures_or_get fixtures 7 ;;
  let api_dir := join site (output_dir site) "api" in
  _ <~ perform (Mkdir api_dir) ;;
  t <~ now ;;
  let full_data :=
    FullData "success" (List.length fixtures) (isoformat t) fixtures in
  let full_path := join site api_dir "fixtures.json" in
  _ <~ perform (Write full_path (Json full_data)) ;;
  fixtures_by_league <~ lift (get_fixtures_by_league fixtures) ;;
  t <~ now ;;
  let leagues_data :=
    LeaguesData "success" (List.length fixtures_by_league) (isoformat t)
      fixtures_by_league in
  let leagues_path := join site api_dir "leagues.json" in
  _ <~ perform (Write leagues_path (Json leagues_data)) ;;
  fixtures_by_date <~ lift (get_fixtures_by_date fixtures) ;;
  t <~ now ;;
  let dates_data :=
    DatesData "success" (List.length fixtures_by_date) (isoformat t)
      fixtures_by_date in
  let dates_path := join site api_dir "dates.json" in
  _ <~ perform (Write dates_path (Json dates_data)) ;;
  t <~ now ;;
  let stats_data :=
    StatsData "success" (isoformat t)
      (List.length fixtures) (List.length fixtures_by_league)
      (List.length fixtures_by_date)
      (map (fun item =>
              (fst item, league_name (snd item),
               List.length (league_fixtures (snd item))))
         fixtures_by_league) in
  let stats_path := join site api_dir "stats.json" in
  _ <~ perform (Write stats_path (Json stats_data)) ;;
  ret (mkapi full_path leagues_path dates_path stats_path).

(** [generate_css()] *)
Definition generate_css : gen string :=
  let css_dir := join site (output_dir site) "css" in
  _ <~ perform (Mkdir css_dir) ;;
  let css_path := join site css_dir "style.css" in
  _ <~ perform (Write css_path Stylesheet) ;;
  ret css_path.

(** [generate_js()] *)
Definition generate_js : gen string :=
  let js_dir := join site (output_dir site) "js" in
  _ <~ perform (Mkdir js_dir) ;;
  let js_path := join site js_dir "main.js" in
  _ <~ perform (Write js_path Script) ;;
  ret js_path.

(** [generate_all(days_ahead)] *)
Definition generate_all (days_ahead : Z) : gen site_paths :=
  fixtures <~ lift (get_fixtures rt w ids days_ahead) ;;
  index <~ generate_index (Some fixtures) days_ahead ;;
  league_pages <~ generate_league_pages (Some fixtures) ;;
  json_api <~ generate_json_api (Some fixtures) ;;
  css <~ generate_css ;;
  js <~ generate_js ;;
  ret (mksite index league_pages json_api css js).
End Generator.

(** ** What a run wrote *)

(** The files written by a list of operations, in order. *)
Fixpoint written (l : list event) : list string :=
  match l with
  | [] => []
  | Mkdir _ :: l' => written l'
  | Write path _ :: l' => path :: written l'
  end.

(** The path of the page of a competition of the mapping, as
    [generate_league_pages] computes it. *)
Definition page_path (u : Unicode) (site : Site) (item : value * league)
  : result string :=
  safe_name <- page_file_name u (league_name (snd item)) (fst item) ;;
  Ok (join site (join site (output_dir site) "leagues") (safe_name ++ ".html")).

(** The templates render and the file system performs every operation. *)
Definition renders (site : Site) : Prop :=
  forall name data, exists html, render site name data = Returned html.

Definition permissive (site : Site) : Prop :=
  forall done e, permits site done e = true.

(** ** Examples for the generator *)

(** ASCII text: every byte is a character. *)
Definition ascii_unicode : Unicode :=
  {| code_point := ascii;
     code_point_eqb := Ascii.eqb;
     isalnum := ascii_isalnum;
     isspace := is_space;
     space := " "%char;
     hyphen := "-"%char;
     underscore := "_"%char;
     code_points := list_ascii_of_string;
     of_code_points := string_of_list_ascii |}.

(** A site whose templates render to their title, at noon of 2024-03-01,
    on a file system that performs every operation. *)
Definition example_site : Site :=
  {| output_dir := "../public";
     join := fun dir name => dir ++ "/" ++ name;
     render := fun _ data =>
       Returned match data with
                | IndexData title _ _ _ _ _ _ _ _ => title
                | LeagueData title _ _ _ => title
                end;
     clock := fun k => mkdt 2024 3 1 12 0 (Z.of_nat k) 0 None;
     permits := fun _ _ => true |}.

(** Three rows of two competitions that have an English name only. *)
Definition english_rows : list fixture :=
  [ query_row (VInt 135) VNone (VStr "Serie A")
      VNone (VStr "Inter") VNone (VStr "Milan")
      (VStr "2024-03-02T19:45:00Z");
    query_row (VInt 39) VNone (VStr "Premier League")
      VNone (VStr "Arsenal") VNone (VStr "Chelsea")
      (VStr "2024-03-01T15:00:00Z");
    query_row (VInt 135) VNone (VStr "Serie A")
      VNone (VStr "Roma") VNone (VStr "Lazio")
      (VStr "2024-03-01T17:00:00Z") ].

(** One row of a competition that has no name in either language. *)
Definition unnamed_competition_rows : list fixture :=
  [ query_row (VInt 61) VNone VNone
      (VStr "Lyon") (VStr "Lyon") (VStr "Nice") (VStr "Nice")
      (VStr "2024-03-02T20:00:00Z") ].

(** ** Order of first occurrence *)

(** The distinct values of a list, in the order in which they first
    occur. *)
Definition first_occurrences (l : list value) : list value :=
  fold_left
    (fun seen k =>
       if existsb (value_eqb k) seen then seen else (seen ++ [k])%list)
    l [].

(** Two competitions of different countries that share a display name,
    and a third one between them. *)
Definition same_name_fixtures : list fixture :=
  [ [("league_api_id", VInt 203); ("league_name_tc", VStr "Super League")];
    [("league_api_id", VInt 39); ("league_name_tc", VStr "Premier League")];
    [("league_api_id", VInt 169); ("league_name_tc", VStr "Super League")];
    [("league_api_id", VInt 203); ("league_name_tc", VStr "Super League")] ].
(** * Properties *)

Local Open Scope list_scope.

(** ** Values and the order on text *)

Lemma value_eqb_eq (a b : value) : value_eqb a b = true <-> a = b.
Proof.
  destruct a, b; simpl; split; intros H; try discriminate; try reflexivity.
  - apply Z.eqb_eq in H. now subst.
  - inversion H. apply Z.eqb_refl.
  - apply String.eqb_eq in H. now subst.
  - inversion H. apply String.eqb_refl.
Qed.

Lemma ascii_compare_trans (a b c : ascii) (r : comparison) :
  Ascii.compare a b = r -> Ascii.compare b c = r -> Ascii.compare a c = r.
Proof.
  unfold Ascii.compare. intros H1 H2. destruct r.
  - apply N.compare_eq_iff in H1, H2. apply N.compare_eq_iff. congruence.
  - apply N.compare_lt_iff in H1, H2. apply N.compare_lt_iff.
    eapply N.lt_trans; eassumption.
  - apply N.compare_gt_iff in H1, H2. apply N.compare_gt_iff.
    eapply N.lt_trans; eassumption.
Qed.

Lemma string_compare_lt_trans (s t u : string) :
  String.compare s t = Lt -> String.compare t u = Lt -> String.compare s u = Lt.
Proof.
  revert t u. induction s as [|a s IH]; intros [|b t] [|c u]; simpl;
    try discriminate; try reflexivity.
  destruct (Ascii.compare a b) eqn:Hab; try discriminate;
    destruct (Ascii.compare b c) eqn:Hbc; try discriminate; intros H1 H2.
  - apply Ascii.compare_eq_iff in Hab, Hbc. subst.
    replace (Ascii.compare c c) with Eq; [eauto|].
    symmetry. unfold Ascii.compare. apply N.compare_refl.
  - apply Ascii.compare_eq_iff in Hab. subst. now rewrite Hbc.
  - apply Ascii.compare_eq_iff in Hbc. subst. now rewrite Hab.
  - now rewrite (ascii_compare_trans a b c Lt Hab Hbc).
Qed.

Lemma string_compare_refl (s : string) : String.compare s s = Eq.
Proof.
  induction s as [|a s IH]; simpl; [reflexivity|].
  replace (Ascii.compare a a) with Eq; [assumption|].
  symmetry. unfold Ascii.compare. apply N.compare_refl.
Qed.

Lemma string_leb_trans (s t u : string) :
  String.leb s t = true -> String.leb t u = true -> String.leb s u = true.
Proof.
  unfold String.leb. intros H1 H2.
  destruct (String.compare s t) eqn:Hst; try discriminate;
    destruct (String.compare t u) eqn:Htu; try discriminate.
  - apply String.compare_eq_iff in Hst, Htu. subst.
    now rewrite string_compare_refl.
  - apply String.compare_eq_iff in Hst. subst. now rewrite Htu.
  - apply String.compare_eq_iff in Htu. subst. now rewrite Hst.
  - now rewrite (string_compare_lt_trans s t u Hst Htu).
Qed.

(** [not (t < s)] is [s <= t]. *)
Lemma string_ltb_false_leb (s t : string) :
  String.ltb t s = false -> String.leb s t = true.
Proof.
  unfold String.ltb, String.leb. rewrite (String.compare_antisym t s).
  destruct (String.compare s t); simpl; congruence.
Qed.

(** ** Dictionaries *)

Section DictFacts.
Context {K V : Type} (eqb : K -> K -> bool).
Hypothesis eqb_eq : forall a b, eqb a b = true <-> a = b.

Lemma eqb_refl' (a : K) : eqb a a = true.
Proof. now apply eqb_eq. Qed.

Lemma eqb_neq' (a b : K) : a <> b -> eqb a b = false.
Proof.
  intros H. destruct (eqb a b) eqn:E; [|reflexivity].
  apply eqb_eq in E. contradiction.
Qed.

Lemma dget_dset_same (k : K) (v : V) (d : list (K * V)) :
  dget eqb k (dset eqb k v d) = Some v.
Proof.
  induction d as [|[k' v'] d IH]; simpl.
  - now rewrite eqb_refl'.
  - destruct (eqb k k') eqn:E; simpl; rewrite E; [reflexivity|assumption].
Qed.

Lemma dget_dset_other (k k' : K) (v : V) (d : list (K * V)) :
  k <> k' -> dget eqb k (dset eqb k' v d) = dget eqb k d.
Proof.
  intros Hne. induction d as [|[k0 v0] d IH]; simpl.
  - now rewrite (eqb_neq' k k' Hne).
  - destruct (eqb k' k0) eqn:E; simpl.
    + apply eqb_eq in E. subst. now rewrite (eqb_neq' k k0 Hne).
    + now rewrite IH.
Qed.

Lemma dget_None (k : K) (d : list (K * V)) :
  dget eqb k d = None <-> ~ In k (map fst d).
Proof.
  induction d as [|[k' v'] d IH]; simpl.
  - tauto.
  - destruct (eqb k k') eqn:E.
    + apply eqb_eq in E. subst. split; [discriminate|tauto].
    + rewrite IH. split; [|tauto].
      intros H [H'|H']; [|tauto]. subst. rewrite eqb_refl' in E. discriminate.
Qed.

Lemma dget_split (k : K) (v : V) (d : list (K * V)) :
  dget eqb k d = Some v ->
  exists d1 d2, d = d1 ++ (k, v) :: d2 /\ ~ In k (map fst d1).
Proof.
  induction d as [|[k' v'] d IH]; simpl; [discriminate|].
  destruct (eqb k k') eqn:E.
  - apply eqb_eq in E. subst. intros H. inversion H. subst.
    exists [], d. simpl. tauto.
  - intros H. destruct (IH H) as (d1 & d2 & -> & Hn).
    exists ((k', v') :: d1), d2. split; [reflexivity|].
    simpl. intros [H'|H']; [|tauto].
    subst. rewrite eqb_refl' in E. discriminate.
Qed.

Lemma dset_fresh (k : K) (v : V) (d : list (K * V)) :
  ~ In k (map fst d) -> dset eqb k v d = d ++ [(k, v)].
Proof.
  induction d as [|[k' v'] d IH]; simpl; intros H; [reflexivity|].
  rewrite eqb_neq' by (intros E; apply H; left; now subst).
  rewrite IH by tauto. reflexivity.
Qed.

Lemma dupdate_at (k : K) (f : V -> V) (d1 d2 : list (K * V)) (v : V) :
  ~ In k (map fst d1) ->
  dupdate eqb k f (d1 ++ (k, v) :: d2) = d1 ++ (k, f v) :: d2.
Proof.
  induction d1 as [|[k' v'] d1 IH]; simpl; intros H.
  - now rewrite eqb_refl'.
  - rewrite eqb_neq' by (intros E; apply H; left; now subst).
    rewrite IH by tauto. reflexivity.
Qed.

(** [dict(items)] of items with different keys is the items in order. *)
Lemma dict_of_NoDup (items : list (K * V)) :
  NoDup (map fst items) -> dict_of eqb items = items.
Proof.
  unfold dict_of.
  enough (H : forall acc, NoDup (map fst (acc ++ items)) ->
            fold_left (fun d kv => dset eqb (fst kv) (snd kv) d) items acc
            = acc ++ items) by (intros Hnd; apply (H [] Hnd)).
  induction items as [|[k v] items IH]; intros acc Hnd; simpl.
  - now rewrite app_nil_r.
  - rewrite dset_fresh.
    + rewrite IH; rewrite <- app_assoc; [reflexivity|assumption].
    + rewrite map_app in Hnd. simpl in Hnd.
      apply NoDup_remove_2 in Hnd. intros Hin. apply Hnd.
      apply in_or_app. now left.
Qed.

(** The step of both grouping loops: [if k not in d: d[k] = init], then
    [d[k] = add(d[k])]. *)
Lemma add_group_cases (k : K) (init : V) (add : V -> V) (d : list (K * V)) :
  let d' := dupdate eqb k add (if dmem eqb k d then d else dset eqb k init d) in
  (~ In k (map fst d) /\ d' = d ++ [(k, add init)])
  \/ (exists d1 v d2, d = d1 ++ (k, v) :: d2 /\ ~ In k (map fst d1)
                      /\ d' = d1 ++ (k, add v) :: d2).
Proof.
  simpl. unfold dmem. destruct (dget eqb k d) as [v|] eqn:E.
  - right. destruct (dget_split k v d E) as (d1 & d2 & -> & Hn).
    exists d1, v, d2. repeat split; try assumption.
    now apply dupdate_at.
  - left. apply dget_None in E. split; [assumption|].
    rewrite dset_fresh by assumption. now apply dupdate_at.
Qed.
End DictFacts.

(** ** Sorting *)

Section SortedFacts.
Context {A : Type} (lt : A -> A -> result bool).

Lemma insert_sorted_perm (x : A) (l r : list A) :
  insert_sorted lt x l = Ok r -> Permutation (x :: l) r.
Proof.
  revert r. induction l as [|y l IH]; simpl; intros r H.
  - inversion H. apply Permutation_refl.
  - destruct (lt y x) as [[|]|e]; simpl in H; try discriminate.
    + destruct (insert_sorted lt x l) as [r'|e]; simpl in H; try discriminate.
      inversion H. subst. rewrite perm_swap. apply perm_skip. now apply IH.
    + inversion H. apply Permutation_refl.
Qed.

Lemma sorted_perm (l r : list A) : sorted lt l = Ok r -> Permutation l r.
Proof.
  revert r. induction l as [|x l IH]; simpl; intros r H.
  - inversion H. apply perm_nil.
  - destruct (sorted lt l) as [s|e]; simpl in H; try discriminate.
    apply insert_sorted_perm in H. rewrite <- H. apply perm_skip. now apply IH.
Qed.

(** The sort returns when every comparison of a later item with an
    earlier one does. *)
Lemma insert_sorted_returns (x : A) (l : list A) :
  Forall (fun y => exists b, lt y x = Ok b) l ->
  exists r, insert_sorted lt x l = Ok r.
Proof.
  induction l as [|y l IH]; simpl; intros H.
  - now exists [x].
  - inversion H as [|? ? [b Hb] Hl]. subst. rewrite Hb. simpl.
    destruct b.
    + destruct (IH Hl) as [r Hr]. rewrite Hr. simpl. now exists (y :: r).
    + now exists (x :: y :: l).
Qed.

Lemma sorted_returns (l : list A) :
  ForallOrdPairs (fun x y => exists b, lt y x = Ok b) l ->
  exists r, sorted lt l = Ok r.
Proof.
  induction l as [|x l IH]; simpl; intros H.
  - now exists [].
  - inversion H as [|? ? Hx Hl]. subst.
    destruct (IH Hl) as [s Hs]. rewrite Hs. simpl.
    apply insert_sorted_returns.
    apply sorted_perm in Hs. now rewrite <- Hs.
Qed.

(** The result is in the order [R] when [<] decides [R] on the items. *)
Section Order.
Context (P : A -> Prop) (R : A -> A -> Prop).
Hypothesis lt_true : forall x y, P x -> P y -> lt y x = Ok true -> R y x.
Hypothesis lt_false : forall x y, P x -> P y -> lt y x = Ok false -> R x y.
Hypothesis R_trans : forall x y z, R x y -> R y z -> R x z.

Lemma insert_sorted_order (x : A) (l r : list A) :
  P x -> Forall P l -> StronglySorted R l ->
  insert_sorted lt x l = Ok r -> StronglySorted R r.
Proof.
  intros Px. revert r. induction l as [|y l IH]; simpl; intros r HP HS H.
  - inversion H. constructor; constructor.
  - inversion HP as [|? ? Py Pl]. inversion HS as [|? ? HSl Hy]. subst.
    destruct (lt y x) as [[|]|e] eqn:E; simpl in H; try discriminate.
    + destruct (insert_sorted lt x l) as [r'|e] eqn:Er; simpl in H;
        try discriminate.
      inversion H. subst. constructor.
      * now apply IH.
      * apply insert_sorted_perm in Er. rewrite <- Er.
        constructor; [now apply lt_true|assumption].
    + inversion H. subst. constructor; [assumption|].
      assert (Rxy : R x y) by now apply lt_false.
      constructor; [assumption|].
      eapply Forall_impl; [|exact Hy]. intros z Hz. now apply (R_trans x y z).
Qed.

Lemma sorted_order (l r : list A) :
  Forall P l -> sorted lt l = Ok r -> StronglySorted R r.
Proof.
  revert r. induction l as [|x l IH]; simpl; intros r HP H.
  - inversion H. constructor.
  - inversion HP as [|? ? Px Pl]. subst.
    destruct (sorted lt l) as [s|e] eqn:Es; simpl in H; try discriminate.
    apply (insert_sorted_order x s r); try assumption.
    + apply sorted_perm in Es. now rewrite <- Es.
    + now apply IH.
Qed.
End Order.
End SortedFacts.

(** ** The grouping loops *)

Section GroupFacts.
Context {V : Type} (items : V -> list fixture) (key : fixture -> value).
Context (init : fixture -> V) (add : fixture -> V -> V).
Context (step : list (value * V) -> fixture -> list (value * V)).
Hypothesis items_init : forall f, items (init f) = [].
Hypothesis items_add : forall f g, items (add f g) = items g ++ [f].
Hypothesis step_eq : forall d f,
  step d f = dupdate value_eqb (key f) (add f)
               (if dmem value_eqb (key f) d then d
                else dset value_eqb (key f) (init f) d).

Lemma step_groups (d : list (value * V)) (seen : list fixture) (f : fixture) :
  groups_of items key d seen -> groups_of items key (step d f) (seen ++ [f]).
Proof.
  intros (Hnd & Hperm & Hkey). rewrite step_eq.
  destruct (add_group_cases value_eqb value_eqb_eq (key f) (init f) (add f) d)
    as [[Hfresh ->]|(d1 & v & d2 & -> & Hn & ->)].
  - repeat split.
    + rewrite map_app. simpl.
      apply Permutation_NoDup with (l := key f :: map fst d).
      * apply Permutation_cons_append.
      * now constructor.
    + rewrite flat_map_app. simpl. rewrite items_add, items_init, app_nil_r.
      simpl. now apply Permutation_app_tail.
    + intros k g f' Hin Hf'. apply in_app_or in Hin. destruct Hin as [Hin|[Hin|[]]].
      * eauto.
      * inversion Hin. subst. rewrite items_add, items_init in Hf'.
        simpl in Hf'. destruct Hf' as [->|[]]. reflexivity.
  - repeat split.
    + rewrite map_app in *. simpl in *. assumption.
    + rewrite flat_map_app in *. simpl in *. rewrite items_add.
      rewrite <- Hperm. rewrite <- !app_assoc.
      do 2 apply Permutation_app_head. apply Permutation_app_comm.
    + intros k g f' Hin Hf'. apply in_app_or in Hin. destruct Hin as [Hin|[Hin|Hin]].
      * apply (Hkey k g f'); [|assumption]. apply in_or_app. now left.
      * inversion Hin. subst. rewrite items_add in Hf'.
        apply in_app_or in Hf'. destruct Hf' as [Hf'|[->|[]]]; [|reflexivity].
        apply (Hkey (key f) v f'); [|assumption].
        apply in_or_app. right. now left.
      * apply (Hkey k g f'); [|assumption]. apply in_or_app. right. now right.
Qed.

Lemma fold_groups (l : list fixture) :
  forall d seen, groups_of items key d seen -> groups_of items key (fold_left step l d) (seen ++ l).
Proof.
  induction l as [|f l IH]; simpl; intros d seen H.
  - now rewrite app_nil_r.
  - replace (seen ++ f :: l) with ((seen ++ [f]) ++ l)
      by (now rewrite <- app_assoc).
    apply IH. now apply step_groups.
Qed.

Lemma groups_of_nil : groups_of items key [] [].
Proof.
  repeat split; simpl; [constructor|constructor|intros ? ? ? []].
Qed.

(** A property of the items of the mapping that each fixture brings to
    its group and that adding a fixture keeps. *)
Lemma fold_Forall (H : fixture -> Prop) (Q : value * V -> Prop) :
  (forall f, H f -> Q (key f, add f (init f))) ->
  (forall k g f, Q (k, g) -> Q (k, add f g)) ->
  forall l d, Forall H l -> Forall Q d -> Forall Q (fold_left step l d).
Proof.
  intros Qinit Qadd. induction l as [|f l IH]; simpl; intros d Hl Hd.
  - assumption.
  - inversion Hl as [|? ? Hf Hl']. subst. apply IH; [assumption|].
    rewrite step_eq.
    destruct (add_group_cases value_eqb value_eqb_eq (key f) (init f) (add f) d)
      as [[Hfresh ->]|(d1 & v & d2 & -> & Hn & ->)].
    + apply Forall_app. split; [assumption|]. constructor; [|constructor].
      now apply Qinit.
    + apply Forall_app in Hd. destruct Hd as [H1 H2].
      inversion H2 as [|? ? Hv H2']. subst.
      apply Forall_app. split; [assumption|]. constructor; [|assumption].
      now apply Qadd.
Qed.
End GroupFacts.

Lemma groups_of_perm {V : Type} (items : V -> list fixture)
  (key : fixture -> value) (d r : list (value * V)) (seen : list fixture) :
  groups_of items key d seen -> Permutation d r -> groups_of items key r seen.
Proof.
  intros (Hnd & Hperm & Hkey) Hp. repeat split.
  - apply Permutation_NoDup with (l := map fst d); [|assumption].
    now apply Permutation_map.
  - rewrite <- Hperm. apply Permutation_flat_map. now apply Permutation_sym.
  - intros k g f Hin. apply (Hkey k g f).
    apply Permutation_in with (l := r); [now apply Permutation_sym|assumption].
Qed.

Lemma groups_of_length {V : Type} (items : V -> list fixture)
  (key : fixture -> value) (d : list (value * V)) (seen : list fixture) :
  groups_of items key d seen ->
  list_sum (map (fun kv => List.length (items (snd kv))) d) = List.length seen.
Proof.
  intros (_ & Hperm & _). rewrite <- length_flat_map.
  now apply Permutation_length.
Qed.

(** A fixture that was seen is in the group of its key. *)
Lemma groups_of_In {V : Type} (items : V -> list fixture)
  (key : fixture -> value) (d : list (value * V)) (seen : list fixture)
  (f : fixture) :
  groups_of items key d seen -> In f seen ->
  exists g, In (key f, g) d /\ In f (items g).
Proof.
  intros (_ & Hperm & Hkey) Hin.
  apply Permutation_in with (l' := flat_map (fun kv => items (snd kv)) d) in Hin;
    [|now apply Permutation_sym].
  apply in_flat_map in Hin. destruct Hin as ([k g] & Hkg & Hf). simpl in Hf.
  exists g. rewrite (Hkey k g f Hkg Hf). now split.
Qed.

(** ** [get_fixtures_by_league] *)

Lemma group_by_league_groups (fixtures : list fixture) :
  groups_of league_fixtures league_key (group_by_league fixtures) fixtures.
Proof.
  unfold group_by_league.
  apply (fold_groups league_fixtures league_key
           (fun f => mkleague (league_key f)
                       (get_or "league_name_tc" (VStr "未知聯賽") f)
                       (get_or "league_country" (VStr "") f) [])
           append_fixture add_to_league) with (seen := []).
  - reflexivity.
  - reflexivity.
  - reflexivity.
  - apply groups_of_nil.
Qed.

Lemma text_or_absent_get_or (k : string) (default : string) (f : fixture) :
  text_or_absent k f -> exists s, get_or k (VStr default) f = VStr s.
Proof.
  unfold text_or_absent, get_or, dget_or, get.
  destruct (dget String.eqb k f) as [[| |s]|]; intros H; try contradiction; eauto.
Qed.

Lemma group_by_league_names (fixtures : list fixture) :
  Forall (text_or_absent "league_name_tc") fixtures ->
  Forall (fun kv : value * league => exists s, league_name (snd kv) = VStr s)
    (group_by_league fixtures).
Proof.
  intros H. unfold group_by_league.
  apply (fold_Forall league_key
           (fun f => mkleague (league_key f)
                       (get_or "league_name_tc" (VStr "未知聯賽") f)
                       (get_or "league_country" (VStr "") f) [])
           append_fixture add_to_league)
    with (H := text_or_absent "league_name_tc").
  - reflexivity.
  - intros f Hf. simpl. now apply text_or_absent_get_or.
  - intros k g f Hg. exact Hg.
  - assumption.
  - constructor.
Qed.

Lemma string_ltb_leb (s t : string) :
  String.ltb s t = true -> String.leb s t = true.
Proof.
  unfold String.ltb, String.leb. destruct (String.compare s t); congruence.
Qed.

Lemma string_leb_ltb (s t : string) :
  s <> t -> String.leb s t = true -> String.ltb s t = true.
Proof.
  unfold String.leb, String.ltb. intros Hne.
  destruct (String.compare s t) eqn:E; try congruence.
  apply String.compare_eq_iff in E. contradiction.
Qed.

(** [<] decides [<=] on values. *)
Lemma value_lt_true_le (a b : value) : value_lt a b = Ok true -> value_le a b.
Proof.
  destruct a as [|x|s], b as [|y|t]; simpl; try discriminate; intros E;
    injection E as E.
  - lia.
  - now apply string_ltb_leb.
Qed.

Lemma value_lt_false_le (a b : value) : value_lt a b = Ok false -> value_le b a.
Proof.
  destruct a as [|x|s], b as [|y|t]; simpl; try discriminate; intros E;
    injection E as E.
  - lia.
  - now apply string_ltb_false_leb.
Qed.

Lemma value_le_trans (a b c : value) : value_le a b -> value_le b c -> value_le a c.
Proof.
  destruct a as [|x|s], b as [|y|t], c as [|z|u]; simpl; try contradiction.
  - lia.
  - apply string_leb_trans.
Qed.

Lemma value_le_less (a b : value) : a <> b -> value_le a b -> value_less a b.
Proof.
  destruct a as [|x|s], b as [|y|t]; simpl; try contradiction; intros Hne H.
  - assert (x <> y) by congruence. lia.
  - apply string_leb_ltb; [congruence|assumption].
Qed.

Lemma Forall_True {A : Type} (l : list A) : Forall (fun _ => True) l.
Proof. apply Forall_forall. intros. exact I. Qed.

(** What [get_fixtures_by_league] returns when it returns. *)
Lemma get_fixtures_by_league_groups (fixtures : list fixture)
  (leagues : list (value * league)) :
  get_fixtures_by_league fixtures = Ok leagues ->
  groups_of league_fixtures league_key leagues fixtures
  /\ sorted name_lt (group_by_league fixtures) = Ok leagues.
Proof.
  unfold get_fixtures_by_league. intros H.
  destruct (sorted name_lt (group_by_league fixtures)) as [r|e] eqn:Es;
    simpl in H; try discriminate.
  assert (Hg : groups_of league_fixtures league_key r fixtures).
  { apply groups_of_perm with (d := group_by_league fixtures).
    - apply group_by_league_groups.
    - now apply sorted_perm with (lt := name_lt). }
  rewrite (dict_of_NoDup value_eqb value_eqb_eq) in H by apply Hg.
  inversion H. subst. now split.
Qed.

(** The mapping it returns is in the order of the display names. *)
Lemma get_fixtures_by_league_ordered (fixtures : list fixture)
  (leagues : list (value * league)) :
  get_fixtures_by_league fixtures = Ok leagues ->
  StronglySorted name_le leagues.
Proof.
  intros H. apply get_fixtures_by_league_groups in H. destruct H as [_ Hs].
  apply (sorted_order name_lt (fun _ => True) name_le)
    with (l := group_by_league fixtures).
  - intros x y _ _. apply value_lt_true_le.
  - intros x y _ _. apply value_lt_false_le.
  - intros x y z. apply value_le_trans.
  - apply Forall_True.
  - exact Hs.
Qed.

(** It returns when the display names are text. *)
Lemma get_fixtures_by_league_returns (fixtures : list fixture) :
  Forall (text_or_absent "league_name_tc") fixtures ->
  exists leagues, get_fixtures_by_league fixtures = Ok leagues.
Proof.
  intros H. pose proof (group_by_league_names fixtures H) as Hn.
  destruct (sorted_returns name_lt (group_by_league fixtures)) as [r Hr].
  { apply ForallPairs_ForallOrdPairs. intros a b Ha Hb.
    rewrite Forall_forall in Hn.
    destruct (Hn a Ha) as [s Hs]. destruct (Hn b Hb) as [t Ht].
    unfold name_lt. rewrite Hs, Ht. simpl. eauto. }
  exists r. unfold get_fixtures_by_league. rewrite Hr. simpl.
  rewrite (dict_of_NoDup value_eqb value_eqb_eq); [reflexivity|].
  apply Permutation_NoDup with (l := map fst (group_by_league fixtures)).
  - apply Permutation_map. now apply sorted_perm with (lt := name_lt).
  - apply (group_by_league_groups fixtures).
Qed.

(** ** [get_fixtures_by_date] *)

Lemma group_by_date_groups (fixtures : list fixture) :
  groups_of (fun l : list fixture => l) date_key (group_by_date fixtures) fixtures.
Proof.
  unfold group_by_date.
  apply (fold_groups (fun l : list fixture => l) date_key
           (fun _ => []) (fun f l => l ++ [f]) add_to_date) with (seen := []).
  - reflexivity.
  - reflexivity.
  - reflexivity.
  - apply groups_of_nil.
Qed.

Lemma group_by_date_keys (fixtures : list fixture) :
  Forall (text_or_absent "event_date_formatted") fixtures ->
  Forall (fun kv : value * list fixture => exists s, fst kv = VStr s)
    (group_by_date fixtures).
Proof.
  intros H. unfold group_by_date.
  apply (fold_Forall date_key (fun _ => []) (fun f l => l ++ [f]) add_to_date)
    with (H := text_or_absent "event_date_formatted").
  - reflexivity.
  - intros f Hf. simpl. now apply text_or_absent_get_or.
  - intros k g f Hg. exact Hg.
  - assumption.
  - constructor.
Qed.

(** Two items of different text keys compare by their keys. *)
Lemma item_lt_keys (a b : value * list fixture) (s t : string) :
  fst a = VStr s -> fst b = VStr t -> s <> t ->
  item_lt a b = Ok (String.ltb s t).
Proof.
  intros Ha Hb Hne. unfold item_lt. rewrite Ha, Hb. simpl.
  destruct (String.eqb s t) eqn:E; [|reflexivity].
  apply String.eqb_eq in E. contradiction.
Qed.

Lemma item_lt_returns (l : list (value * list fixture)) :
  NoDup (map fst l) ->
  Forall (fun kv : value * list fixture => exists s, fst kv = VStr s) l ->
  ForallOrdPairs (fun x y => exists b, item_lt y x = Ok b) l.
Proof.
  induction l as [|x l IH]; simpl; intros Hnd Hk; constructor.
  - inversion Hnd as [|? ? Hx Hl]. inversion Hk as [|? ? [s Hs] Hk']. subst.
    rewrite Forall_forall in *. intros y Hy. destruct (Hk' y Hy) as [t Ht].
    exists (String.ltb t s). apply item_lt_keys; try assumption.
    intros ->. apply Hx. rewrite Hs, <- Ht. now apply in_map.
  - inversion Hnd. inversion Hk. subst. now apply IH.
Qed.

Lemma date_le_trans (x y z : value * list fixture) :
  date_le x y -> date_le y z -> date_le x z.
Proof.
  unfold date_le. intros [Hxy|Hxy] [Hyz|Hyz].
  - left. congruence.
  - right. now rewrite Hxy.
  - right. now rewrite <- Hyz.
  - right. now apply (value_le_trans (fst x) (fst y) (fst z)).
Qed.

Lemma item_lt_true_le (a b : value * list fixture) :
  item_lt a b = Ok true -> date_le a b.
Proof.
  unfold item_lt, date_le. destruct (value_eqb (fst a) (fst b)) eqn:E.
  - intros _. left. now apply value_eqb_eq.
  - intros H. right. now apply value_lt_true_le.
Qed.

Lemma item_lt_false_le (a b : value * list fixture) :
  item_lt a b = Ok false -> date_le b a.
Proof.
  unfold item_lt, date_le. destruct (value_eqb (fst a) (fst b)) eqn:E.
  - intros _. left. symmetry. now apply value_eqb_eq.
  - intros H. right. now apply value_lt_false_le.
Qed.

(** In a list without two equal keys, the order is strict. *)
Lemma date_le_strict (l : list (value * list fixture)) :
  NoDup (map fst l) -> StronglySorted date_le l -> StronglySorted date_lt l.
Proof.
  induction l as [|x l IH]; simpl; intros Hnd HS; constructor;
    inversion Hnd as [|? ? Hx Hl]; inversion HS as [|? ? HSl Hxl]; subst.
  - now apply IH.
  - rewrite Forall_forall in *. intros y Hy.
    assert (Hne : fst x <> fst y).
    { intros E. apply Hx. rewrite E. now apply in_map. }
    destruct (Hxl y Hy) as [E|Hle]; [contradiction|].
    now apply value_le_less.
Qed.

(** What [get_fixtures_by_date] returns when it returns. *)
Lemma get_fixtures_by_date_groups (fixtures : list fixture)
  (dates : list (value * list fixture)) :
  get_fixtures_by_date fixtures = Ok dates ->
  groups_of (fun l : list fixture => l) date_key dates fixtures
  /\ sorted item_lt (group_by_date fixtures) = Ok dates.
Proof.
  unfold get_fixtures_by_date. intros H.
  destruct (sorted item_lt (group_by_date fixtures)) as [r|e] eqn:Es;
    simpl in H; try discriminate.
  assert (Hg : groups_of (fun l : list fixture => l) date_key r fixtures).
  { apply groups_of_perm with (d := group_by_date fixtures).
    - apply group_by_date_groups.
    - now apply sorted_perm with (lt := item_lt). }
  rewrite (dict_of_NoDup value_eqb value_eqb_eq) in H by apply Hg.
  inversion H. subst. now split.
Qed.

(** The mapping it returns is in the strict order of its keys. *)
Lemma get_fixtures_by_date_ordered (fixtures : list fixture)
  (dates : list (value * list fixture)) :
  get_fixtures_by_date fixtures = Ok dates ->
  StronglySorted date_lt dates.
Proof.
  intros H. apply get_fixtures_by_date_groups in H. destruct H as [Hg Hs].
  apply date_le_strict; [apply Hg|].
  apply (sorted_order item_lt (fun _ => True) date_le)
    with (l := group_by_date fixtures).
  - intros x y _ _. apply item_lt_true_le.
  - intros x y _ _. apply item_lt_false_le.
  - apply date_le_trans.
  - apply Forall_True.
  - exact Hs.
Qed.

(** It returns when the date keys are text. *)
Lemma get_fixtures_by_date_returns (fixtures : list fixture) :
  Forall (text_or_absent "event_date_formatted") fixtures ->
  exists dates, get_fixtures_by_date fixtures = Ok dates.
Proof.
  intros H. pose proof (group_by_date_keys fixtures H) as Hk.
  pose proof (group_by_date_groups fixtures) as Hg0.
  destruct (sorted_returns item_lt (group_by_date fixtures)) as [r Hr].
  { apply item_lt_returns; [apply Hg0|assumption]. }
  exists r. unfold get_fixtures_by_date. rewrite Hr. simpl.
  rewrite (dict_of_NoDup value_eqb value_eqb_eq); [reflexivity|].
  apply Permutation_NoDup with (l := map fst (group_by_date fixtures)).
  - apply Permutation_map. now apply sorted_perm with (lt := item_lt).
  - apply Hg0.
Qed.

(** ** Fields of a fixture *)

Lemma get_set_same (k : string) (v : value) (f : fixture) :
  get k (set k v f) = Some v.
Proof. apply (dget_dset_same String.eqb String.eqb_eq). Qed.

Lemma get_set_other (k k' : string) (v : value) (f : fixture) :
  k <> k' -> get k (set k' v f) = get k f.
Proof. apply (dget_dset_other String.eqb String.eqb_eq). Qed.

Lemma get_resolve_name_other (k tc en placeholder : string) (f : fixture) :
  k <> tc -> get k (resolve_name tc en placeholder f) = get k f.
Proof.
  intros H. unfold resolve_name.
  destruct (truthy (get_or tc VNone f)); [reflexivity|].
  now apply get_set_other.
Qed.

(** The resolved name: the localized one when it is true as a condition,
    else the English field when the fixture has that column, whatever it
    holds, and the placeholder only when it has no such column. *)
Lemma get_resolve_name (tc en placeholder : string) (f : fixture) :
  get tc (resolve_name tc en placeholder f)
  = if truthy (get_or tc VNone f) then get tc f
    else match get en f with
         | Some v => Some v
         | None => Some (VStr placeholder)
         end.
Proof.
  unfold resolve_name. destruct (truthy (get_or tc VNone f)); [reflexivity|].
  rewrite get_set_same. unfold get_or, dget_or, get.
  now destruct (dget String.eqb en f).
Qed.

Lemma get_degraded_other (k : string) (v : value) (f : fixture) :
  k <> "event_date_formatted" -> k <> "event_time_formatted" ->
  k <> "event_datetime_local" -> get k (degraded v f) = get k f.
Proof.
  intros H1 H2 H3. unfold degraded.
  now rewrite !get_set_other by assumption.
Qed.

Lemma get_format_event_date_other (rt : Runtime) (k : string) (f : fixture) :
  k <> "event_date_formatted" -> k <> "event_time_formatted" ->
  k <> "event_datetime_local" -> get k (format_event_date rt f) = get k f.
Proof.
  intros H1 H2 H3. unfold format_event_date.
  destruct (truthy (get_or "event_date" VNone f)); [|reflexivity].
  destruct (get_or "event_date" VNone f) as [| |s];
    try now apply get_degraded_other.
  destruct (fromisoformat rt (replace_Z s)) as [dt|];
    [|now apply get_degraded_other].
  destruct (astimezone rt dt) as [local|]; [|now apply get_degraded_other].
  now rewrite !get_set_other by assumption.
Qed.

(** Normalisation leaves the columns of the query other than the three
    localized names as they are. *)
Lemma get_normalize_row_other (rt : Runtime) (k : string) (row : fixture) :
  k <> "league_name_tc" -> k <> "home_team_name_tc" ->
  k <> "away_team_name_tc" -> k <> "event_date_formatted" ->
  k <> "event_time_formatted" -> k <> "event_datetime_local" ->
  get k (normalize_row rt row) = get k row.
Proof.
  intros. unfold normalize_row.
  rewrite get_format_event_date_other by assumption.
  now rewrite !get_resolve_name_other by assumption.
Qed.

Lemma get_or_resolved_event_date (row : fixture) :
  get_or "event_date" VNone
    (resolve_name "away_team_name_tc" "away_team_name_en" "未知客隊"
       (resolve_name "home_team_name_tc" "home_team_name_en" "未知主隊"
          (resolve_name "league_name_tc" "league_name_en" "未知聯賽" row)))
  = get_or "event_date" VNone row.
Proof.
  unfold get_or, dget_or. fold (get "event_date" row).
  match goal with |- context [dget String.eqb "event_date" ?f] =>
    change (dget String.eqb "event_date" f) with (get "event_date" f) end.
  now rewrite !get_resolve_name_other by discriminate.
Qed.

(** ** Selection *)

Lemma mem_In (z : Z) (ids : list Z) : mem z ids = true <-> In z ids.
Proof.
  unfold mem. rewrite existsb_exists. split.
  - intros (x & Hx & E). apply Z.eqb_eq in E. now subst.
  - intros H. exists z. split; [assumption|apply Z.eqb_refl].
Qed.

(** A row is selected exactly when its identifier is true as a condition
    and reads as an integer of the allow-list. *)
Lemma selected_iff (rt : Runtime) (ids : list Z) (row : fixture) :
  selected rt ids row = true <->
  truthy (get_or "league_api_id" VNone row) = true
  /\ exists z, py_int rt (get_or "league_api_id" VNone row) = Ok z /\ In z ids.
Proof.
  unfold selected, in_target.
  destruct (truthy (get_or "league_api_id" VNone row)).
  - destruct (py_int rt (get_or "league_api_id" VNone row)) as [z|e]; simpl.
    + rewrite mem_In. split.
      * intros H. split; [reflexivity|]. now exists z.
      * intros (_ & z' & E & Hin). inversion E. now subst.
    + split; [discriminate|]. intros (_ & z & E & _). discriminate.
  - split; [discriminate|]. intros (E & _). discriminate.
Qed.

Lemma in_target_selected (rt : Runtime) (ids : list Z) (row : fixture) :
  absent_or_numeric rt row -> in_target rt ids row = Ok (selected rt ids row).
Proof.
  unfold absent_or_numeric, selected, in_target.
  destruct (truthy (get_or "league_api_id" VNone row)).
  - intros [H|[z H]]; [discriminate|]. now rewrite H.
  - reflexivity.
Qed.

Lemma normalize_filter (rt : Runtime) (ids : list Z) (rows : list fixture) :
  Forall (absent_or_numeric rt) rows ->
  normalize rt ids rows
  = Ok (map (normalize_row rt) (filter (selected rt ids) rows)).
Proof.
  induction rows as [|row rows IH]; simpl; intros H; [reflexivity|].
  inversion H as [|? ? Hrow Hrows]. subst.
  rewrite (in_target_selected rt ids row Hrow). simpl.
  rewrite (IH Hrows). simpl.
  now destruct (selected rt ids row).
Qed.

(** The first row whose identifier [int] does not read ends the call. *)
Lemma normalize_raises (rt : Runtime) (ids : list Z)
  (before after : list fixture) (row : fixture) (s : string) :
  Forall (absent_or_numeric rt) before ->
  get_or "league_api_id" VNone row = VStr s -> s <> "" ->
  int_of_str rt s = None ->
  normalize rt ids (before ++ row :: after) = Raise ValueError.
Proof.
  intros Hb Hid Hs Hint. induction before as [|r before IH]; simpl.
  - unfold in_target. rewrite Hid. simpl.
    destruct (String.eqb s "") eqn:E.
    + apply String.eqb_eq in E. contradiction.
    + simpl. now rewrite Hint.
  - inversion Hb as [|? ? Hr Hb']. subst.
    rewrite (in_target_selected rt ids r Hr). simpl.
    now rewrite (IH Hb').
Qed.

(** * The claims *)

(** ** C1: selection by the allow-list *)

(** C1, as stated, fails: a row whose competition identifier is
    non-numeric text is not dropped, [int] raises [ValueError] on it and
    [get_fixtures] ends with that exception. *)
Lemma get_fixtures_text_id_raises :
  cpython_int "N/A" = None
  /\ get_fixtures (cpython 0) (world_with [text_id_row]) DEFAULT_LEAGUE_IDS 7
     = Raise ValueError
  /\ get_fixtures (cpython 0) (world_with (example_rows ++ [text_id_row]))
       DEFAULT_LEAGUE_IDS 7
     = Raise ValueError.
Proof. repeat split; vm_compute; reflexivity. Qed.

(** C1 (amended).  When the competition identifier of every row is false
    as a condition (null, zero, empty or missing) or is read by [int],
    [get_fixtures] returns the normalised selected rows in order; a row is
    selected if and only if its identifier is true as a condition and its
    integer value is in the allow-list; a row without identifier is not
    selected. *)
Theorem get_fixtures_selects_allow_listed
  (rt : Runtime) (w : World) (ids : list Z) (days_ahead : Z)
  (db_path : string) (rows : list fixture) :
  get_db_path w = Ok db_path ->
  fetchall w db_path days_ahead = Ok rows ->
  Forall (absent_or_numeric rt) rows ->
  get_fixtures rt w ids days_ahead
  = Ok (map (normalize_row rt) (filter (selected rt ids) rows))
  /\ (forall row,
        selected rt ids row = true <->
        truthy (get_or "league_api_id" VNone row) = true
        /\ exists z, py_int rt (get_or "league_api_id" VNone row) = Ok z
                     /\ In z ids)
  /\ (forall row,
        get_or "league_api_id" VNone row = VNone ->
        selected rt ids row = false).
Proof.
  intros Hpath Hrows Hnum. split; [|split].
  - unfold get_fixtures. rewrite Hpath. simpl. rewrite Hrows. simpl.
    now apply normalize_filter.
  - intros row. apply selected_iff.
  - intros row Hid. unfold selected, in_target. now rewrite Hid.
Qed.

Lemma get_fixtures_selects_allow_listed_witness :
  get_fixtures (cpython 0) (world_with example_rows) DEFAULT_LEAGUE_IDS 7
  = Ok (map (normalize_row (cpython 0))
          (filter (selected (cpython 0) DEFAULT_LEAGUE_IDS) example_rows)).
Proof.
  apply (get_fixtures_selects_allow_listed (cpython 0) (world_with example_rows)
           DEFAULT_LEAGUE_IDS 7
           "/srv/football-fixtures/api_football_sync/fixtures.db" example_rows).
  - reflexivity.
  - reflexivity.
  - unfold example_rows.
    repeat (apply Forall_cons; [right; eexists; reflexivity|]).
    apply Forall_nil.
Defined.

(** ** C2: resolved display names *)

(** C2 fails on the code.  For a row of the query the English column is
    always a key of the dict, so [fixture.get(en, placeholder)] returns its
    value, also when that is null or empty, and never the placeholder: the
    resolved home name of a fixture whose home team has no record is
    [None], and an empty English name is kept as the resolved name. *)
Theorem get_fixtures_unnamed_team :
  exists f,
    get_fixtures (cpython 0) (world_with [unnamed_team_row]) DEFAULT_LEAGUE_IDS 7
    = Ok [f]
    /\ get "league_name_tc" f = Some (VStr "Premier League")
    /\ get "home_team_name_tc" f = Some VNone
    /\ get "away_team_name_tc" f = Some (VStr "").
Proof.
  exists (normalize_row (cpython 0) unnamed_team_row).
  repeat split; vm_compute; reflexivity.
Qed.

(** A null resolved name goes on to [get_fixtures_by_league]: the sort
    compares it with the name of another competition, which raises
    [TypeError]. *)
Lemma get_fixtures_by_league_null_name :
  exists fixtures,
    get_fixtures (cpython 0) (world_with unnamed_league_rows) DEFAULT_LEAGUE_IDS 7
    = Ok fixtures
    /\ get_fixtures_by_league fixtures = Raise TypeError.
Proof.
  exists (map (normalize_row (cpython 0)) unnamed_league_rows).
  split; vm_compute; reflexivity.
Qed.

(** ** C4: loading the allow-list *)

(** C4, as stated, fails: only [ImportError] is caught.  A module that is
    malformed ([SyntaxError]), one that fails on a missing file while it is
    loaded, and a mapping that is not a [dict] all end the import of
    [db_reader] with their exception. *)
Lemma TARGET_LEAGUE_IDS_raises :
  TARGET_LEAGUE_IDS (ImportRaised SyntaxError) = Raise SyntaxError
  /\ TARGET_LEAGUE_IDS (ImportRaised FileNotFoundError) = Raise FileNotFoundError
  /\ TARGET_LEAGUE_IDS (Imported PyOther) = Raise AttributeError.
Proof. repeat split. Qed.

Lemma In_DEFAULT_LEAGUE_IDS (z : Z) :
  In z DEFAULT_LEAGUE_IDS <-> 39 <= z <= 500.
Proof.
  unfold DEFAULT_LEAGUE_IDS. rewrite in_map_iff. split.
  - intros (n & <- & Hn). apply in_seq in Hn. lia.
  - intros H. exists (Z.to_nat z). split; [lia|]. apply in_seq. lia.
Qed.

(** C4 (amended).  Loading the allow-list does not raise when the import
    raises [ImportError] (the module or the name is missing): the built-in
    identifiers, 39 to 500, are taken, without names.  A mapping that is
    imported gives its keys.  Any other exception of the import is raised
    again. *)
Theorem TARGET_LEAGUE_IDS_fallback :
  (forall e, is_ImportError e = true ->
     TARGET_LEAGUE_IDS (ImportRaised e) = Ok DEFAULT_LEAGUE_IDS)
  /\ (forall z, In z DEFAULT_LEAGUE_IDS <-> 39 <= z <= 500)
  /\ (forall items, TARGET_LEAGUE_IDS (Imported (PyDict items)) = Ok (map fst items))
  /\ (forall e, is_ImportError e = false ->
        TARGET_LEAGUE_IDS (ImportRaised e) = Raise e).
Proof.
  split; [|split; [|split]].
  - intros e He. simpl. now rewrite He.
  - apply In_DEFAULT_LEAGUE_IDS.
  - reflexivity.
  - intros e He. simpl. now rewrite He.
Qed.

Lemma TARGET_LEAGUE_IDS_fallback_witness :
  TARGET_LEAGUE_IDS (ImportRaised ModuleNotFoundError) = Ok DEFAULT_LEAGUE_IDS.
Proof.
  apply (proj1 TARGET_LEAGUE_IDS_fallback ModuleNotFoundError).
  reflexivity.
Defined.

(** ** C5: the database file *)

(** The loop over the locations ends in one of three ways: at the first
    location that exists, at the first location where [exists()] raises, or
    after the last location. *)
Lemma first_existing_cases (exists_at : string -> result bool)
  (paths : list string) :
  (exists before path after,
     paths = before ++ path :: after
     /\ Forall (fun p => exists_at p = Ok false) before
     /\ ((exists_at path = Ok true
          /\ first_existing exists_at paths = Ok path)
         \/ exists e, exists_at path = Raise e
                      /\ first_existing exists_at paths = Raise e))
  \/ (Forall (fun p => exists_at p = Ok false) paths
      /\ first_existing exists_at paths = Raise FileNotFoundError).
Proof.
  induction paths as [|p paths IH]; simpl.
  - right. split; [constructor|reflexivity].
  - destruct (exists_at p) as [[|]|e] eqn:E; simpl.
    + left. exists [], p, paths. repeat split; [constructor|]. now left.
    + destruct IH as [(before & path & after & -> & Hb & H)|[Hall H]].
      * left. exists (p :: before), path, after.
        repeat split; [now constructor|exact H].
      * right. split; [now constructor|exact H].
    + left. exists [], p, paths. repeat split; [constructor|].
      right. now exists e.
Qed.

(** C5.  When none of the locations of the database file exists,
    [get_fixtures] raises [FileNotFoundError] and returns no list of
    fixtures. *)
Theorem get_fixtures_database_missing
  (rt : Runtime) (w : World) (ids : list Z) (days_ahead : Z) :
  (forall p, In p (possible_paths w) -> path_exists w p = Ok false) ->
  get_db_path w = Raise FileNotFoundError
  /\ get_fixtures rt w ids days_ahead = Raise FileNotFoundError
  /\ forall fixtures, get_fixtures rt w ids days_ahead <> Ok fixtures.
Proof.
  intros H.
  assert (Hp : get_db_path w = Raise FileNotFoundError).
  { unfold get_db_path.
    destruct (first_existing_cases (path_exists w) (possible_paths w))
      as [(before & path & after & Hl & _ & Hcase)|[_ Hnone]];
      [|exact Hnone].
    assert (Hin : In path (possible_paths w)).
    { rewrite Hl. apply in_or_app. right. now left. }
    specialize (H path Hin).
    destruct Hcase as [[Hex _]|(e & Hex & _)]; congruence. }
  assert (Hg : get_fixtures rt w ids days_ahead = Raise FileNotFoundError).
  { unfold get_fixtures. now rewrite Hp. }
  repeat split; try assumption.
  intros fixtures. rewrite Hg. discriminate.
Qed.

Lemma get_fixtures_database_missing_witness :
  get_fixtures (cpython 0) world_without_db DEFAULT_LEAGUE_IDS 7
  = Raise FileNotFoundError.
Proof.
  apply (get_fixtures_database_missing (cpython 0) world_without_db
           DEFAULT_LEAGUE_IDS 7).
  intros p _. reflexivity.
Defined.

(** ** C3: the formatted date and time *)

(** A value with offset zero is its own UTC value. *)
Lemma to_utc_zero_offset (dt : datetime) :
  tzinfo dt = Some 0 -> valid_datetime dt -> to_utc dt = Some dt.
Proof.
  destruct dt as [y mo d h mi s us tz]. unfold valid_datetime, to_utc.
  cbn [year month day hour minute second microsecond tzinfo].
  intros -> (Hy & Hh & Hm & Hs). unfold add_seconds.
  cbn [year month day hour minute second microsecond tzinfo].
  replace (3600 * h + 60 * mi + s + - 0) with (3600 * h + 60 * mi + s) by lia.
  assert (Ht : 0 <= 3600 * h + 60 * mi + s < 86400) by lia.
  replace (3600 * h + 60 * mi + s <? 0) with false by (symmetry; lia).
  replace (86400 <=? 3600 * h + 60 * mi + s) with false by (symmetry; lia).
  replace ((1 <=? y) && (y <=? 9999)) with true
    by (symmetry; apply andb_true_intro; split; lia).
  rewrite Z.mod_small by lia. unfold with_tzinfo, option_map.
  cbn [year month day hour minute second microsecond tzinfo].
  f_equal. f_equal.
  - symmetry. apply Z.div_unique with (r := 60 * mi + s); lia.
  - replace ((3600 * h + 60 * mi + s) / 60) with (60 * h + mi)
      by (apply Z.div_unique with (r := s); lia).
    symmetry. apply Z.mod_unique with (q := h); lia.
  - symmetry. apply Z.mod_unique with (q := 60 * h + mi); lia.
Qed.

Lemma get_degraded (v : value) (f : fixture) :
  get "event_date_formatted" (degraded v f) = Some v
  /\ get "event_time_formatted" (degraded v f) = Some (VStr "00:00")
  /\ get "event_datetime_local" (degraded v f) = Some v.
Proof.
  unfold degraded. repeat split.
  - rewrite !get_set_other by discriminate. apply get_set_same.
  - rewrite get_set_other by discriminate. apply get_set_same.
  - apply get_set_same.
Qed.

(** The row is retained: its fixture is in the result, between the
    fixtures of the rows before it and those of the rows after it. *)
Lemma normalize_retained (rt : Runtime) (ids : list Z) (row : fixture)
  (before after fixtures_before fixtures_after : list fixture) :
  in_target rt ids row = Ok true ->
  normalize rt ids before = Ok fixtures_before ->
  normalize rt ids after = Ok fixtures_after ->
  normalize rt ids (before ++ row :: after)
  = Ok (fixtures_before ++ normalize_row rt row :: fixtures_after).
Proof.
  intros Hrow Hb Ha. revert fixtures_before Hb.
  induction before as [|r before IH]; simpl; intros fb Hb.
  - injection Hb as <-. rewrite Hrow. simpl. now rewrite Ha.
  - destruct (in_target rt ids r) as [keep|e]; simpl in *; try discriminate.
    destruct (normalize rt ids before) as [fb'|e]; simpl in *; try discriminate.
    rewrite (IH fb' eq_refl). simpl. injection Hb as <-.
    now destruct keep.
Qed.

(** From the year 1000 on the year has its four digits. *)
Lemma strftime_year_pad4 (y : Z) : 1000 <= y -> strftime_year y = pad4 y.
Proof.
  intros H. unfold strftime_year.
  replace (y <? 10) with false by (symmetry; lia).
  replace (y <? 100) with false by (symmetry; lia).
  replace (y <? 1000) with false by (symmetry; lia).
  reflexivity.
Qed.

(** The year 999 is written with three digits: the formatted date of the
    timestamp [0999-06-15T12:00:00Z] is [999-06-15]. *)
Lemma get_fixtures_early_year :
  exists f,
    get_fixtures (cpython 0) (world_with [early_year_row]) DEFAULT_LEAGUE_IDS 7
    = Ok [f]
    /\ get "event_date_formatted" f = Some (VStr "999-06-15")
    /\ get "event_time_formatted" f = Some (VStr "12:00")
    /\ get "event_datetime_local" f = Some (VStr "999-06-15 12:00").
Proof.
  exists (normalize_row (cpython 0) early_year_row).
  repeat split; vm_compute; reflexivity.
Qed.

(** C3, as stated, fails: the date and the time are formatted in the
    offset the timestamp is written in, not in UTC.  At 02:30 +05:00 on
    the first of March the fixture carries that date and that time, while
    the UTC date and time are the 29th of February, 21:30. *)
Lemma get_fixtures_offset_not_utc :
  exists f dt utc,
    get_fixtures (cpython 0) (world_with [offset_row]) DEFAULT_LEAGUE_IDS 7
    = Ok [f]
    /\ cpython_fromisoformat (replace_Z "2024-03-01T02:30:00+05:00") = Some dt
    /\ to_utc dt = Some utc
    /\ get "event_date_formatted" f = Some (VStr "2024-03-01")
    /\ get "event_time_formatted" f = Some (VStr "02:30")
    /\ strftime_date utc = "2024-02-29"%string
    /\ strftime_time utc = "21:30"%string.
Proof.
  exists (normalize_row (cpython 0) offset_row),
         (mkdt 2024 3 1 2 30 0 0 (Some 18000)),
         (mkdt 2024 2 29 21 30 0 0 (Some 0)).
  repeat split; vm_compute; reflexivity.
Qed.

(** C3 (amended).  The fixture of a row of an allow-listed competition
    whose timestamp is a non-empty string is in the result, at the place of
    the row.  When the string fails ISO-8601 parsing, the formatted date
    and the local date-time are the raw string and the formatted time is
    ["00:00"]; the same holds when the conversion to local time fails.
    When parsing and conversion succeed, the formatted date and time are
    the date and the time [HH:MM] of the timestamp in the offset it is
    written in, as [strftime] writes them; they are the UTC date and time
    when that offset is zero.  The date is [YYYY-MM-DD] from the year 1000
    on; the year of an earlier date is written without padding. *)
Theorem normalize_event_date
  (rt : Runtime) (ids : list Z) (row : fixture) (s : string) :
  in_target rt ids row = Ok true ->
  get_or "event_date" VNone row = VStr s ->
  s <> ""%string ->
  let f := normalize_row rt row in
  (forall before after fixtures_before fixtures_after,
     normalize rt ids before = Ok fixtures_before ->
     normalize rt ids after = Ok fixtures_after ->
     normalize rt ids (before ++ row :: after)
     = Ok (fixtures_before ++ f :: fixtures_after))
  /\ ((fromisoformat rt (replace_Z s) = None
       \/ exists dt, fromisoformat rt (replace_Z s) = Some dt
                     /\ astimezone rt dt = None) ->
      get "event_date_formatted" f = Some (VStr s)
      /\ get "event_time_formatted" f = Some (VStr "00:00")
      /\ get "event_datetime_local" f = Some (VStr s))
  /\ (forall dt local,
        fromisoformat rt (replace_Z s) = Some dt ->
        astimezone rt dt = Some local ->
        get "event_date_formatted" f = Some (VStr (strftime_date dt))
        /\ get "event_time_formatted" f = Some (VStr (strftime_time dt))
        /\ get "event_datetime_local" f = Some (VStr (strftime_datetime local))
        /\ (tzinfo dt = Some 0 -> valid_datetime dt -> to_utc dt = Some dt))
  /\ (forall dt,
        1000 <= year dt ->
        strftime_date dt
        = (pad4 (year dt) ++ "-" ++ pad2 (month dt) ++ "-" ++ pad2 (day dt))
            %string).
Proof.
  intros Hin Hdate Hs f.
  split; [intros before after fb fa; now apply normalize_retained|].
  assert (Htrue : truthy (VStr s) = true).
  { simpl. destruct (String.eqb s "") eqn:E; [|reflexivity].
    apply String.eqb_eq in E. contradiction. }
  subst f. unfold normalize_row, format_event_date.
  rewrite get_or_resolved_event_date, Hdate, Htrue.
  split; [|split].
  - intros [Hnone|(dt & Hdt & Hloc)].
    + rewrite Hnone. apply get_degraded.
    + rewrite Hdt, Hloc. apply get_degraded.
  - intros dt local Hdt Hloc. rewrite Hdt, Hloc. repeat split.
    + rewrite !get_set_other by discriminate. apply get_set_same.
    + rewrite get_set_other by discriminate. apply get_set_same.
    + apply get_set_same.
    + apply to_utc_zero_offset.
  - intros dt Hy. unfold strftime_date. now rewrite strftime_year_pad4.
Qed.

Lemma normalize_event_date_witness :
  normalize (cpython 0) DEFAULT_LEAGUE_IDS example_rows
  = Ok ([normalize_row (cpython 0) (nth 0 example_rows [])]
        ++ normalize_row (cpython 0) (nth 2 example_rows []) :: []).
Proof.
  apply (proj1 (normalize_event_date (cpython 0) DEFAULT_LEAGUE_IDS
                  (nth 2 example_rows []) "bad" eq_refl eq_refl
                  ltac:(discriminate))
           [nth 0 example_rows []; nth 1 example_rows []] []).
  - reflexivity.
  - reflexivity.
Defined.

(** ** C6: the order of the groups *)

(** C6.  Whenever [get_fixtures_by_league] returns, its mapping is in
    ascending order of the display names, and whenever
    [get_fixtures_by_date] returns, its mapping is in strictly ascending
    order of its date keys, in the order of Python on strings.  On
    fixtures, in any order, whose display name and formatted date are text
    where they have them (they may lack either: the placeholder is then
    taken), neither function raises. *)
Theorem groupings_sorted :
  (forall fixtures leagues,
     get_fixtures_by_league fixtures = Ok leagues ->
     StronglySorted name_le leagues)
  /\ (forall fixtures dates,
        get_fixtures_by_date fixtures = Ok dates ->
        StronglySorted date_lt dates)
  /\ (forall fixtures,
        Forall text_keyed fixtures ->
        exists leagues dates,
          get_fixtures_by_league fixtures = Ok leagues
          /\ get_fixtures_by_date fixtures = Ok dates
          /\ StronglySorted name_le leagues
          /\ StronglySorted date_lt dates).
Proof.
  split; [|split].
  - apply get_fixtures_by_league_ordered.
  - apply get_fixtures_by_date_ordered.
  - intros fixtures H.
    destruct (get_fixtures_by_league_returns fixtures) as [leagues Hl].
    { eapply Forall_impl; [|exact H]. intros f Hf. apply Hf. }
    destruct (get_fixtures_by_date_returns fixtures) as [dates Hd].
    { eapply Forall_impl; [|exact H]. intros f Hf. apply Hf. }
    exists leagues, dates. repeat split; try assumption.
    + now apply (get_fixtures_by_league_ordered fixtures).
    + now apply (get_fixtures_by_date_ordered fixtures).
Qed.

Lemma groupings_sorted_witness :
  exists leagues dates,
    get_fixtures_by_league shuffled_fixtures = Ok leagues
    /\ get_fixtures_by_date shuffled_fixtures = Ok dates
    /\ StronglySorted name_le leagues
    /\ StronglySorted date_lt dates.
Proof.
  apply (proj2 (proj2 groupings_sorted) shuffled_fixtures).
  unfold shuffled_fixtures.
  repeat (apply Forall_cons; [split; exact I|]). apply Forall_nil.
Defined.

(** ** C7: the groups partition the fixtures *)

(** C7.  Both groupings of the empty list are empty.  Whenever a grouping
    returns, its groups have different keys, hold every fixture of the
    input once, each in the group of its own key, and their sizes add up to
    the number of fixtures; and on fixtures whose display name and
    formatted date are text where they have them both groupings return. *)
Theorem groupings_partition :
  get_fixtures_by_league [] = Ok []
  /\ get_fixtures_by_date [] = Ok []
  /\ (forall fixtures leagues,
        get_fixtures_by_league fixtures = Ok leagues ->
        groups_of league_fixtures league_key leagues fixtures
        /\ list_sum (map (fun kv => List.length (league_fixtures (snd kv))) leagues)
           = List.length fixtures)
  /\ (forall fixtures dates,
        get_fixtures_by_date fixtures = Ok dates ->
        groups_of (fun l : list fixture => l) date_key dates fixtures
        /\ list_sum (map (fun kv => List.length (snd kv)) dates)
           = List.length fixtures)
  /\ (forall fixtures,
        Forall text_keyed fixtures ->
        exists leagues dates,
          get_fixtures_by_league fixtures = Ok leagues
          /\ get_fixtures_by_date fixtures = Ok dates).
Proof.
  split; [reflexivity|]. split; [reflexivity|]. split; [|split].
  - intros fixtures leagues H.
    apply get_fixtures_by_league_groups in H. destruct H as [Hg _].
    split; [assumption|]. now apply (groups_of_length league_fixtures league_key).
  - intros fixtures dates H.
    apply get_fixtures_by_date_groups in H. destruct H as [Hg _].
    split; [assumption|].
    now apply (groups_of_length (fun l : list fixture => l) date_key).
  - intros fixtures H.
    destruct (get_fixtures_by_league_returns fixtures) as [leagues Hl].
    { eapply Forall_impl; [|exact H]. intros f Hf. apply Hf. }
    destruct (get_fixtures_by_date_returns fixtures) as [dates Hd].
    { eapply Forall_impl; [|exact H]. intros f Hf. apply Hf. }
    now exists leagues, dates.
Qed.

Lemma groupings_partition_witness :
  exists leagues dates,
    get_fixtures_by_league shuffled_fixtures = Ok leagues
    /\ get_fixtures_by_date shuffled_fixtures = Ok dates
    /\ list_sum (map (fun kv => List.length (league_fixtures (snd kv))) leagues)
       = List.length shuffled_fixtures
    /\ list_sum (map (fun kv => List.length (snd kv)) dates)
       = List.length shuffled_fixtures.
Proof.
  destruct groupings_partition as (_ & _ & Hleague & Hdate & Hreturn).
  destruct (Hreturn shuffled_fixtures) as (leagues & dates & Hl & Hd).
  - unfold shuffled_fixtures.
    repeat (apply Forall_cons; [split; exact I|]). apply Forall_nil.
  - exists leagues, dates. repeat split; try assumption.
    + now apply (Hleague shuffled_fixtures leagues).
    + now apply (Hdate shuffled_fixtures dates).
Defined.

(** ** C10: a fixture without timestamp *)

(** C10.  The fixture of a row of an allow-listed competition whose
    [event_date] is null or the empty string is in the result, at the place
    of the row, without any of the three derived fields (a row of the query
    has none of them), and [get_fixtures_by_date] files the fixture under
    the placeholder date. *)
Theorem normalize_without_event_date
  (rt : Runtime) (ids : list Z) (row : fixture) :
  in_target rt ids row = Ok true ->
  (get_or "event_date" VNone row = VNone
   \/ get_or "event_date" VNone row = VStr "") ->
  get "event_date_formatted" row = None ->
  get "event_time_formatted" row = None ->
  get "event_datetime_local" row = None ->
  let f := normalize_row rt row in
  (forall before after fixtures_before fixtures_after,
     normalize rt ids before = Ok fixtures_before ->
     normalize rt ids after = Ok fixtures_after ->
     normalize rt ids (before ++ row :: after)
     = Ok (fixtures_before ++ f :: fixtures_after))
  /\ get "event_date_formatted" f = None
  /\ get "event_time_formatted" f = None
  /\ get "event_datetime_local" f = None
  /\ (forall fixtures,
        In f fixtures ->
        Forall (text_or_absent "event_date_formatted") fixtures ->
        exists dates g,
          get_fixtures_by_date fixtures = Ok dates
          /\ In (VStr "未知日期", g) dates /\ In f g).
Proof.
  intros Hin Hdate H1 H2 H3 f.
  split; [intros before after fb fa; now apply normalize_retained|].
  assert (Hf : forall k, k <> "league_name_tc"%string ->
                 k <> "home_team_name_tc"%string ->
                 k <> "away_team_name_tc"%string -> get k f = get k row).
  { intros k Ha Hb Hc. subst f. unfold normalize_row, format_event_date.
    rewrite get_or_resolved_event_date.
    replace (truthy (get_or "event_date" VNone row)) with false
      by (destruct Hdate as [-> | ->]; reflexivity).
    now rewrite !get_resolve_name_other by assumption. }
  assert (E1 : get "event_date_formatted" f = None)
    by (rewrite Hf by discriminate; assumption).
  split; [assumption|].
  split; [rewrite Hf by discriminate; assumption|].
  split; [rewrite Hf by discriminate; assumption|].
  intros fixtures Hinf Htext.
  destruct (get_fixtures_by_date_returns fixtures Htext) as [dates Hd].
  destruct (get_fixtures_by_date_groups fixtures dates Hd) as [Hg _].
  destruct (groups_of_In (fun l : list fixture => l) date_key dates fixtures f
              Hg Hinf) as (g & Hkg & Hfg).
  exists dates, g. repeat split; try assumption.
  replace (VStr "未知日期") with (date_key f); [assumption|].
  unfold date_key, get_or, dget_or. fold (get "event_date_formatted" f).
  now rewrite E1.
Qed.

Lemma normalize_without_event_date_witness :
  normalize (cpython 0) DEFAULT_LEAGUE_IDS ([] ++ undated_row :: [])
  = Ok ([] ++ normalize_row (cpython 0) undated_row :: [])
  /\ get "event_date_formatted" (normalize_row (cpython 0) undated_row) = None.
Proof.
  destruct (normalize_without_event_date (cpython 0) DEFAULT_LEAGUE_IDS
              undated_row) as (Hn & He & _).
  - reflexivity.
  - left. reflexivity.
  - reflexivity.
  - reflexivity.
  - reflexivity.
  - split; [|assumption]. apply (Hn [] [] [] []); reflexivity.
Defined.

(** ** C8: the JSON-safe copy *)

Section SerializationFacts.
Variable json_loads : string -> option json.

Lemma serializable_map (f : fixture) :
  is_dict f ->
  serializable json_loads f
  = map (fun kv => (fst kv, serializable_value json_loads (fst kv) (snd kv))) f.
Proof.
  unfold serializable, is_dict.
  enough (H : forall acc : list (string * jvalue),
            NoDup (map fst acc ++ map fst f) ->
            fold_left
              (fun d kv =>
                 dset String.eqb (fst kv)
                   (serializable_value json_loads (fst kv) (snd kv)) d) f acc
            = acc ++ map (fun kv =>
                            (fst kv,
                             serializable_value json_loads (fst kv) (snd kv))) f)
    by (intros Hnd; apply (H [] Hnd)).
  induction f as [|[k v] f IH]; intros acc Hnd; simpl.
  - now rewrite app_nil_r.
  - simpl in Hnd. rewrite (dset_fresh String.eqb String.eqb_eq).
    + rewrite IH.
      * now rewrite <- app_assoc.
      * rewrite map_app. simpl. rewrite <- app_assoc. exact Hnd.
    + apply NoDup_remove_2 in Hnd. intros Hin. apply Hnd.
      apply in_or_app. now left.
Qed.

Lemma serializable_value_other (key : string) (v : value) :
  key <> "raw_data"%string -> serializable_value json_loads key v = Plain v.
Proof.
  intros H. unfold serializable_value.
  destruct (String.eqb key "raw_data") eqn:E; [|reflexivity].
  apply String.eqb_eq in E. contradiction.
Qed.

Lemma serializable_value_raw_data (s : string) :
  s <> ""%string ->
  serializable_value json_loads "raw_data" (VStr s)
  = match json_loads s with
    | Some j => Decoded j
    | None => Plain (VStr s)
    end.
Proof.
  intros H. unfold serializable_value. simpl.
  destruct (String.eqb s "") eqn:E; [|reflexivity].
  apply String.eqb_eq in E. contradiction.
Qed.
End SerializationFacts.

Lemma get_In (k : string) (v : value) (f : fixture) :
  get k f = Some v -> In (k, v) f.
Proof.
  intros H. unfold get in H.
  destruct (dget_split String.eqb String.eqb_eq k v f H) as (d1 & d2 & -> & _).
  apply in_or_app. right. now left.
Qed.

(** C8, as stated, fails: a payload can make the call raise.  The payload
    that is the JSON string of the escape [\ud800] decodes, to a string
    that holds a lone surrogate; the document is built, and writing it to
    the UTF-8 file raises [UnicodeEncodeError].  The same call on a row
    with the payload [{}] returns. *)
Lemma save_fixtures_to_json_surrogate_raises :
  get "raw_data" surrogate_row = Some (VStr surrogate_payload)
  /\ loads_examples surrogate_payload = Some (JString lone_surrogate)
  /\ utf8_encodable lone_surrogate = false
  /\ save_fixtures_to_json loads_examples
       (json_dump_file (fun _ => Ok tt) (fun _ => None))
       [surrogate_row] "fixtures.json"
     = Raise UnicodeEncodeError
  /\ save_fixtures_to_json loads_examples
       (json_dump_file (fun _ => Ok tt) (fun _ => None))
       [unnamed_team_row] "fixtures.json"
     = Ok tt.
Proof.
  repeat split; vm_compute; reflexivity.
Qed.

(** C8 (amended).  The document handed to the writer has one dict per
    fixture, in order, with the keys of the fixture in order: no fixture is
    dropped.  Every field other than [raw_data] is copied as it is; a
    [raw_data] that is a non-empty string that [json.loads] decodes is
    replaced by the decoded value, one that [json.loads] does not decode is
    kept as the string, and one that is empty, null or not a string is
    copied as it is.  Building the document raises nothing, so
    [save_fixtures_to_json] raises what the writer raises.  It raises what
    [open] raises.  When the file opens and a decoded payload holds a
    string that UTF-8 does not encode, it does not return: it raises
    [UnicodeEncodeError], unless the writing ended with another exception
    before.  It returns when the file opens, nothing interrupts the
    writing and every string of the document is encodable. *)
Theorem save_fixtures_to_json_copies
  (json_loads : string -> option json) (fixtures : list fixture) :
  Forall is_dict fixtures ->
  serializable_fixtures json_loads fixtures
  = map (map (fun kv =>
                (fst kv, serializable_value json_loads (fst kv) (snd kv))))
      fixtures
  /\ List.length (serializable_fixtures json_loads fixtures)
     = List.length fixtures
  /\ (forall key v,
        key <> "raw_data"%string ->
        serializable_value json_loads key v = Plain v)
  /\ (forall s j,
        s <> ""%string -> json_loads s = Some j ->
        serializable_value json_loads "raw_data" (VStr s) = Decoded j)
  /\ (forall s,
        json_loads s = None ->
        serializable_value json_loads "raw_data" (VStr s) = Plain (VStr s))
  /\ (forall v,
        (forall s, v <> VStr s) \/ v = VStr "" ->
        serializable_value json_loads "raw_data" v = Plain v)
  /\ (forall dump output_path,
        save_fixtures_to_json json_loads dump fixtures output_path
        = dump output_path (serializable_fixtures json_loads fixtures))
  /\ (forall open_file interrupted output_path e,
        open_file output_path = Raise e ->
        save_fixtures_to_json json_loads
          (json_dump_file open_file interrupted) fixtures output_path
        = Raise e)
  /\ (forall open_file interrupted output_path f s j,
        open_file output_path = Ok tt ->
        In f fixtures ->
        get "raw_data" f = Some (VStr s) ->
        s <> ""%string ->
        json_loads s = Some j ->
        json_encodable j = false ->
        (exists e,
           save_fixtures_to_json json_loads
             (json_dump_file open_file interrupted) fixtures output_path
           = Raise e)
        /\ (interrupted (serializable_fixtures json_loads fixtures) = None ->
            save_fixtures_to_json json_loads
              (json_dump_file open_file interrupted) fixtures output_path
            = Raise UnicodeEncodeError))
  /\ (forall open_file interrupted output_path,
        open_file output_path = Ok tt ->
        interrupted (serializable_fixtures json_loads fixtures) = None ->
        document_encodable (serializable_fixtures json_loads fixtures) = true ->
        save_fixtures_to_json json_loads
          (json_dump_file open_file interrupted) fixtures output_path
        = Ok tt).
Proof.
  intros H.
  assert (Hdoc : serializable_fixtures json_loads fixtures
                 = map (map (fun kv =>
                               (fst kv,
                                serializable_value json_loads (fst kv) (snd kv))))
                     fixtures).
  { unfold serializable_fixtures. apply map_ext_in. intros f Hf.
    apply serializable_map. rewrite Forall_forall in H. now apply H. }
  split; [exact Hdoc|].
  split; [unfold serializable_fixtures; apply length_map|].
  split; [apply serializable_value_other|].
  split.
  { intros s j Hs Hj. rewrite serializable_value_raw_data by assumption.
    now rewrite Hj. }
  split.
  { intros s Hs. unfold serializable_value. simpl.
    destruct (String.eqb s ""); simpl; [reflexivity|]. now rewrite Hs. }
  split.
  { intros v [Hv| ->]; [|reflexivity].
    unfold serializable_value. destruct v as [|z|s].
    - reflexivity.
    - now destruct (String.eqb "raw_data" "raw_data" && truthy (VInt z)).
    - now destruct (Hv s). }
  split; [reflexivity|].
  split.
  { intros open_file interrupted output_path e He.
    unfold save_fixtures_to_json, json_dump_file. now rewrite He. }
  split.
  - intros open_file interrupted output_path f s j Hopen Hin Hget Hs Hj Hbad.
    assert (E : document_encodable (serializable_fixtures json_loads fixtures)
                = false).
    { destruct (document_encodable (serializable_fixtures json_loads fixtures))
        eqn:E; [|reflexivity].
      exfalso. rewrite Hdoc in E. unfold document_encodable in E.
      rewrite forallb_forall in E.
      specialize (E _ (in_map _ _ _ Hin)).
      rewrite forallb_forall in E.
      specialize (E _ (in_map _ _ _ (get_In _ _ _ Hget))).
      cbn [fst snd] in E.
      rewrite serializable_value_raw_data in E by assumption.
      rewrite Hj in E. cbn [jvalue_encodable] in E.
      apply andb_true_iff in E. destruct E as [_ E]. congruence. }
    unfold save_fixtures_to_json, json_dump_file. rewrite Hopen, E. simpl.
    split.
    + destruct (interrupted (serializable_fixtures json_loads fixtures)); eauto.
    + now intros ->.
  - intros open_file interrupted output_path Hopen Hnone Henc.
    unfold save_fixtures_to_json, json_dump_file.
    rewrite Hopen, Hnone. simpl. now rewrite Henc.
Qed.

Lemma save_fixtures_to_json_copies_witness :
  serializable_fixtures loads_examples [surrogate_row; text_id_row]
  = map (map (fun kv =>
                (fst kv, serializable_value loads_examples (fst kv) (snd kv))))
      [surrogate_row; text_id_row]
  /\ save_fixtures_to_json loads_examples
       (json_dump_file (fun _ => Ok tt) (fun _ => None))
       [surrogate_row; text_id_row] "fixtures.json"
     = Raise UnicodeEncodeError.
Proof.
  assert (Hd : Forall is_dict [surrogate_row; text_id_row]).
  { repeat (apply Forall_cons;
            [unfold is_dict;
             match goal with
             | |- NoDup ?l => let l' := eval vm_compute in l in change (NoDup l')
             end;
             repeat (apply NoDup_cons;
                     [simpl; intros Hin;
                      repeat (destruct Hin as [Hin|Hin]; [discriminate Hin|]);
                      exact Hin|]);
             apply NoDup_nil|]).
    apply Forall_nil. }
  pose proof (save_fixtures_to_json_copies loads_examples
                [surrogate_row; text_id_row] Hd)
    as (Hdoc & _ & _ & _ & _ & _ & _ & _ & Hraise & _).
  split; [exact Hdoc|].
  apply (Hraise (fun _ => Ok tt) (fun _ => None) "fixtures.json"%string
           surrogate_row surrogate_payload (JString lone_surrogate));
    try reflexivity.
  - now left.
  - discriminate.
Defined.

(** ** C9: what normalisation depends on *)

(** C9, as stated, fails: the local time zone of the process is an input
    of normalisation.  The same rows with the same allow-list give another
    [event_datetime_local] in a process at UTC+8 than in one at UTC. *)
Lemma get_fixtures_depends_on_zone :
  exists f0 rest0 f8 rest8,
    get_fixtures (cpython 0) (world_with example_rows) DEFAULT_LEAGUE_IDS 7
    = Ok (f0 :: rest0)
    /\ get_fixtures (cpython 28800) (world_with example_rows) DEFAULT_LEAGUE_IDS 7
       = Ok (f8 :: rest8)
    /\ get "event_datetime_local" f0 = Some (VStr "2024-03-01 15:00")
    /\ get "event_datetime_local" f8 = Some (VStr "2024-03-01 23:00")
    /\ get_fixtures (cpython 0) (world_with example_rows) DEFAULT_LEAGUE_IDS 7
       <> get_fixtures (cpython 28800) (world_with example_rows)
            DEFAULT_LEAGUE_IDS 7.
Proof.
  exists (normalize_row (cpython 0) (nth 0 example_rows [])),
         [normalize_row (cpython 0) (nth 2 example_rows [])],
         (normalize_row (cpython 28800) (nth 0 example_rows [])),
         [normalize_row (cpython 28800) (nth 2 example_rows [])].
  repeat split; try (vm_compute; reflexivity).
  intros H. vm_compute in H. discriminate H.
Qed.

Lemma in_target_with_zone (rt : Runtime) (zone : datetime -> option datetime)
  (ids : list Z) (row : fixture) :
  in_target (with_zone rt zone) ids row = in_target rt ids row.
Proof.
  unfold in_target, py_int. simpl.
  destruct (get_or "league_api_id" VNone row); reflexivity.
Qed.

(** C9 (amended).  Normalisation is a function of the rows, the allow-list
    and the conversion to the local time zone of the process.  Two runs on
    the same rows and allow-list whose local conversions agree on the
    timestamps of the rows give the same result.  Whatever the two local
    zones are, the same rows are selected, and every field of a fixture
    other than the three derived date fields is the same. *)
Theorem normalize_depends_on_zone_only
  (rt : Runtime) (zone1 zone2 : datetime -> option datetime)
  (ids : list Z) (rows : list fixture) :
  ((forall row s dt,
      In row rows -> get_or "event_date" VNone row = VStr s ->
      fromisoformat rt (replace_Z s) = Some dt -> zone1 dt = zone2 dt) ->
   normalize (with_zone rt zone1) ids rows
   = normalize (with_zone rt zone2) ids rows)
  /\ (forall row,
        in_target (with_zone rt zone1) ids row
        = in_target (with_zone rt zone2) ids row)
  /\ (forall row k,
        k <> "event_date_formatted"%string ->
        k <> "event_time_formatted"%string ->
        k <> "event_datetime_local"%string ->
        get k (normalize_row (with_zone rt zone1) row)
        = get k (normalize_row (with_zone rt zone2) row)).
Proof.
  split; [|split].
  - induction rows as [|row rows IH]; intros H; simpl; [reflexivity|].
    rewrite !in_target_with_zone. rewrite IH.
    + replace (normalize_row (with_zone rt zone1) row)
        with (normalize_row (with_zone rt zone2) row); [reflexivity|].
      unfold normalize_row, format_event_date.
      rewrite get_or_resolved_event_date.
      cbn [fromisoformat astimezone with_zone].
      destruct (get_or "event_date" VNone row) as [| |s] eqn:Ed;
        try reflexivity.
      destruct (truthy (VStr s)); [|reflexivity].
      destruct (fromisoformat rt (replace_Z s)) as [dt|] eqn:Edt;
        [|reflexivity].
      rewrite (H row s dt (or_introl eq_refl) Ed Edt). reflexivity.
    + intros r s dt Hin. apply H. now right.
  - intros row. now rewrite !in_target_with_zone.
  - intros row k H1 H2 H3. unfold normalize_row.
    now rewrite !get_format_event_date_other by assumption.
Qed.

Lemma normalize_depends_on_zone_only_witness :
  normalize (with_zone (cpython 0) (cpython_astimezone 0))
    DEFAULT_LEAGUE_IDS example_rows
  = normalize
      (with_zone (cpython 0)
         (fun dt => if year dt =? 2024 then cpython_astimezone 0 dt else None))
      DEFAULT_LEAGUE_IDS example_rows.
Proof.
  apply (normalize_depends_on_zone_only (cpython 0) (cpython_astimezone 0)
           (fun dt => if year dt =? 2024 then cpython_astimezone 0 dt else None)
           DEFAULT_LEAGUE_IDS example_rows).
  intros row s dt Hin Hdate Hdt.
  simpl in Hin. destruct Hin as [<-|[<-|[<-|[]]]];
    vm_compute in Hdate; injection Hdate as <-;
    vm_compute in Hdt; try discriminate Hdt;
    injection Hdt as <-; reflexivity.
Defined.

(** * Further properties of [db_reader.py] *)

(** ** [get_db_path]: the first location that exists *)

Lemma find_first {A : Type} (f : A -> bool) (l : list A) (x : A) :
  find f l = Some x ->
  exists before after,
    l = before ++ x :: after /\ f x = true
    /\ Forall (fun y => f y = false) before.
Proof.
  induction l as [|a l IH]; simpl; [discriminate|].
  destruct (f a) eqn:E.
  - intros H. injection H as <-. exists [], l. repeat split; [assumption|constructor].
  - intros H. destruct (IH H) as (before & after & -> & Hx & Hb).
    exists (a :: before), after. repeat split; [assumption|].
    now constructor.
Qed.

Lemma first_existing_skip (exists_at : string -> result bool)
  (before rest : list string) :
  Forall (fun p => exists_at p = Ok false) before ->
  first_existing exists_at (before ++ rest) = first_existing exists_at rest.
Proof.
  induction 1 as [|p before Hp Hb IH]; simpl; [reflexivity|].
  now rewrite Hp.
Qed.

(** [get_db_path] asks its four locations, in the order of the source,
    whether they exist, and stops at the first answer that is not [False].
    It returns the first location that exists, when [exists()] returned
    [False] for every location before it; it raises what [exists()] raises
    (pathlib re-raises an [OSError] such as [PermissionError]) when that
    comes before any location that exists; and it raises
    [FileNotFoundError] when [exists()] returns [False] for all of them.
    It ends in no other way. *)
Theorem get_db_path_first_existing (w : World) :
  (forall before path after,
     possible_paths w = before ++ path :: after ->
     Forall (fun p => path_exists w p = Ok false) before ->
     (path_exists w path = Ok true -> get_db_path w = Ok path)
     /\ (forall e, path_exists w path = Raise e -> get_db_path w = Raise e))
  /\ (forall path,
        get_db_path w = Ok path ->
        path_exists w path = Ok true
        /\ exists before after,
             possible_paths w = before ++ path :: after
             /\ Forall (fun p => path_exists w p = Ok false) before)
  /\ (forall e,
        get_db_path w = Raise e ->
        (e = FileNotFoundError
         /\ forall p, In p (possible_paths w) -> path_exists w p = Ok false)
        \/ exists before path after,
             possible_paths w = before ++ path :: after
             /\ Forall (fun p => path_exists w p = Ok false) before
             /\ path_exists w path = Raise e).
Proof.
  unfold get_db_path. split; [|split].
  - intros before path after Hl Hb. rewrite Hl.
    rewrite (first_existing_skip _ _ _ Hb). simpl.
    split.
    + now intros ->.
    + intros e He. now rewrite He.
  - intros path H.
    destruct (first_existing_cases (path_exists w) (possible_paths w))
      as [(before & p & after & Hl & Hb & [[Hex Hr]|(e & Hex & Hr)])
         |[_ Hr]];
      rewrite Hr in H; try discriminate.
    injection H as <-. split; [exact Hex|]. now exists before, after.
  - intros e H.
    destruct (first_existing_cases (path_exists w) (possible_paths w))
      as [(before & p & after & Hl & Hb & [[Hex Hr]|(e' & Hex & Hr)])
         |[Hall Hr]];
      rewrite Hr in H; try discriminate.
    + injection H as <-. right. now exists before, p, after.
    + injection H as <-. left. split; [reflexivity|].
      now apply Forall_forall.
Qed.

Lemma get_db_path_first_existing_witness :
  get_db_path (world_with example_rows)
  = Ok "/srv/football-fixtures/api_football_sync/fixtures.db"%string
  /\ get_db_path world_unsearchable = Raise PermissionError.
Proof.
  split.
  - apply (proj1 (proj1 (get_db_path_first_existing (world_with example_rows))
                    []
                    "/srv/football-fixtures/api_football_sync/fixtures.db"%string
                    [ "/srv/football-fixtures/fixtures.db";
                      "/root/.openclaw/workspace/api_football_sync/fixtures.db";
                      "/root/.openclaw/workspace/fixtures.db" ]%string
                    eq_refl (Forall_nil _))).
    reflexivity.
  - assert (Hb : Forall (fun p => path_exists world_unsearchable p = Ok false)
                   [ "/srv/football-fixtures/api_football_sync/fixtures.db";
                     "/srv/football-fixtures/fixtures.db" ]%string)
      by (repeat constructor).
    apply (proj2 (proj1 (get_db_path_first_existing world_unsearchable)
                    [ "/srv/football-fixtures/api_football_sync/fixtures.db";
                      "/srv/football-fixtures/fixtures.db" ]%string
                    "/root/.openclaw/workspace/api_football_sync/fixtures.db"%string
                    [ "/root/.openclaw/workspace/fixtures.db"%string ]
                    eq_refl Hb)).
    reflexivity.
Defined.

(** ** [get_fixtures]: what a returned list holds *)

Lemma normalize_returns_numeric (rt : Runtime) (ids : list Z)
  (rows fixtures : list fixture) :
  normalize rt ids rows = Ok fixtures -> Forall (absent_or_numeric rt) rows.
Proof.
  revert fixtures. induction rows as [|row rows IH]; simpl; intros fixtures H.
  - constructor.
  - destruct (in_target rt ids row) as [keep|e] eqn:E; simpl in H;
      [|discriminate].
    destruct (normalize rt ids rows) as [l|e]; simpl in H; [|discriminate].
    constructor; [|now apply (IH l)].
    unfold absent_or_numeric. unfold in_target in E.
    destruct (truthy (get_or "league_api_id" VNone row)); [|now left].
    right. destruct (py_int rt (get_or "league_api_id" VNone row)) as [z|e];
      [now exists z|discriminate].
Qed.

Lemma league_key_normalize_row (rt : Runtime) (row : fixture) :
  league_key (normalize_row rt row) = league_key row.
Proof.
  unfold league_key, get_or, dget_or.
  change (dget String.eqb "league_api_id" (normalize_row rt row))
    with (get "league_api_id" (normalize_row rt row)).
  now rewrite get_normalize_row_other by discriminate.
Qed.

(** Whenever [get_fixtures] returns, the database file was found, the query
    returned, the fixtures are the normalised selected rows in the order of
    the query, there are no more fixtures than rows, and the competition
    identifier of every fixture is true as a condition and reads as an
    integer of the allow-list. *)
Theorem get_fixtures_returns_allow_listed
  (rt : Runtime) (w : World) (ids : list Z) (days_ahead : Z)
  (fixtures : list fixture) :
  get_fixtures rt w ids days_ahead = Ok fixtures ->
  exists db_path rows,
    get_db_path w = Ok db_path
    /\ fetchall w db_path days_ahead = Ok rows
    /\ fixtures = map (normalize_row rt) (filter (selected rt ids) rows)
    /\ (List.length fixtures <= List.length rows)%nat
    /\ Forall (fun f =>
                 truthy (league_key f) = true
                 /\ exists z, py_int rt (league_key f) = Ok z /\ In z ids)
         fixtures.
Proof.
  unfold get_fixtures. intros H.
  destruct (get_db_path w) as [db_path|e] eqn:Hpath; simpl in H;
    [|discriminate].
  destruct (fetchall w db_path days_ahead) as [rows|e] eqn:Hrows; simpl in H;
    [|discriminate].
  pose proof (normalize_returns_numeric rt ids rows fixtures H) as Hnum.
  rewrite (normalize_filter rt ids rows Hnum) in H. injection H as H.
  subst fixtures. exists db_path, rows.
  split; [reflexivity|]. split; [assumption|]. split; [reflexivity|]. split.
  - rewrite length_map. apply filter_length_le.
  - apply Forall_forall. intros f Hf. apply in_map_iff in Hf.
    destruct Hf as (row & <- & Hrow). apply filter_In in Hrow.
    destruct Hrow as [_ Hsel]. rewrite league_key_normalize_row.
    now apply selected_iff.
Qed.

Lemma get_fixtures_returns_allow_listed_witness :
  exists db_path rows,
    get_db_path (world_with example_rows) = Ok db_path
    /\ fetchall (world_with example_rows) db_path 7 = Ok rows
    /\ map (normalize_row (cpython 0))
         (filter (selected (cpython 0) DEFAULT_LEAGUE_IDS) example_rows)
       = map (normalize_row (cpython 0))
           (filter (selected (cpython 0) DEFAULT_LEAGUE_IDS) rows)
    /\ (List.length
          (map (normalize_row (cpython 0))
             (filter (selected (cpython 0) DEFAULT_LEAGUE_IDS) example_rows))
        <= List.length rows)%nat
    /\ Forall (fun f =>
                 truthy (league_key f) = true
                 /\ exists z, py_int (cpython 0) (league_key f) = Ok z
                              /\ In z DEFAULT_LEAGUE_IDS)
         (map (normalize_row (cpython 0))
            (filter (selected (cpython 0) DEFAULT_LEAGUE_IDS) example_rows)).
Proof.
  apply (get_fixtures_returns_allow_listed (cpython 0) (world_with example_rows)
           DEFAULT_LEAGUE_IDS 7).
  vm_compute. reflexivity.
Defined.

(** ** [get_fixtures]: the columns of a normalised row *)

Lemma keys_set (k : string) (v : value) (f : fixture) :
  map fst (set k v f)
  = match get k f with
    | Some _ => map fst f
    | None => map fst f ++ [k]
    end.
Proof.
  unfold set, get. induction f as [|[k' v'] f IH]; simpl; [reflexivity|].
  destruct (String.eqb k k') eqn:E; simpl; [reflexivity|].
  rewrite IH. now destruct (dget String.eqb k f).
Qed.

Lemma keys_resolve_name (tc en placeholder : string) (f : fixture) :
  get tc f <> None ->
  map fst (resolve_name tc en placeholder f) = map fst f.
Proof.
  intros H. unfold resolve_name.
  destruct (truthy (get_or tc VNone f)); [reflexivity|].
  rewrite keys_set. now destruct (get tc f).
Qed.

Lemma keys_derived (v1 v2 v3 : value) (f : fixture) :
  get "event_date_formatted" f = None ->
  get "event_time_formatted" f = None ->
  get "event_datetime_local" f = None ->
  map fst (set "event_datetime_local" v3
             (set "event_time_formatted" v2
                (set "event_date_formatted" v1 f)))
  = map fst f
    ++ ["event_date_formatted"; "event_time_formatted"; "event_datetime_local"]%string.
Proof.
  intros H1 H2 H3. rewrite !keys_set.
  rewrite !get_set_other by discriminate. rewrite H1, H2, H3.
  now rewrite <- !app_assoc.
Qed.

(** Normalisation of a row of the query keeps every column in its place
    and appends the three derived fields, in the order of the source, when
    the timestamp is true as a condition, and nothing otherwise.  It changes
    no value except a localized name that is false as a condition. *)
Theorem normalize_row_columns (rt : Runtime) (row : fixture) :
  get "league_name_tc" row <> None ->
  get "home_team_name_tc" row <> None ->
  get "away_team_name_tc" row <> None ->
  get "event_date_formatted" row = None ->
  get "event_time_formatted" row = None ->
  get "event_datetime_local" row = None ->
  map fst (normalize_row rt row)
  = map fst row
    ++ (if truthy (get_or "event_date" VNone row)
        then ["event_date_formatted"; "event_time_formatted";
              "event_datetime_local"]%string
        else [])
  /\ (forall k,
        k <> "league_name_tc"%string -> k <> "home_team_name_tc"%string ->
        k <> "away_team_name_tc"%string ->
        k <> "event_date_formatted"%string ->
        k <> "event_time_formatted"%string ->
        k <> "event_datetime_local"%string ->
        get k (normalize_row rt row) = get k row)
  /\ (forall tc,
        tc = "league_name_tc"%string \/ tc = "home_team_name_tc"%string
        \/ tc = "away_team_name_tc"%string ->
        truthy (get_or tc VNone row) = true ->
        get tc (normalize_row rt row) = get tc row).
Proof.
  intros Hl Hh Ha H1 H2 H3.
  set (g := resolve_name "away_team_name_tc" "away_team_name_en" "未知客隊"
              (resolve_name "home_team_name_tc" "home_team_name_en" "未知主隊"
                 (resolve_name "league_name_tc" "league_name_en" "未知聯賽" row))).
  assert (Hother : forall k, k <> "league_name_tc"%string ->
                     k <> "home_team_name_tc"%string ->
                     k <> "away_team_name_tc"%string -> get k g = get k row).
  { intros k Hk1 Hk2 Hk3. subst g.
    now rewrite !get_resolve_name_other by assumption. }
  assert (Hkeys : map fst g = map fst row).
  { subst g. rewrite !keys_resolve_name; try reflexivity; try assumption.
    - now rewrite get_resolve_name_other by discriminate.
    - rewrite !get_resolve_name_other by discriminate. assumption. }
  split; [|split].
  - unfold normalize_row. fold g. unfold format_event_date.
    replace (get_or "event_date" VNone g) with (get_or "event_date" VNone row)
      by (symmetry; apply get_or_resolved_event_date).
    destruct (truthy (get_or "event_date" VNone row));
      [|now rewrite Hkeys, app_nil_r].
    rewrite <- Hkeys.
    assert (G1 : get "event_date_formatted" g = None)
      by (rewrite Hother by discriminate; assumption).
    assert (G2 : get "event_time_formatted" g = None)
      by (rewrite Hother by discriminate; assumption).
    assert (G3 : get "event_datetime_local" g = None)
      by (rewrite Hother by discriminate; assumption).
    destruct (get_or "event_date" VNone row) as [| |s];
      try (unfold degraded; now apply keys_derived).
    destruct (fromisoformat rt (replace_Z s)) as [dt|];
      [|unfold degraded; now apply keys_derived].
    destruct (astimezone rt dt) as [local|];
      [|unfold degraded; now apply keys_derived].
    now apply keys_derived.
  - intros k. apply get_normalize_row_other.
  - intros tc Htc Htrue. unfold normalize_row.
    rewrite get_format_event_date_other
      by (destruct Htc as [->|[->| ->]]; discriminate).
    assert (Hkeep : forall en ph f,
              truthy (get_or tc VNone f) = true ->
              get tc (resolve_name tc en ph f) = get tc f).
    { intros en ph f Hf. rewrite get_resolve_name. now rewrite Hf. }
    destruct Htc as [->|[->| ->]].
    + rewrite !get_resolve_name_other by discriminate. now apply Hkeep.
    + rewrite get_resolve_name_other by discriminate.
      rewrite Hkeep; [now rewrite get_resolve_name_other by discriminate|].
      unfold get_or, dget_or.
      change (dget String.eqb "home_team_name_tc"
                (resolve_name "league_name_tc" "league_name_en" "未知聯賽" row))
        with (get "home_team_name_tc"
                (resolve_name "league_name_tc" "league_name_en" "未知聯賽" row)).
      rewrite get_resolve_name_other by discriminate. exact Htrue.
    + rewrite Hkeep; [now rewrite !get_resolve_name_other by discriminate|].
      unfold get_or, dget_or.
      match goal with |- context [dget String.eqb "away_team_name_tc" ?f] =>
        change (dget String.eqb "away_team_name_tc" f)
          with (get "away_team_name_tc" f) end.
      rewrite !get_resolve_name_other by discriminate. exact Htrue.
Qed.

Lemma normalize_row_columns_witness :
  map fst (normalize_row (cpython 0) (nth 0 example_rows []))
  = map fst (nth 0 example_rows [])
    ++ ["event_date_formatted"; "event_time_formatted";
        "event_datetime_local"]%string.
Proof.
  apply (proj1 (normalize_row_columns (cpython 0) (nth 0 example_rows [])
                  ltac:(discriminate) ltac:(discriminate) ltac:(discriminate)
                  eq_refl eq_refl eq_refl)).
Defined.

(** ** The grouping loops keep the order of the fixtures *)

Section GroupOrder.
Context {V : Type} (items : V -> list fixture) (key : fixture -> value).
Context (init : fixture -> V) (add : fixture -> V -> V).
Context (step : list (value * V) -> fixture -> list (value * V)).
Hypothesis items_init : forall f, items (init f) = [].
Hypothesis items_add : forall f g, items (add f g) = items g ++ [f].
Hypothesis step_eq : forall d f,
  step d f = dupdate value_eqb (key f) (add f)
               (if dmem value_eqb (key f) d then d
                else dset value_eqb (key f) (init f) d).

Lemma filter_key_none (k : value) (l : list fixture) :
  (forall f, In f l -> key f <> k) ->
  filter (fun f => value_eqb (key f) k) l = [].
Proof.
  induction l as [|f l IH]; simpl; intros H; [reflexivity|].
  destruct (value_eqb (key f) k) eqn:E.
  - apply value_eqb_eq in E. exfalso. apply (H f); [now left|assumption].
  - apply IH. intros f' Hf'. apply H. now right.
Qed.

Lemma step_in_order (d : list (value * V)) (seen : list fixture) (f : fixture) :
  groups_of items key d seen ->
  (forall k g, In (k, g) d ->
     items g = filter (fun f' => value_eqb (key f') k) seen) ->
  forall k g, In (k, g) (step d f) ->
    items g = filter (fun f' => value_eqb (key f') k) (seen ++ [f]).
Proof.
  intros Hg Hord k g Hin. rewrite filter_app. simpl.
  rewrite step_eq in Hin.
  destruct (add_group_cases value_eqb value_eqb_eq (key f) (init f) (add f) d)
    as [[Hfresh E]|(d1 & v & d2 & Hd & Hn & E)]; rewrite E in Hin; clear E.
  - apply in_app_or in Hin. destruct Hin as [Hin|[Hin|[]]].
    + assert (Hne : key f <> k).
      { intros <-. apply Hfresh. apply in_map_iff. now exists (key f, g). }
      replace (value_eqb (key f) k) with false
        by (symmetry; destruct (value_eqb (key f) k) eqn:E; [|reflexivity];
            apply value_eqb_eq in E; contradiction).
      rewrite app_nil_r. now apply Hord.
    + injection Hin as <- <-. rewrite items_add, items_init.
      replace (value_eqb (key f) (key f)) with true
        by (symmetry; now apply value_eqb_eq).
      rewrite filter_key_none; [reflexivity|].
      intros f' Hf' E. apply Hfresh.
      destruct (groups_of_In items key d seen f' Hg Hf') as (g' & Hg' & _).
      rewrite <- E. apply in_map_iff. now exists (key f', g').
  - subst d. destruct Hg as (Hnd & _ & _).
    rewrite map_app in Hnd. simpl in Hnd.
    apply in_app_or in Hin. destruct Hin as [Hin|[Hin|Hin]].
    + assert (Hne : key f <> k).
      { intros <-. apply Hn. apply in_map_iff. now exists (key f, g). }
      replace (value_eqb (key f) k) with false
        by (symmetry; destruct (value_eqb (key f) k) eqn:E; [|reflexivity];
            apply value_eqb_eq in E; contradiction).
      rewrite app_nil_r. apply Hord. apply in_or_app. now left.
    + injection Hin as <- <-. rewrite items_add.
      replace (value_eqb (key f) (key f)) with true
        by (symmetry; now apply value_eqb_eq).
      f_equal. apply Hord. apply in_or_app. right. now left.
    + assert (Hne : key f <> k).
      { intros <-. apply NoDup_remove_2 in Hnd. apply Hnd.
        apply in_or_app. right. apply in_map_iff. now exists (key f, g). }
      replace (value_eqb (key f) k) with false
        by (symmetry; destruct (value_eqb (key f) k) eqn:E; [|reflexivity];
            apply value_eqb_eq in E; contradiction).
      rewrite app_nil_r. apply Hord. apply in_or_app. right. now right.
Qed.

Lemma fold_in_order (l : list fixture) :
  forall d seen,
    groups_of items key d seen ->
    (forall k g, In (k, g) d ->
       items g = filter (fun f' => value_eqb (key f') k) seen) ->
    forall k g, In (k, g) (fold_left step l d) ->
      items g = filter (fun f' => value_eqb (key f') k) (seen ++ l).
Proof.
  induction l as [|f l IH]; simpl; intros d seen Hg Hord k g Hin.
  - rewrite app_nil_r. now apply Hord.
  - replace (seen ++ f :: l) with ((seen ++ [f]) ++ l)
      by (now rewrite <- app_assoc).
    apply (IH (step d f)); try assumption.
    + now apply (step_groups items key init add step).
    + now apply step_in_order.
Qed.
End GroupOrder.

Lemma group_by_league_in_order (fixtures : list fixture) (k : value) (g : league) :
  In (k, g) (group_by_league fixtures) ->
  league_fixtures g = filter (fun f => value_eqb (league_key f) k) fixtures.
Proof.
  unfold group_by_league.
  apply (fold_in_order league_fixtures league_key
           (fun f => mkleague (league_key f)
                       (get_or "league_name_tc" (VStr "未知聯賽") f)
                       (get_or "league_country" (VStr "") f) [])
           append_fixture add_to_league) with (seen := []) (d := []).
  - reflexivity.
  - reflexivity.
  - reflexivity.
  - apply groups_of_nil.
  - intros ? ? [].
Qed.

(** Each group starts with the fixture that made it, whose fields it
    carries. *)
Lemma group_by_league_headers (fixtures : list fixture) :
  Forall (fun kv : value * league =>
            exists f0 rest,
              league_fixtures (snd kv) = f0 :: rest
              /\ league_id (snd kv) = fst kv
              /\ league_name (snd kv)
                 = get_or "league_name_tc" (VStr "未知聯賽") f0
              /\ league_country (snd kv) = get_or "league_country" (VStr "") f0)
    (group_by_league fixtures).
Proof.
  unfold group_by_league.
  apply (fold_Forall league_key
           (fun f => mkleague (league_key f)
                       (get_or "league_name_tc" (VStr "未知聯賽") f)
                       (get_or "league_country" (VStr "") f) [])
           append_fixture add_to_league)
    with (H := fun _ => True).
  - reflexivity.
  - intros f _. exists f, []. simpl. repeat split.
  - intros k g f (f0 & rest & Hf & Hid & Hname & Hcountry).
    exists f0, (rest ++ [f]). simpl in *. rewrite Hf. repeat split; assumption.
  - apply Forall_True.
  - constructor.
Qed.

(** Each competition of the result holds the fixtures of the input with
    its identifier, all of them, in the order of the input; it has at least
    one, and its identifier, name and country are those of the first.  The
    competitions of the result are those of the input. *)
Theorem get_fixtures_by_league_in_order
  (fixtures : list fixture) (leagues : list (value * league)) :
  get_fixtures_by_league fixtures = Ok leagues ->
  (forall k, In k (map fst leagues) <->
             exists f, In f fixtures /\ league_key f = k)
  /\ (forall k g,
        In (k, g) leagues ->
        league_fixtures g
        = filter (fun f => value_eqb (league_key f) k) fixtures
        /\ exists f0 rest,
             league_fixtures g = f0 :: rest
             /\ league_id g = k
             /\ league_name g = get_or "league_name_tc" (VStr "未知聯賽") f0
             /\ league_country g = get_or "league_country" (VStr "") f0).
Proof.
  intros H. destruct (get_fixtures_by_league_groups fixtures leagues H)
    as [Hg Hs].
  apply sorted_perm in Hs.
  assert (Hgroup : forall k g, In (k, g) leagues ->
            league_fixtures g
            = filter (fun f => value_eqb (league_key f) k) fixtures
            /\ exists f0 rest,
                 league_fixtures g = f0 :: rest
                 /\ league_id g = k
                 /\ league_name g = get_or "league_name_tc" (VStr "未知聯賽") f0
                 /\ league_country g = get_or "league_country" (VStr "") f0).
  { intros k g Hin.
    apply Permutation_in with (l' := group_by_league fixtures) in Hin;
      [|now apply Permutation_sym].
    split; [now apply group_by_league_in_order|].
    pose proof (group_by_league_headers fixtures) as Hh.
    rewrite Forall_forall in Hh. apply (Hh (k, g) Hin). }
  split; [|exact Hgroup].
  intros k. split.
  - intros Hk. apply in_map_iff in Hk. destruct Hk as ([k' g] & Hfst & Hin).
    simpl in Hfst. subst k'.
    destruct (Hgroup k g Hin) as (Hfilter & f0 & rest & Hitems & _).
    assert (Hf0 : In f0 (filter (fun f => value_eqb (league_key f) k) fixtures))
      by (rewrite <- Hfilter, Hitems; now left).
    apply filter_In in Hf0. destruct Hf0 as [Hf0 Hk].
    exists f0. split; [assumption|now apply value_eqb_eq].
  - intros (f & Hf & <-).
    destruct (groups_of_In league_fixtures league_key leagues fixtures f Hg Hf)
      as (g & Hin & _).
    apply in_map_iff. now exists (league_key f, g).
Qed.

Lemma get_fixtures_by_league_in_order_witness :
  exists leagues,
    get_fixtures_by_league shuffled_fixtures = Ok leagues
    /\ forall k, In k (map fst leagues) <->
                 exists f, In f shuffled_fixtures /\ league_key f = k.
Proof.
  destruct (get_fixtures_by_league shuffled_fixtures) as [leagues|e] eqn:E.
  - exists leagues. split; [reflexivity|].
    apply (get_fixtures_by_league_in_order shuffled_fixtures leagues E).
  - vm_compute in E. discriminate E.
Defined.

(** ** [get_fixtures_by_date] keeps the order of the fixtures *)

Lemma group_by_date_in_order (fixtures : list fixture) (k : value)
  (g : list fixture) :
  In (k, g) (group_by_date fixtures) ->
  g = filter (fun f => value_eqb (date_key f) k) fixtures.
Proof.
  unfold group_by_date.
  apply (fold_in_order (fun l : list fixture => l) date_key
           (fun _ => []) (fun f l => l ++ [f]) add_to_date)
    with (seen := []) (d := []).
  - reflexivity.
  - reflexivity.
  - reflexivity.
  - apply groups_of_nil.
  - intros ? ? [].
Qed.

Lemma group_by_date_nonempty (fixtures : list fixture) :
  Forall (fun kv : value * list fixture => snd kv <> [])
    (group_by_date fixtures).
Proof.
  unfold group_by_date.
  apply (fold_Forall date_key (fun _ => []) (fun f l => l ++ [f]) add_to_date)
    with (H := fun _ => True).
  - reflexivity.
  - intros f _. discriminate.
  - intros k g f _. simpl. now destruct g.
  - apply Forall_True.
  - constructor.
Qed.

(** Each date of the result holds the fixtures of the input with that
    date key, all of them, in the order of the input, and at least one; the
    dates of the result are the date keys of the input. *)
Theorem get_fixtures_by_date_in_order
  (fixtures : list fixture) (dates : list (value * list fixture)) :
  get_fixtures_by_date fixtures = Ok dates ->
  (forall k, In k (map fst dates) <->
             exists f, In f fixtures /\ date_key f = k)
  /\ (forall k g,
        In (k, g) dates ->
        g = filter (fun f => value_eqb (date_key f) k) fixtures /\ g <> []).
Proof.
  intros H. destruct (get_fixtures_by_date_groups fixtures dates H) as [Hg Hs].
  apply sorted_perm in Hs.
  assert (Hgroup : forall k g, In (k, g) dates ->
            g = filter (fun f => value_eqb (date_key f) k) fixtures /\ g <> []).
  { intros k g Hin.
    apply Permutation_in with (l' := group_by_date fixtures) in Hin;
      [|now apply Permutation_sym].
    split; [now apply group_by_date_in_order|].
    pose proof (group_by_date_nonempty fixtures) as Hn.
    rewrite Forall_forall in Hn. apply (Hn (k, g) Hin). }
  split; [|exact Hgroup].
  intros k. split.
  - intros Hk. apply in_map_iff in Hk. destruct Hk as ([k' g] & Hfst & Hin).
    simpl in Hfst. subst k'. destruct (Hgroup k g Hin) as [Hfilter Hne].
    destruct g as [|f0 rest]; [contradiction|].
    assert (Hf0 : In f0 (filter (fun f => value_eqb (date_key f) k) fixtures))
      by (rewrite <- Hfilter; now left).
    apply filter_In in Hf0. destruct Hf0 as [Hf0 Hk].
    exists f0. split; [assumption|now apply value_eqb_eq].
  - intros (f & Hf & <-).
    destruct (groups_of_In (fun l : list fixture => l) date_key dates fixtures
                f Hg Hf) as (g & Hin & _).
    apply in_map_iff. now exists (date_key f, g).
Qed.

Lemma get_fixtures_by_date_in_order_witness :
  exists dates,
    get_fixtures_by_date shuffled_fixtures = Ok dates
    /\ forall k, In k (map fst dates) <->
                 exists f, In f shuffled_fixtures /\ date_key f = k.
Proof.
  destruct (get_fixtures_by_date shuffled_fixtures) as [dates|e] eqn:E.
  - exists dates. split; [reflexivity|].
    apply (get_fixtures_by_date_in_order shuffled_fixtures dates E).
  - vm_compute in E. discriminate E.
Defined.

(** ** When the groupings raise *)

Section SortedRaises.
Context {A : Type} (lt : A -> A -> result bool).
Hypothesis lt_raises : forall x y e, lt x y = Raise e -> e = TypeError.

Lemma insert_sorted_raises (x : A) (l : list A) (e : exn) :
  insert_sorted lt x l = Raise e -> e = TypeError.
Proof.
  induction l as [|y l IH]; simpl; [discriminate|].
  destruct (lt y x) as [[|]|e'] eqn:E; simpl.
  - destruct (insert_sorted lt x l) as [r|e'']; simpl; [discriminate|].
    intros H. injection H as <-. now apply IH.
  - discriminate.
  - intros H. injection H as <-. now apply (lt_raises y x).
Qed.

Lemma sorted_raises (l : list A) (e : exn) :
  sorted lt l = Raise e -> e = TypeError.
Proof.
  induction l as [|x l IH]; simpl; [discriminate|].
  destruct (sorted lt l) as [s|e'] eqn:E; simpl.
  - apply insert_sorted_raises.
  - intros H. injection H as <-. now apply IH.
Qed.
End SortedRaises.

Lemma value_lt_raises (a b : value) (e : exn) :
  value_lt a b = Raise e -> e = TypeError.
Proof.
  destruct a, b; simpl; intros H; try discriminate; now injection H as <-.
Qed.

Lemma fixtures_lt_raises (a b : list fixture) (e : exn) :
  fixtures_lt a b = Raise e -> e = TypeError.
Proof.
  revert b. induction a as [|x a IH]; intros [|y b]; simpl; try discriminate.
  destruct (fixture_eqb x y); [apply IH|].
  intros H. now injection H as <-.
Qed.

Lemma item_lt_raises (a b : value * list fixture) (e : exn) :
  item_lt a b = Raise e -> e = TypeError.
Proof.
  unfold item_lt. destruct (value_eqb (fst a) (fst b)).
  - apply fixtures_lt_raises.
  - apply value_lt_raises.
Qed.

(** Two values of a list that [sorted] can order compare. *)
Lemma comparable_values_lt (vs : list value) (a b : value) :
  Forall (fun v => is_str v = true) vs \/ Forall (fun v => is_int v = true) vs ->
  In a vs -> In b vs -> exists r, value_lt a b = Ok r.
Proof.
  intros [H|H] Ha Hb; rewrite Forall_forall in H;
    pose proof (H a Ha) as Ea; pose proof (H b Hb) as Eb;
    destruct a, b; try discriminate; simpl; eauto.
Qed.

(** The values of a list in the order [value_le] are of one kind. *)
Lemma value_le_sorted_comparable (vs : list value) :
  StronglySorted value_le vs -> comparable_values vs.
Proof.
  intros HS. destruct vs as [|x [|y rest]].
  - left. simpl. lia.
  - left. simpl. lia.
  - right. inversion HS as [|? ? _ Hx]. subst.
    destruct x as [|n|s].
    + inversion Hx as [|? ? Hxy _]. contradiction.
    + right. constructor; [reflexivity|].
      eapply Forall_impl; [|exact Hx]. intros [| |] Hz; simpl in *;
        try contradiction; reflexivity.
    + left. constructor; [reflexivity|].
      eapply Forall_impl; [|exact Hx]. intros [| |] Hz; simpl in *;
        try contradiction; reflexivity.
Qed.

Lemma comparable_values_perm (vs vs' : list value) :
  Permutation vs vs' -> comparable_values vs -> comparable_values vs'.
Proof.
  intros Hp [H|[H|H]].
  - left. now rewrite <- (Permutation_length Hp).
  - right. left. now rewrite <- Hp.
  - right. right. now rewrite <- Hp.
Qed.

Lemma StronglySorted_weaken {A : Type} (R S : A -> A -> Prop) (l : list A) :
  (forall x y, R x y -> S x y) -> StronglySorted R l -> StronglySorted S l.
Proof.
  intros H. induction 1 as [|x l HS IH Hx]; constructor; [assumption|].
  eapply Forall_impl; [|exact Hx]. intros y. apply H.
Qed.

Lemma StronglySorted_map {A B : Type} (f : A -> B) (R : B -> B -> Prop)
  (l : list A) :
  StronglySorted (fun x y => R (f x) (f y)) l -> StronglySorted R (map f l).
Proof.
  induction 1 as [|x l HS IH Hx]; simpl; constructor; [assumption|].
  apply Forall_map. exact Hx.
Qed.

(** [get_fixtures_by_league] raises nothing but [TypeError], and it returns
    exactly when [sorted] can order the display names of the competitions
    (each the name of the first fixture of the competition): when there is
    at most one competition, or the names are all strings, or all
    integers. *)
Theorem get_fixtures_by_league_returns_iff (fixtures : list fixture) :
  (forall e, get_fixtures_by_league fixtures = Raise e -> e = TypeError)
  /\ ((exists leagues, get_fixtures_by_league fixtures = Ok leagues) <->
      comparable_values
        (map (fun kv => league_name (snd kv)) (group_by_league fixtures))).
Proof.
  split.
  - unfold get_fixtures_by_league. intros e H.
    destruct (sorted name_lt (group_by_league fixtures)) as [r|e'] eqn:E;
      simpl in H; [discriminate|].
    injection H as <-. apply (sorted_raises name_lt) with (l := group_by_league fixtures).
    + intros x y e0. apply value_lt_raises.
    + exact E.
  - split.
    + intros [leagues H].
      pose proof (get_fixtures_by_league_ordered fixtures leagues H) as HS.
      destruct (get_fixtures_by_league_groups fixtures leagues H) as [_ Hs].
      apply sorted_perm in Hs.
      apply comparable_values_perm
        with (vs := map (fun kv => league_name (snd kv)) leagues).
      * apply Permutation_map. now apply Permutation_sym.
      * apply value_le_sorted_comparable.
        apply (StronglySorted_map (fun kv : value * league => league_name (snd kv))
                 value_le). exact HS.
    + intros Hc.
      assert (Hr : exists r, sorted name_lt (group_by_league fixtures) = Ok r).
      { destruct Hc as [Hlen|Hkind].
        - destruct (group_by_league fixtures) as [|x [|y rest]]; simpl in *.
          + now exists [].
          + now exists [x].
          + lia.
        - apply sorted_returns. apply ForallPairs_ForallOrdPairs.
          intros a b Ha Hb. unfold name_lt.
          apply (comparable_values_lt _ _ _ Hkind);
            apply in_map_iff; eauto. }
      destruct Hr as [r Hr]. unfold get_fixtures_by_league. rewrite Hr. simpl.
      eauto.
Qed.

Lemma get_fixtures_by_league_returns_iff_witness :
  get_fixtures_by_league (map (normalize_row (cpython 0)) unnamed_league_rows)
  = Raise TypeError.
Proof.
  destruct (get_fixtures_by_league
              (map (normalize_row (cpython 0)) unnamed_league_rows))
    as [leagues|e] eqn:E.
  - vm_compute in E. discriminate E.
  - f_equal.
    apply (proj1 (get_fixtures_by_league_returns_iff
                    (map (normalize_row (cpython 0)) unnamed_league_rows)) e E).
Defined.

Lemma item_lt_returns_comparable (l : list (value * list fixture)) :
  NoDup (map fst l) ->
  Forall (fun v => is_str v = true) (map fst l)
  \/ Forall (fun v => is_int v = true) (map fst l) ->
  ForallOrdPairs (fun x y => exists b, item_lt y x = Ok b) l.
Proof.
  induction l as [|x l IH]; simpl; intros Hnd Hk; constructor.
  - inversion Hnd as [|? ? Hx Hl]. subst. apply Forall_forall. intros y Hy.
    unfold item_lt.
    destruct (value_eqb (fst y) (fst x)) eqn:E.
    + apply value_eqb_eq in E. exfalso. apply Hx. rewrite <- E.
      now apply in_map.
    + apply (comparable_values_lt (fst x :: map fst l)); try assumption.
      * right. now apply in_map.
      * now left.
  - inversion Hnd. subst. apply IH; [assumption|].
    destruct Hk as [Hk|Hk]; [left|right]; now inversion Hk.
Qed.

(** [get_fixtures_by_date] raises nothing but [TypeError], and it returns
    exactly when [sorted] can order the date keys of the fixtures: when
    there is at most one date key, or the keys are all strings, or all
    integers. *)
Theorem get_fixtures_by_date_returns_iff (fixtures : list fixture) :
  (forall e, get_fixtures_by_date fixtures = Raise e -> e = TypeError)
  /\ ((exists dates, get_fixtures_by_date fixtures = Ok dates) <->
      comparable_values (map fst (group_by_date fixtures))).
Proof.
  split.
  - unfold get_fixtures_by_date. intros e H.
    destruct (sorted item_lt (group_by_date fixtures)) as [r|e'] eqn:E;
      simpl in H; [discriminate|].
    injection H as <-. apply (sorted_raises item_lt) with (l := group_by_date fixtures).
    + apply item_lt_raises.
    + exact E.
  - split.
    + intros [dates H].
      pose proof (get_fixtures_by_date_ordered fixtures dates H) as HS.
      destruct (get_fixtures_by_date_groups fixtures dates H) as [_ Hs].
      apply sorted_perm in Hs.
      apply comparable_values_perm with (vs := map fst dates).
      * apply Permutation_map. now apply Permutation_sym.
      * apply value_le_sorted_comparable.
        apply (StronglySorted_map (fun kv : value * list fixture => fst kv)
                 value_le).
        eapply StronglySorted_weaken; [|exact HS].
        intros a b. unfold date_lt.
        destruct (fst a), (fst b); simpl; try contradiction.
        -- lia.
        -- apply string_ltb_leb.
    + intros Hc.
      assert (Hr : exists r, sorted item_lt (group_by_date fixtures) = Ok r).
      { destruct Hc as [Hlen|Hkind].
        - destruct (group_by_date fixtures) as [|x [|y rest]]; simpl in *.
          + now exists [].
          + now exists [x].
          + lia.
        - apply sorted_returns. apply item_lt_returns_comparable; [|assumption].
          apply (group_by_date_groups fixtures). }
      destruct Hr as [r Hr]. unfold get_fixtures_by_date. rewrite Hr. simpl.
      eauto.
Qed.

Lemma get_fixtures_by_date_returns_iff_witness :
  get_fixtures_by_date
    [[("event_date_formatted", VInt 20240301)];
     [("event_date_formatted", VStr "2024-03-01")]]
  = Raise TypeError.
Proof.
  destruct (get_fixtures_by_date
              [[("event_date_formatted", VInt 20240301)];
               [("event_date_formatted", VStr "2024-03-01")]])
    as [dates|e] eqn:E.
  - vm_compute in E. discriminate E.
  - f_equal.
    apply (proj1 (get_fixtures_by_date_returns_iff
                    [[("event_date_formatted", VInt 20240301)];
                     [("event_date_formatted", VStr "2024-03-01")]]) e E).
Defined.

(** ** The order of competitions that share a name *)

Section SortedStable.
Context {A : Type} (lt : A -> A -> result bool).

Lemma insert_sorted_split (x : A) (l r : list A) :
  insert_sorted lt x l = Ok r ->
  exists l1 l2,
    l = l1 ++ l2 /\ r = l1 ++ x :: l2
    /\ Forall (fun y => lt y x = Ok true) l1.
Proof.
  revert r. induction l as [|y l IH]; simpl; intros r H.
  - injection H as <-. exists [], []. repeat split. constructor.
  - destruct (lt y x) as [[|]|e] eqn:E; simpl in H; try discriminate.
    + destruct (insert_sorted lt x l) as [r'|e] eqn:Er; simpl in H;
        try discriminate.
      injection H as <-.
      destruct (IH r' eq_refl) as (l1 & l2 & -> & -> & HF).
      exists (y :: l1), l2. repeat split. now constructor.
    + injection H as <-. exists [], (y :: l). repeat split. constructor.
Qed.

(** [sorted] is stable: the items of a class that no item of the class is
    before by [<] keep their order. *)
Lemma sorted_stable (P : A -> bool) (l r : list A) :
  (forall y x, lt y x = Ok true -> P x = true -> P y = false) ->
  sorted lt l = Ok r -> filter P r = filter P l.
Proof.
  intros HP. revert r. induction l as [|x l IH]; simpl; intros r H.
  - now injection H as <-.
  - destruct (sorted lt l) as [s|e] eqn:Es; simpl in H; try discriminate.
    apply insert_sorted_split in H. destruct H as (l1 & l2 & -> & -> & HF).
    rewrite <- (IH _ eq_refl). rewrite !filter_app. simpl.
    destruct (P x) eqn:Ex; [|reflexivity].
    assert (H1 : filter P l1 = []).
    { clear -HF HP Ex. induction HF as [|y l1 Hy HF IH]; simpl;
        [reflexivity|].
      now rewrite (HP y x Hy Ex). }
    now rewrite H1.
Qed.
End SortedStable.

Lemma string_ltb_irrefl (s : string) : String.ltb s s = false.
Proof. unfold String.ltb. now rewrite string_compare_refl. Qed.

Lemma value_lt_neq (a b : value) : value_lt a b = Ok true -> a <> b.
Proof.
  intros H ->. destruct b as [|z|s]; simpl in H; try discriminate.
  - injection H as H. rewrite Z.ltb_irrefl in H. discriminate.
  - injection H as H. rewrite string_ltb_irrefl in H. discriminate.
Qed.

Lemma existsb_value_eqb (k : value) (l : list value) :
  existsb (value_eqb k) l = true <-> In k l.
Proof.
  rewrite existsb_exists. split.
  - intros (x & Hx & E). apply value_eqb_eq in E. now subst.
  - intros H. exists k. split; [assumption|]. now apply value_eqb_eq.
Qed.

Section GroupKeys.
Context {V : Type} (key : fixture -> value).
Context (init : fixture -> V) (add : fixture -> V -> V).
Context (step : list (value * V) -> fixture -> list (value * V)).
Hypothesis step_eq : forall d f,
  step d f = dupdate value_eqb (key f) (add f)
               (if dmem value_eqb (key f) d then d
                else dset value_eqb (key f) (init f) d).

(** The loop makes the groups in the order in which the keys first
    occur. *)
Lemma fold_keys (l : list fixture) :
  forall d,
    map fst (fold_left step l d)
    = fold_left
        (fun seen k => if existsb (value_eqb k) seen then seen else seen ++ [k])
        (map key l) (map fst d).
Proof.
  induction l as [|f l IH]; intros d; simpl; [reflexivity|].
  rewrite IH. f_equal. rewrite step_eq.
  destruct (add_group_cases value_eqb value_eqb_eq (key f) (init f) (add f) d)
    as [[Hfresh ->]|(d1 & v & d2 & -> & Hn & ->)].
  - destruct (existsb (value_eqb (key f)) (map fst d)) eqn:E.
    + apply existsb_value_eqb in E. contradiction.
    + now rewrite map_app.
  - assert (E : existsb (value_eqb (key f)) (map fst (d1 ++ (key f, v) :: d2))
                = true).
    { apply existsb_value_eqb. rewrite map_app. apply in_or_app. right.
      now left. }
    rewrite E. now rewrite !map_app.
Qed.
End GroupKeys.

Lemma group_by_league_keys (fixtures : list fixture) :
  map fst (group_by_league fixtures)
  = first_occurrences (map league_key fixtures).
Proof.
  unfold group_by_league, first_occurrences.
  apply (fold_keys league_key
           (fun f => mkleague (league_key f)
                       (get_or "league_name_tc" (VStr "未知聯賽") f)
                       (get_or "league_country" (VStr "") f) [])
           append_fixture add_to_league).
  reflexivity.
Qed.

(** Competitions that share a display name stay in the order in which the
    loop made them, which is the order in which their identifiers first
    occur among the fixtures: the sort is stable. *)
Theorem get_fixtures_by_league_stable
  (fixtures : list fixture) (leagues : list (value * league)) :
  get_fixtures_by_league fixtures = Ok leagues ->
  (forall name,
     filter (fun kv => value_eqb (league_name (snd kv)) name) leagues
     = filter (fun kv => value_eqb (league_name (snd kv)) name)
         (group_by_league fixtures))
  /\ map fst (group_by_league fixtures)
     = first_occurrences (map league_key fixtures).
Proof.
  intros H. split; [|apply group_by_league_keys].
  intros name.
  destruct (get_fixtures_by_league_groups fixtures leagues H) as [_ Hs].
  apply (sorted_stable name_lt) with (l := group_by_league fixtures);
    [|exact Hs].
  intros y x Hlt Hx. apply value_eqb_eq in Hx.
  destruct (value_eqb (league_name (snd y)) name) eqn:E; [|reflexivity].
  apply value_eqb_eq in E. unfold name_lt in Hlt.
  apply value_lt_neq in Hlt. congruence.
Qed.

Lemma get_fixtures_by_league_stable_witness :
  exists leagues,
    get_fixtures_by_league same_name_fixtures = Ok leagues
    /\ map fst leagues = [VInt 39; VInt 203; VInt 169]
    /\ map fst (filter (fun kv => value_eqb (league_name (snd kv))
                                    (VStr "Super League")) leagues)
       = [VInt 203; VInt 169]
    /\ first_occurrences (map league_key same_name_fixtures)
       = [VInt 203; VInt 39; VInt 169].
Proof.
  destruct (get_fixtures_by_league same_name_fixtures) as [leagues|e] eqn:E.
  - exists leagues. split; [reflexivity|].
    destruct (get_fixtures_by_league_stable same_name_fixtures leagues E)
      as [Hsame Hkeys].
    split; [vm_compute in E; injection E as <-; reflexivity|].
    split; [|reflexivity].
    rewrite (Hsame (VStr "Super League")). reflexivity.
  - vm_compute in E. discriminate E.
Defined.

(** * Properties of [html_builder.py] *)

(** ** [format_date_filter] *)

Lemma digit_val_digit (n : Z) : digit_val (digit n) = Some (n mod 10).
Proof.
  unfold digit_val, digit.
  assert (H : 0 <= n mod 10 < 10) by (apply Z.mod_pos_bound; lia).
  rewrite nat_ascii_embedding by lia.
  replace ((48 <=? 48 + Z.to_nat (n mod 10))%nat
           && (48 + Z.to_nat (n mod 10) <=? 57)%nat) with true.
  - f_equal. lia.
  - symmetry. apply andb_true_intro. split; apply Nat.leb_le; lia.
Qed.

Lemma strptime_year_pad4 (y : Z) (rest : string) :
  0 <= y <= 9999 ->
  strptime_year (pad4 y ++ rest) = Some (y, rest).
Proof.
  intros H. unfold pad4, pad2, strptime_year. cbn [String.append].
  rewrite !digit_val_digit. unfold obind. cbv beta iota.
  f_equal. f_equal.
  Z.div_mod_to_equations. lia.
Qed.

Lemma Z_in_range (lo : nat) (n : nat) (z : Z) :
  Z.of_nat lo <= z < Z.of_nat lo + Z.of_nat n ->
  In z (map Z.of_nat (seq lo n)).
Proof.
  intros H. apply in_map_iff. exists (Z.to_nat z). split; [lia|].
  apply in_seq. lia.
Qed.

Lemma strptime_month_pad2 (m : Z) (rest : string) :
  1 <= m <= 12 ->
  strptime_month (pad2 m ++ String "-" rest) = Some (m, String "-" rest).
Proof.
  intros H. assert (Hin : In m (map Z.of_nat (seq 1 12)))
    by (apply Z_in_range; lia).
  cbn in Hin.
  repeat (destruct Hin as [<-|Hin]; [vm_compute; reflexivity|]). contradiction.
Qed.

Lemma strptime_day_pad2 (d : Z) :
  1 <= d <= 31 -> strptime_day (pad2 d) = Some (d, EmptyString).
Proof.
  intros H. assert (Hin : In d (map Z.of_nat (seq 1 31)))
    by (apply Z_in_range; lia).
  cbn in Hin.
  repeat (destruct Hin as [<-|Hin]; [vm_compute; reflexivity|]). contradiction.
Qed.

Lemma days_in_month_le_31 (y m : Z) : days_in_month y m <= 31.
Proof.
  unfold days_in_month.
  destruct (m =? 2); [destruct (is_leap y); lia|].
  destruct ((m =? 4) || (m =? 6) || (m =? 9) || (m =? 11)); lia.
Qed.

(** Reading a date that [strftime('%Y-%m-%d')] wrote gives the date, from
    the year 1000 on. *)
Lemma cpython_strptime_ymd_strftime_date (dt : datetime) :
  valid_date dt -> 1000 <= year dt ->
  cpython_strptime_ymd (strftime_date dt)
  = Some (mkdt (year dt) (month dt) (day dt) 0 0 0 0 None).
Proof.
  intros (Hy & Hm & Hd) H1000. unfold cpython_strptime_ymd, strftime_date.
  rewrite strftime_year_pad4 by assumption.
  rewrite strptime_year_pad4 by lia.
  cbn [obind String.append expect_dash Ascii.eqb Bool.eqb].
  rewrite strptime_month_pad2 by assumption.
  cbn [obind String.append expect_dash Ascii.eqb Bool.eqb].
  pose proof (days_in_month_le_31 (year dt) (month dt)) as H31.
  rewrite strptime_day_pad2 by lia.
  cbn [obind].
  replace ((1 <=? year dt) && (day dt <=? days_in_month (year dt) (month dt)))
    with true; [reflexivity|].
  symmetry. apply andb_true_intro. split; apply Z.leb_le; lia.
Qed.

(** [strptime] asks for the four digits of a year: it does not read a date
    that [strftime('%Y-%m-%d')] wrote for a year before 1000. *)
Lemma cpython_strptime_ymd_early_year (dt : datetime) :
  year dt < 1000 -> cpython_strptime_ymd (strftime_date dt) = None.
Proof.
  intros H. unfold cpython_strptime_ymd, strftime_date, strftime_year.
  assert (Hdash : digit_val "-"%char = None) by reflexivity.
  destruct (year dt <? 10);
    [|destruct (year dt <? 100);
      [|destruct (year dt <? 1000) eqn:E; [|lia]]];
    unfold strptime_year, pad2; cbn [String.append];
    rewrite ?digit_val_digit, Hdash; reflexivity.
Qed.

Lemma strftime_date_not_empty (dt : datetime) : strftime_date dt <> ""%string.
Proof.
  unfold strftime_date, strftime_year, pad4, pad2.
  destruct (year dt <? 10); [|destruct (year dt <? 100);
                                [|destruct (year dt <? 1000)]];
    cbn [String.append]; discriminate.
Qed.

(** The date filter shows the month and the day of a date that the
    normaliser formatted from a timestamp of the year 1000 or later; it
    leaves a string as it is when [strptime] does not read it, as the date
    the normaliser formatted for a year before 1000, which has fewer than
    four digits of year, the raw timestamp of a fixture whose timestamp did
    not parse, or the placeholder date; and it shows its own placeholder
    for a value that is false as a condition. *)
Theorem format_date_filter_formatted :
  (forall dt,
     valid_date dt -> 1000 <= year dt ->
     format_date_filter cpython_strptime_ymd (VStr (strftime_date dt))
     = VStr (strftime_month_day dt))
  /\ (forall dt,
        year dt < 1000 ->
        format_date_filter cpython_strptime_ymd (VStr (strftime_date dt))
        = VStr (strftime_date dt))
  /\ (forall strptime s,
        strptime s = None ->
        s <> ""%string ->
        format_date_filter strptime (VStr s) = VStr s)
  /\ cpython_strptime_ymd "not-a-date" = None
  /\ cpython_strptime_ymd "未知日期" = None
  /\ (forall strptime v,
        truthy v = false -> format_date_filter strptime v = VStr "待定").
Proof.
  assert (Hkept : forall strptime s,
            strptime s = None -> s <> ""%string ->
            format_date_filter strptime (VStr s) = VStr s).
  { intros strptime s Hnone Hs. unfold format_date_filter.
    cbn [truthy].
    destruct (String.eqb s "") eqn:E.
    + apply String.eqb_eq in E. contradiction.
    + cbn [negb]. now rewrite Hnone. }
  split; [|split; [|split; [|split; [|split]]]].
  - intros dt Hdt H1000. unfold format_date_filter.
    assert (Ht : truthy (VStr (strftime_date dt)) = true).
    { cbn [truthy]. destruct (String.eqb (strftime_date dt) "") eqn:E;
        [|reflexivity].
      apply String.eqb_eq in E. now apply strftime_date_not_empty in E. }
    rewrite Ht.
    rewrite (cpython_strptime_ymd_strftime_date dt Hdt H1000). reflexivity.
  - intros dt Hy. apply Hkept.
    + now apply cpython_strptime_ymd_early_year.
    + apply strftime_date_not_empty.
  - exact Hkept.
  - vm_compute. reflexivity.
  - vm_compute. reflexivity.
  - intros strptime v Hv. unfold format_date_filter. now rewrite Hv.
Qed.

Lemma format_date_filter_formatted_witness :
  format_date_filter cpython_strptime_ymd
    (VStr (strftime_date (mkdt 2024 2 29 15 0 0 0 (Some 0))))
  = VStr (strftime_month_day (mkdt 2024 2 29 15 0 0 0 (Some 0)))
  /\ format_date_filter cpython_strptime_ymd
       (VStr (strftime_date (mkdt 999 6 15 12 0 0 0 (Some 0))))
     = VStr "999-06-15".
Proof.
  split.
  - apply (proj1 format_date_filter_formatted).
    + unfold valid_date. cbn [year month day].
      repeat split; try lia; vm_compute; discriminate.
    + cbn [year]. lia.
  - apply (proj1 (proj2 format_date_filter_formatted)
             (mkdt 999 6 15 12 0 0 0 (Some 0))).
    cbn [year]. lia.
Defined.

(** ** [league_icon_filter] *)

Lemma prefix_iff (key name : string) :
  String.prefix key name = true <-> exists b, name = (key ++ b)%string.
Proof.
  revert name. induction key as [|a key IH]; intros name.
  - destruct name; cbn; split; eauto.
  - destruct name as [|c name]; cbn.
    + split; [discriminate|]. intros [b H]. discriminate.
    + destruct (ascii_dec a c) as [->|Hne].
      * split.
        -- intros H. apply IH in H. destruct H as [b ->]. now exists b.
        -- intros [b H]. injection H as ->. apply IH. now exists b.
      * split; [discriminate|]. intros [b H]. injection H as E _.
        symmetry in E. contradiction.
Qed.

(** [contains key name] says that [key] occurs in [name]. *)
Lemma contains_iff (key name : string) :
  contains key name = true <-> exists a b, name = (a ++ key ++ b)%string.
Proof.
  induction name as [|c name IH]; cbn [contains].
  - rewrite orb_false_r, prefix_iff. split.
    + intros [b H]. now exists EmptyString, b.
    + intros (a & b & H). destruct a; [now exists b|discriminate].
  - rewrite orb_true_iff, IH, prefix_iff. split.
    + intros [[b H]|(a & b & H)].
      * now exists EmptyString, b.
      * exists (String c a), b. simpl. now rewrite H.
    + intros (a & b & H). destruct a as [|c' a]; simpl in H.
      * left. now exists b.
      * right. injection H as _ H. now exists a, b.
Qed.

(** On a name that is a string, [league_icon_filter] returns the icon of
    the first key of its table, in the order of the source, that occurs in
    the name, and the default icon when no key occurs in it; on a name that
    is null or a number it raises [TypeError]. *)
Theorem league_icon_filter_first_match :
  (forall name,
     exists icon,
       league_icon_filter (VStr name) = Ok icon
       /\ ((icon = "default-league"%string
            /\ forall key i, In (key, i) league_icons ->
                             contains key name = false)
           \/ exists before key after,
                league_icons = before ++ (key, icon) :: after
                /\ contains key name = true
                /\ Forall (fun entry => contains (fst entry) name = false)
                     before))
  /\ (forall key name,
        contains key name = true <->
        exists a b, name = (a ++ key ++ b)%string)
  /\ league_icon_filter VNone = Raise TypeError
  /\ (forall z, league_icon_filter (VInt z) = Raise TypeError).
Proof.
  split; [|split; [|split]].
  - intros name. unfold league_icon_filter.
    destruct (find (fun entry => contains (fst entry) name) league_icons)
      as [[key icon]|] eqn:E.
    + exists icon. split; [reflexivity|]. right.
      apply find_first in E. destruct E as (before & after & Hl & Hk & Hb).
      now exists before, key, after.
    + exists "default-league"%string. split; [reflexivity|]. left.
      split; [reflexivity|]. intros key i Hin.
      apply (find_none _ _ E (key, i) Hin).
  - apply contains_iff.
  - reflexivity.
  - reflexivity.
Qed.

Lemma league_icon_filter_first_match_witness :
  exists icon,
    league_icon_filter (VStr "英格蘭英超聯賽") = Ok icon
    /\ ((icon = "default-league"%string
         /\ forall key i, In (key, i) league_icons ->
                          contains key "英格蘭英超聯賽" = false)
        \/ exists before key after,
             league_icons = before ++ (key, icon) :: after
             /\ contains key "英格蘭英超聯賽" = true
             /\ Forall (fun entry => contains (fst entry) "英格蘭英超聯賽" = false)
                  before).
Proof. apply (proj1 league_icon_filter_first_match "英格蘭英超聯賽"%string). Defined.

(** ** The file name of a league page *)

Section SafeNameFacts.
Variable char : Type.
Variable char_eqb : char -> char -> bool.
Variables isalnum isspace : char -> bool.
Variables space hyphen underscore : char.
Hypothesis char_eqb_eq : forall a b, char_eqb a b = true <-> a = b.

Lemma lstrip_chars_nil (l : list char) :
  lstrip_chars char isspace l = [] <-> Forall (fun c => isspace c = true) l.
Proof.
  induction l as [|c l IH]; simpl.
  - split; [constructor|reflexivity].
  - destruct (isspace c) eqn:E.
    + rewrite IH. split; [now constructor|now inversion 1].
    + split; [discriminate|]. inversion 1. congruence.
Qed.

Lemma lstrip_chars_incl (l : list char) (c : char) :
  In c (lstrip_chars char isspace l) -> In c l.
Proof.
  induction l as [|a l IH]; simpl; [tauto|].
  destruct (isspace a); [|tauto]. intros H. right. now apply IH.
Qed.

Lemma strip_chars_incl (l : list char) (c : char) :
  In c (strip_chars char isspace l) -> In c l.
Proof.
  unfold strip_chars. intros H. apply in_rev in H.
  apply lstrip_chars_incl in H. apply in_rev in H.
  now apply lstrip_chars_incl in H.
Qed.

Lemma lstrip_chars_head (l : list char) (c : char) (l' : list char) :
  lstrip_chars char isspace l = c :: l' -> isspace c = false.
Proof.
  induction l as [|a l IH]; simpl; [discriminate|].
  destruct (isspace a) eqn:E; [exact IH|].
  intros H. injection H as <- _. exact E.
Qed.

Lemma strip_chars_nil (l : list char) :
  strip_chars char isspace l = [] <-> Forall (fun c => isspace c = true) l.
Proof.
  unfold strip_chars. rewrite <- lstrip_chars_nil. split.
  - intros H. apply (f_equal (@rev char)) in H. rewrite rev_involutive in H.
    simpl in H. apply lstrip_chars_nil in H.
    destruct (lstrip_chars char isspace l) as [|c l'] eqn:E; [reflexivity|].
    apply lstrip_chars_head in E.
    rewrite Forall_forall in H.
    assert (Hc : In c (rev (c :: l'))) by (apply (proj1 (in_rev (c :: l') c)); now left).
    apply H in Hc. congruence.
  - intros H. rewrite H. reflexivity.
Qed.
Lemma lstrip_chars_length (l : list char) :
  (List.length (lstrip_chars char isspace l) <= List.length l)%nat.
Proof.
  induction l as [|a l IH]; simpl; [lia|].
  destruct (isspace a); simpl; lia.
Qed.

Lemma strip_chars_length (l : list char) :
  (List.length (strip_chars char isspace l) <= List.length l)%nat.
Proof.
  unfold strip_chars. rewrite length_rev.
  etransitivity; [apply lstrip_chars_length|].
  rewrite length_rev. apply lstrip_chars_length.
Qed.

Lemma replace_char_In (a b : char) (l : list char) (c : char) :
  In c (replace_char char char_eqb a b l) -> c = b \/ (In c l /\ c <> a).
Proof.
  unfold replace_char. rewrite in_map_iff. intros (x & Hx & Hin).
  destruct (char_eqb x a) eqn:E.
  - left. now symmetry.
  - right. subst x. split; [exact Hin|]. intros ->.
    assert (char_eqb a a = true) by now apply char_eqb_eq.
    congruence.
Qed.

Lemma kept_cases (c : char) :
  kept char char_eqb isalnum space hyphen underscore c = true ->
  isalnum c = true \/ c = space \/ c = hyphen \/ c = underscore.
Proof.
  unfold kept. rewrite !orb_true_iff, !char_eqb_eq. tauto.
Qed.

(** The file name that [generate_league_pages] derives from a league name:
    when every character the filter keeps is whitespace, it is the
    fall-back name; otherwise it is not empty, no longer than the league
    name, and each of its characters is alphanumeric or an underscore and is
    neither a space nor a hyphen. *)
Theorem safe_name_characters
  (Hspace : underscore <> space) (Hhyphen : underscore <> hyphen)
  (league_name fallback : list char) :
  let kept_chars :=
    filter (kept char char_eqb isalnum space hyphen underscore) league_name in
  let name :=
    safe_name char char_eqb isalnum isspace space hyphen underscore
      league_name fallback in
  (Forall (fun c => isspace c = true) kept_chars -> name = fallback)
  /\ (~ Forall (fun c => isspace c = true) kept_chars ->
      name <> []
      /\ (List.length name <= List.length league_name)%nat
      /\ Forall (fun c => (isalnum c = true \/ c = underscore)
                          /\ c <> space /\ c <> hyphen) name).
Proof.
  intros kept_chars name. subst name. unfold safe_name.
  fold kept_chars.
  destruct (strip_chars char isspace kept_chars) as [|c0 safe] eqn:E.
  - split; [reflexivity|]. intros H. exfalso. apply H.
    now apply strip_chars_nil.
  - split.
    + intros H. apply strip_chars_nil in H. congruence.
    + intros _.
      assert (Hlen : (List.length (c0 :: safe) <= List.length league_name)%nat).
      { rewrite <- E. etransitivity; [apply strip_chars_length|].
        apply filter_length_le. }
      assert (Hin : forall c, In c (c0 :: safe) ->
                isalnum c = true \/ c = space \/ c = hyphen \/ c = underscore).
      { intros c Hc. rewrite <- E in Hc. apply strip_chars_incl in Hc.
        apply filter_In in Hc. now apply kept_cases. }
      remember (c0 :: safe) as l eqn:El.
      assert (Hne : replace_char char char_eqb hyphen underscore
                      (replace_char char char_eqb space underscore l) <> []).
      { subst l. discriminate. }
      destruct (replace_char char char_eqb hyphen underscore
                  (replace_char char char_eqb space underscore l))
        as [|c1 l1] eqn:El1; [contradiction|].
      split; [discriminate|]. split.
      * rewrite <- El1. unfold replace_char. now rewrite !length_map.
      * apply Forall_forall. intros c Hc. rewrite <- El1 in Hc.
        apply replace_char_In in Hc. destruct Hc as [->|[Hc Hh]].
        { split; [now right|]. now split. }
        apply replace_char_In in Hc. destruct Hc as [->|[Hc Hs]].
        { split; [now right|]. now split. }
        split; [|now split].
        destruct (Hin c Hc) as [H|[H|[H|H]]]; try contradiction;
          [now left|now right].
Qed.
End SafeNameFacts.

Lemma safe_name_characters_witness :
  let league_name := list_ascii_of_string "Serie A - 2024" in
  let fallback := list_ascii_of_string "league_135" in
  let kept_chars :=
    filter (kept ascii Ascii.eqb ascii_isalnum " " "-" "_")%char league_name in
  let name :=
    safe_name ascii Ascii.eqb ascii_isalnum is_space " "%char "-"%char "_"%char
      league_name fallback in
  name = list_ascii_of_string "Serie_A___2024"
  /\ (Forall (fun c => is_space c = true) kept_chars -> name = fallback)
  /\ (~ Forall (fun c => is_space c = true) kept_chars ->
      name <> []
      /\ (List.length name <= List.length league_name)%nat
      /\ Forall (fun c => (ascii_isalnum c = true \/ c = "_"%char)
                          /\ c <> " "%char /\ c <> "-"%char) name).
Proof.
  split; [vm_compute; reflexivity|].
  apply (safe_name_characters ascii Ascii.eqb ascii_isalnum is_space
           " "%char "-"%char "_"%char Ascii.eqb_eq);
    discriminate.
Defined.

(** * Properties of the generator of [html_builder.py] *)

(** ** Running a method *)

Lemma gbind_returned {A B : Type} (m : gen A) (k : A -> gen B)
  (st st' : state) (b : B) :
  gbind m k st = (Returned b, st') ->
  exists a st1, m st = (Returned a, st1) /\ k a st1 = (Returned b, st').
Proof.
  unfold gbind. destruct (m st) as [[a|f] st1]; [eauto|discriminate].
Qed.

Lemma gbind_run {A B : Type} (m : gen A) (k : A -> gen B)
  (st st1 : state) (a : A) :
  m st = (Returned a, st1) -> gbind m k st = k a st1.
Proof. unfold gbind. now intros ->. Qed.

Lemma gbind_fails {A B : Type} (m : gen A) (k : A -> gen B)
  (st st1 : state) (f : failure) :
  m st = (Failed f, st1) -> gbind m k st = (Failed f, st1).
Proof. unfold gbind. now intros ->. Qed.

Lemma lift_returned {A : Type} (r : result A) (st st' : state) (a : A) :
  lift r st = (Returned a, st') -> r = Ok a /\ st' = st.
Proof.
  unfold lift. destruct r; intros H; inversion H; now subst.
Qed.

Lemma perform_returned (site : Site) (e : event) (st st' : state) (x : unit) :
  perform site e st = (Returned x, st') ->
  st' = mkstate (events st ++ [e]) (clock_reads st).
Proof.
  unfold perform. destruct (permits site (events st) e); intros H;
    inversion H; now subst.
Qed.

Lemma perform_permitted (site : Site) (e : event) (st : state) :
  permissive site ->
  perform site e st = (Returned tt, mkstate (events st ++ [e]) (clock_reads st)).
Proof. intros H. unfold perform. now rewrite H. Qed.

Lemma state_eta (st : state) : mkstate (events st) (clock_reads st) = st.
Proof. now destruct st. Qed.

Lemma fixtures_or_get_returned (rt : Runtime) (w : World) (ids : list Z)
  (arg : option (list fixture)) (days_ahead : Z) (st st' : state)
  (fixtures : list fixture) :
  fixtures_or_get rt w ids arg days_ahead st = (Returned fixtures, st') ->
  match arg with
  | Some l => fixtures = l
  | None => get_fixtures rt w ids days_ahead = Ok fixtures
  end /\ st' = st.
Proof.
  destruct arg as [l|]; simpl; intros H.
  - inversion H. now subst.
  - now apply lift_returned in H.
Qed.

(** ** [generate_json_api] *)

Lemma app_assoc_cons {A : Type} (l : list A) (x : A) (r : list A) :
  (l ++ [x]) ++ r = l ++ x :: r.
Proof. now rewrite <- app_assoc. Qed.

Lemma generate_json_api_returned (rt : Runtime) (w : World) (ids : list Z)
  (site : Site) (arg : option (list fixture)) (st st' : state)
  (paths : api_paths) :
  generate_json_api rt w ids site arg st = (Returned paths, st') ->
  exists fixtures by_league by_date,
    match arg with
    | Some l => fixtures = l
    | None => get_fixtures rt w ids 7 = Ok fixtures
    end
    /\ get_fixtures_by_league fixtures = Ok by_league
    /\ get_fixtures_by_date fixtures = Ok by_date
    /\ let api_dir := join site (output_dir site) "api" in
       let t := fun k => isoformat (clock site (clock_reads st + k)) in
       let counts :=
         map (fun item => (fst item, league_name (snd item),
                           List.length (league_fixtures (snd item))))
           by_league in
       paths = mkapi (join site api_dir "fixtures.json")
                 (join site api_dir "leagues.json")
                 (join site api_dir "dates.json")
                 (join site api_dir "stats.json")
       /\ events st'
          = events st
            ++ [ Mkdir api_dir;
                 Write (fixtures_path paths)
                   (Json (FullData "success" (List.length fixtures) (t 0%nat)
                            fixtures));
                 Write (leagues_path paths)
                   (Json (LeaguesData "success" (List.length by_league)
                            (t 1%nat) by_league));
                 Write (dates_path paths)
                   (Json (DatesData "success" (List.length by_date) (t 2%nat)
                            by_date));
                 Write (stats_path paths)
                   (Json (StatsData "success" (t 3%nat)
                            (List.length fixtures) (List.length by_league)
                            (List.length by_date) counts)) ]
       /\ clock_reads st' = (clock_reads st + 4)%nat.
Proof.
  intros H. unfold generate_json_api in H.
  apply gbind_returned in H. destruct H as (fixtures & st0 & Hf & H).
  apply fixtures_or_get_returned in Hf. destruct Hf as [Hfix ->].
  apply gbind_returned in H. destruct H as ([] & st1 & H1 & H).
  apply perform_returned in H1. subst st1.
  apply gbind_returned in H. destruct H as (t0 & st2 & H2 & H).
  unfold now in H2. injection H2 as <- <-. cbn [events clock_reads] in H.
  apply gbind_returned in H. destruct H as ([] & st3 & H3 & H).
  apply perform_returned in H3. subst st3. cbn [events clock_reads] in H.
  apply gbind_returned in H. destruct H as (by_league & st4 & H4 & H).
  apply lift_returned in H4. destruct H4 as [Hl ->].
  apply gbind_returned in H. destruct H as (t1 & st5 & H5 & H).
  unfold now in H5. injection H5 as <- <-. cbn [events clock_reads] in H.
  apply gbind_returned in H. destruct H as ([] & st6 & H6 & H).
  apply perform_returned in H6. subst st6. cbn [events clock_reads] in H.
  apply gbind_returned in H. destruct H as (by_date & st7 & H7 & H).
  apply lift_returned in H7. destruct H7 as [Hd ->].
  apply gbind_returned in H. destruct H as (t2 & st8 & H8 & H).
  unfold now in H8. injection H8 as <- <-. cbn [events clock_reads] in H.
  apply gbind_returned in H. destruct H as ([] & st9 & H9 & H).
  apply perform_returned in H9. subst st9. cbn [events clock_reads] in H.
  apply gbind_returned in H. destruct H as (t3 & st10 & H10 & H).
  unfold now in H10. injection H10 as <- <-. cbn [events clock_reads] in H.
  apply gbind_returned in H. destruct H as ([] & st11 & H11 & H).
  apply perform_returned in H11. subst st11. cbn [events clock_reads] in H.
  unfold ret in H. injection H as <- <-.
  exists fixtures, by_league, by_date.
  split; [exact Hfix|]. split; [exact Hl|]. split; [exact Hd|].
  cbn zeta. split; [reflexivity|]. split.
  { cbn [events fixtures_path leagues_path dates_path stats_path].
    rewrite !app_assoc_cons. rewrite !Nat.add_0_r.
    replace (clock_reads st + 1)%nat with (S (clock_reads st)) by lia.
    replace (clock_reads st + 2)%nat with (S (S (clock_reads st))) by lia.
    replace (clock_reads st + 3)%nat with (S (S (S (clock_reads st)))) by lia.
    reflexivity. }
  cbn [clock_reads]. lia.
Qed.

Lemma generate_json_api_returns (rt : Runtime) (w : World) (ids : list Z)
  (site : Site) (fixtures : list fixture) (st : state)
  (by_league : list (value * league)) (by_date : list (value * list fixture)) :
  get_fixtures_by_league fixtures = Ok by_league ->
  get_fixtures_by_date fixtures = Ok by_date ->
  permissive site ->
  exists paths st',
    generate_json_api rt w ids site (Some fixtures) st = (Returned paths, st').
Proof.
  intros Hl Hd Hp. unfold generate_json_api, fixtures_or_get.
  unfold gbind, ret, lift, now, perform. cbn [events clock_reads].
  rewrite Hl, Hd. rewrite !Hp. eauto.
Qed.

(** Whenever [generate_json_api] returns, it has made the [api] directory and
    written [fixtures.json], [leagues.json], [dates.json] and [stats.json],
    in this order and nothing else, each with its own reading of the clock,
    and it returns their paths.  The statistics agree with the data: the
    counts of the competitions add up to [total_fixtures], the number of
    fixtures, and no competition is listed with the count 0. *)
Theorem generate_json_api_counts (rt : Runtime) (w : World) (ids : list Z)
  (site : Site) (arg : option (list fixture)) (st st' : state)
  (paths : api_paths) :
  generate_json_api rt w ids site arg st = (Returned paths, st') ->
  exists fixtures by_league by_date,
    match arg with
    | Some l => fixtures = l
    | None => get_fixtures rt w ids 7 = Ok fixtures
    end
    /\ get_fixtures_by_league fixtures = Ok by_league
    /\ get_fixtures_by_date fixtures = Ok by_date
    /\ let api_dir := join site (output_dir site) "api" in
       let t := fun k => isoformat (clock site (clock_reads st + k)) in
       let counts :=
         map (fun item => (fst item, league_name (snd item),
                           List.length (league_fixtures (snd item))))
           by_league in
       paths = mkapi (join site api_dir "fixtures.json")
                 (join site api_dir "leagues.json")
                 (join site api_dir "dates.json")
                 (join site api_dir "stats.json")
       /\ events st'
          = events st
            ++ [ Mkdir api_dir;
                 Write (fixtures_path paths)
                   (Json (FullData "success" (List.length fixtures) (t 0%nat)
                            fixtures));
                 Write (leagues_path paths)
                   (Json (LeaguesData "success" (List.length by_league)
                            (t 1%nat) by_league));
                 Write (dates_path paths)
                   (Json (DatesData "success" (List.length by_date) (t 2%nat)
                            by_date));
                 Write (stats_path paths)
                   (Json (StatsData "success" (t 3%nat)
                            (List.length fixtures) (List.length by_league)
                            (List.length by_date) counts)) ]
       /\ list_sum (map snd counts) = List.length fixtures
       /\ Forall (fun c => (1 <= snd c)%nat) counts.
Proof.
  intros H. apply generate_json_api_returned in H.
  destruct H as (fixtures & by_league & by_date & Hfix & Hl & Hd & H).
  cbn zeta in H. destruct H as (Hpaths & He & _).
  exists fixtures, by_league, by_date.
  split; [exact Hfix|]. split; [exact Hl|]. split; [exact Hd|].
  cbn zeta. split; [exact Hpaths|]. split; [exact He|].
  destruct (get_fixtures_by_league_groups fixtures by_league Hl) as [Hg Hs].
  split.
  - rewrite map_map. cbn [snd].
    apply (groups_of_length league_fixtures league_key by_league fixtures Hg).
  - apply Forall_map. apply Forall_forall. intros [k g] Hin. cbn [snd fst].
    apply sorted_perm in Hs.
    apply Permutation_in with (l' := group_by_league fixtures) in Hin;
      [|now apply Permutation_sym].
    pose proof (group_by_league_headers fixtures) as Hh.
    rewrite Forall_forall in Hh.
    destruct (Hh (k, g) Hin) as (f0 & rest & Hitems & _).
    cbn [snd] in Hitems. rewrite Hitems. simpl. lia.
Qed.

(** On a file system that performs every operation, a grouping that raises
    leaves part of the API behind: when [get_fixtures_by_league] raises,
    [generate_json_api] raises the same exception after it has written
    [fixtures.json], and when only [get_fixtures_by_date] raises, after it
    has written [fixtures.json] and [leagues.json]. *)
Theorem generate_json_api_partial (rt : Runtime) (w : World) (ids : list Z)
  (site : Site) (fixtures : list fixture) (st : state) :
  permissive site ->
  let api_dir := join site (output_dir site) "api" in
  let t := fun k => isoformat (clock site (clock_reads st + k)) in
  let full :=
    Write (join site api_dir "fixtures.json")
      (Json (FullData "success" (List.length fixtures) (t 0%nat) fixtures)) in
  (forall e,
     get_fixtures_by_league fixtures = Raise e ->
     generate_json_api rt w ids site (Some fixtures) st
     = (Failed (Raised e),
        mkstate (events st ++ [Mkdir api_dir; full]) (clock_reads st + 1)))
  /\ (forall by_league e,
        get_fixtures_by_league fixtures = Ok by_league ->
        get_fixtures_by_date fixtures = Raise e ->
        generate_json_api rt w ids site (Some fixtures) st
        = (Failed (Raised e),
           mkstate
             (events st
              ++ [ Mkdir api_dir; full;
                   Write (join site api_dir "leagues.json")
                     (Json (LeaguesData "success" (List.length by_league)
                              (t 1%nat) by_league)) ])
             (clock_reads st + 2))).
Proof.
  intros Hfs api_dir t full. subst t full. cbn beta.
  split.
  - intros e He. unfold generate_json_api, fixtures_or_get.
    unfold gbind at 1. unfold ret at 1.
    erewrite gbind_run by (apply perform_permitted; exact Hfs).
    unfold gbind at 1. unfold now at 1. cbn [events clock_reads].
    erewrite gbind_run by (apply perform_permitted; exact Hfs).
    rewrite He. unfold gbind, lift. cbn [events clock_reads].
    rewrite !app_assoc_cons, Nat.add_0_r.
    replace (clock_reads st + 1)%nat with (S (clock_reads st)) by lia.
    reflexivity.
  - intros by_league e Hl He. unfold generate_json_api, fixtures_or_get.
    unfold gbind at 1. unfold ret at 1.
    erewrite gbind_run by (apply perform_permitted; exact Hfs).
    unfold gbind at 1. unfold now at 1. cbn [events clock_reads].
    erewrite gbind_run by (apply perform_permitted; exact Hfs).
    rewrite Hl. unfold gbind at 1. unfold lift at 1.
    unfold gbind at 1. unfold now at 1. cbn [events clock_reads].
    erewrite gbind_run by (apply perform_permitted; exact Hfs).
    rewrite He. unfold gbind, lift. cbn [events clock_reads].
    rewrite !app_assoc_cons, Nat.add_0_r.
    replace (clock_reads st + 1)%nat with (S (clock_reads st)) by lia.
    replace (clock_reads st + 2)%nat with (S (S (clock_reads st))) by lia.
    reflexivity.
Qed.

(** ** [generate_index] *)

Lemma generate_index_raises (rt : Runtime) (w : World) (ids : list Z)
  (site : Site) (fixtures : list fixture) (days_ahead : Z) (st : state)
  (e : exn) :
  get_fixtures_by_date fixtures = Raise e
  \/ (exists by_date, get_fixtures_by_date fixtures = Ok by_date
                      /\ get_fixtures_by_league fixtures = Raise e) ->
  generate_index rt w ids site (Some fixtures) days_ahead st
  = (Failed (Raised e), st).
Proof.
  unfold generate_index, fixtures_or_get.
  intros [H|(by_date & Hd & H)].
  - unfold gbind at 1. unfold ret at 1. rewrite H. reflexivity.
  - unfold gbind at 1. unfold ret at 1. rewrite Hd.
    unfold gbind at 1. unfold lift at 1. rewrite H. reflexivity.
Qed.

(** [generate_all] writes nothing when the reader fails: when
    [get_fixtures] raises, or one of the two groupings raises on its
    fixtures, [generate_all] raises the same exception, it has performed no
    operation on the file system and it has reached none of the generator's
    own calls of [datetime.now()] (the reader's reading of the clock, inside
    [get_fixtures], is not part of this state).  So whenever a run of
    [generate_all] has made a directory, written a file or reached one of
    these calls, [get_fixtures] and both groupings have returned. *)
Theorem generate_all_nothing_written (rt : Runtime) (w : World)
  (ids : list Z) (u : Unicode) (site : Site) (days_ahead : Z) (st : state) :
  (forall e,
     get_fixtures rt w ids days_ahead = Raise e ->
     generate_all rt w ids u site days_ahead st = (Failed (Raised e), st))
  /\ (forall fixtures e,
        get_fixtures rt w ids days_ahead = Ok fixtures ->
        get_fixtures_by_date fixtures = Raise e
        \/ (exists by_date, get_fixtures_by_date fixtures = Ok by_date
                            /\ get_fixtures_by_league fixtures = Raise e) ->
        generate_all rt w ids u site days_ahead st = (Failed (Raised e), st))
  /\ (forall out st',
        generate_all rt w ids u site days_ahead st = (out, st') ->
        st' <> st ->
        exists fixtures by_date by_league,
          get_fixtures rt w ids days_ahead = Ok fixtures
          /\ get_fixtures_by_date fixtures = Ok by_date
          /\ get_fixtures_by_league fixtures = Ok by_league).
Proof.
  assert (Hraise : forall e,
            get_fixtures rt w ids days_ahead = Raise e ->
            generate_all rt w ids u site days_ahead st
            = (Failed (Raised e), st)).
  { intros e H. unfold generate_all. unfold gbind at 1. now rewrite H. }
  assert (Hgroup : forall fixtures e,
            get_fixtures rt w ids days_ahead = Ok fixtures ->
            get_fixtures_by_date fixtures = Raise e
            \/ (exists by_date, get_fixtures_by_date fixtures = Ok by_date
                                /\ get_fixtures_by_league fixtures = Raise e) ->
            generate_all rt w ids u site days_ahead st
            = (Failed (Raised e), st)).
  { intros fixtures e H He. unfold generate_all. unfold gbind at 1.
    rewrite H. unfold lift.
    apply gbind_fails. now apply generate_index_raises. }
  split; [exact Hraise|]. split; [exact Hgroup|].
  intros out st' H Hst.
  destruct (get_fixtures rt w ids days_ahead) as [fixtures|e] eqn:Ef.
  - destruct (get_fixtures_by_date fixtures) as [by_date|e] eqn:Ed.
    + destruct (get_fixtures_by_league fixtures) as [by_league|e] eqn:El.
      * now exists fixtures, by_date, by_league.
      * rewrite (Hgroup fixtures e eq_refl) in H by eauto.
        injection H as _ <-. contradiction.
    + rewrite (Hgroup fixtures e eq_refl) in H by eauto.
      injection H as _ <-. contradiction.
  - rewrite (Hraise e eq_refl) in H. injection H as _ <-. contradiction.
Qed.

(** ** [generate_league_pages] *)

Lemma written_app (l r : list event) : written (l ++ r) = written l ++ written r.
Proof.
  induction l as [|[p|p c] l IH]; simpl; [reflexivity|assumption|].
  now rewrite IH.
Qed.

(** A turn of the loop that returns has rendered the page, made the
    directory and written the page, and has read the clock once. *)
Lemma league_page_returned (u : Unicode) (site : Site)
  (pages pages' : list (value * string)) (item : value * league)
  (st st' : state) :
  league_page u site pages item st = (Returned pages', st') ->
  exists p html,
    page_path u site item = Ok p
    /\ pages' = dset value_eqb (fst item) p pages
    /\ events st'
       = events st ++ [Mkdir (join site (output_dir site) "leagues");
                       Write p (Html html)]
    /\ clock_reads st' = S (clock_reads st).
Proof.
  intros H. unfold league_page in H.
  apply gbind_returned in H. destruct H as (t & st1 & H1 & H).
  unfold now in H1. injection H1 as <- <-.
  apply gbind_returned in H. destruct H as (html & st2 & H2 & H).
  injection H2 as H2 <-.
  apply gbind_returned in H. destruct H as ([] & st3 & H3 & H).
  apply perform_returned in H3. subst st3. cbn [events clock_reads] in H.
  apply gbind_returned in H. destruct H as (safe_name & st4 & H4 & H).
  apply lift_returned in H4. destruct H4 as [Hn ->].
  apply gbind_returned in H. destruct H as ([] & st5 & H5 & H).
  apply perform_returned in H5. subst st5. cbn [events clock_reads] in H.
  unfold ret in H. injection H as <- <-.
  exists (join site (join site (output_dir site) "leagues")
            (safe_name ++ ".html")%string), html.
  split; [unfold page_path; now rewrite Hn|].
  split; [reflexivity|]. cbn [events clock_reads].
  now rewrite app_assoc_cons.
Qed.

Lemma league_page_loop_returned (u : Unicode) (site : Site)
  (items : list (value * league)) :
  forall (pages pages' : list (value * string)) (st st' : state),
    league_page_loop u site pages items st = (Returned pages', st') ->
    exists paths new,
      Forall2 (fun item p => page_path u site item = Ok p) items paths
      /\ pages'
         = fold_left (fun acc kp => dset value_eqb (fst kp) (snd kp) acc)
             (combine (map fst items) paths) pages
      /\ events st' = events st ++ new
      /\ written new = paths
      /\ clock_reads st' = (clock_reads st + List.length items)%nat.
Proof.
  induction items as [|item items IH]; intros pages pages' st st' H.
  - simpl in H. unfold ret in H. injection H as <- <-.
    exists [], []. simpl. rewrite app_nil_r, Nat.add_0_r.
    repeat split. constructor.
  - cbn [league_page_loop] in H.
    apply gbind_returned in H. destruct H as (pages1 & st1 & H1 & H).
    apply league_page_returned in H1.
    destruct H1 as (p & html & Hp & -> & He & Hc).
    apply IH in H. destruct H as (paths & new & HF & -> & He' & Hw & Hc').
    exists (p :: paths),
      (Mkdir (join site (output_dir site) "leagues") :: Write p (Html html)
       :: new).
    split; [now constructor|]. split; [reflexivity|]. split.
    + rewrite He', He. now rewrite <- app_assoc.
    + split; [simpl; now rewrite Hw|]. rewrite Hc', Hc. simpl. lia.
Qed.

Lemma fold_dset_fresh (keys : list value) :
  forall (paths : list string) (pages : list (value * string)),
    NoDup (map fst pages ++ keys) ->
    List.length paths = List.length keys ->
    fold_left (fun acc kp => dset value_eqb (fst kp) (snd kp) acc)
      (combine keys paths) pages
    = pages ++ combine keys paths.
Proof.
  induction keys as [|k keys IH]; intros paths pages Hnd Hlen.
  - simpl. now rewrite app_nil_r.
  - destruct paths as [|p paths]; [discriminate|].
    cbn [combine fold_left fst snd].
    rewrite (dset_fresh value_eqb value_eqb_eq).
    + rewrite IH.
      * now rewrite <- app_assoc.
      * rewrite map_app. simpl. rewrite <- app_assoc. exact Hnd.
      * simpl in Hlen. lia.
    + apply NoDup_remove_2 in Hnd. intros Hin. apply Hnd.
      apply in_or_app. now left.
Qed.

Lemma page_path_text (u : Unicode) (site : Site) (item : value * league)
  (p : string) :
  page_path u site item = Ok p -> is_str (league_name (snd item)) = true.
Proof.
  unfold page_path, page_file_name.
  destruct (league_name (snd item)); simpl; try discriminate. reflexivity.
Qed.

Lemma map_fst_combine {A B : Type} (l : list A) :
  forall r : list B, List.length r = List.length l -> map fst (combine l r) = l.
Proof.
  induction l as [|a l IH]; intros [|b r] H; simpl in *;
    try reflexivity; try discriminate.
  f_equal. apply IH. lia.
Qed.

Lemma map_snd_combine {A B : Type} (l : list A) :
  forall r : list B, List.length r = List.length l -> map snd (combine l r) = r.
Proof.
  induction l as [|a l IH]; intros [|b r] H; simpl in *;
    try reflexivity; try discriminate.
  f_equal. apply IH. lia.
Qed.

(** The loop over a mapping, from no page: the pages it returns are those
    of the competitions of the mapping, in their order. *)
Lemma league_page_loop_pages (u : Unicode) (site : Site)
  (items : list (value * league)) (pages : list (value * string))
  (st st' : state) :
  NoDup (map fst items) ->
  league_page_loop u site [] items st = (Returned pages, st') ->
  exists new,
    Forall (fun item => is_str (league_name (snd item)) = true) items
    /\ map fst pages = map fst items
    /\ Forall2 (fun item p => page_path u site item = Ok p)
         items (map snd pages)
    /\ events st' = events st ++ new
    /\ written new = map snd pages
    /\ clock_reads st' = (clock_reads st + List.length items)%nat.
Proof.
  intros Hnd H. apply league_page_loop_returned in H.
  destruct H as (paths & new & HF & -> & He & Hw & Hc).
  assert (Hlen : List.length paths = List.length (map fst items)).
  { rewrite length_map. symmetry. now apply Forall2_length in HF. }
  rewrite fold_dset_fresh by (simpl; assumption). simpl.
  rewrite (map_fst_combine _ _ Hlen), (map_snd_combine _ _ Hlen).
  exists new. repeat split; try assumption.
  clear -HF. induction HF; constructor; [|assumption].
  eapply page_path_text; eassumption.
Qed.

Lemma generate_league_pages_run (rt : Runtime) (w : World) (ids : list Z)
  (u : Unicode) (site : Site) (fixtures : list fixture)
  (by_league : list (value * league)) (st : state) :
  get_fixtures_by_league fixtures = Ok by_league ->
  generate_league_pages rt w ids u site (Some fixtures) st
  = league_page_loop u site [] by_league st.
Proof.
  intros Hl. unfold generate_league_pages, fixtures_or_get.
  unfold gbind at 1. unfold ret at 1. rewrite Hl.
  unfold gbind at 1. unfold lift at 1. reflexivity.
Qed.

(** Whenever [generate_league_pages] returns, the name of every competition
    is a string, the mapping it returns has the competitions of
    [get_fixtures_by_league] as keys, in the order of their display names,
    each with the path of its page, and the files it has written are these
    paths in this order; it has read the clock once for each competition. *)
Theorem generate_league_pages_returns (rt : Runtime) (w : World)
  (ids : list Z) (u : Unicode) (site : Site) (arg : option (list fixture))
  (st st' : state) (pages : list (value * string)) :
  generate_league_pages rt w ids u site arg st = (Returned pages, st') ->
  exists fixtures by_league new,
    match arg with
    | Some l => fixtures = l
    | None => get_fixtures rt w ids 7 = Ok fixtures
    end
    /\ get_fixtures_by_league fixtures = Ok by_league
    /\ Forall (fun item => is_str (league_name (snd item)) = true) by_league
    /\ map fst pages = map fst by_league
    /\ Forall2 (fun item p => page_path u site item = Ok p)
         by_league (map snd pages)
    /\ events st' = events st ++ new
    /\ written new = map snd pages
    /\ clock_reads st' = (clock_reads st + List.length by_league)%nat.
Proof.
  intros H. unfold generate_league_pages in H.
  apply gbind_returned in H. destruct H as (fixtures & st0 & Hf & H).
  apply fixtures_or_get_returned in Hf. destruct Hf as [Hf ->].
  apply gbind_returned in H. destruct H as (by_league & st1 & Hl & H).
  apply lift_returned in Hl. destruct Hl as [Hl ->].
  apply league_page_loop_pages in H.
  - destruct H as (new & H). exists fixtures, by_league, new.
    split; [exact Hf|]. split; [exact Hl|]. exact H.
  - apply (get_fixtures_by_league_groups fixtures by_league Hl).
Qed.

(** The file name of a page is the safe name of lines 195-198, with the
    fall-back name when it is empty. *)
Lemma page_file_name_safe_name (u : Unicode) (s : string) (id : value) :
  page_file_name u (VStr s) id
  = Ok match safe_name (code_point u) (code_point_eqb u) (isalnum u)
               (isspace u) (space u) (hyphen u) (underscore u)
               (code_points u s) [] with
       | [] => ("league_" ++ py_str id)%string
       | c :: l => of_code_points u (c :: l)
       end.
Proof.
  unfold page_file_name, safe_name.
  destruct (replace_char _ _ (hyphen u) (underscore u) _); reflexivity.
Qed.

(** In a mapping that is in the order of the display names, a name that is
    not a string is the first: a string is before strings only. *)
Lemma first_name_not_text (by_league : list (value * league)) :
  StronglySorted name_le by_league ->
  Exists (fun item => is_str (league_name (snd item)) = false) by_league ->
  exists item rest,
    by_league = item :: rest /\ is_str (league_name (snd item)) = false.
Proof.
  intros HS HE. destruct by_league as [|item rest]; [inversion HE|].
  exists item, rest. split; [reflexivity|].
  destruct (is_str (league_name (snd item))) eqn:E; [|reflexivity].
  exfalso. inversion HS as [|? ? _ Hle]. subst.
  inversion HE as [? ? H|? ? H]; subst; [congruence|].
  apply Exists_exists in H. destruct H as (x & Hx & Hn).
  rewrite Forall_forall in Hle. specialize (Hle x Hx).
  unfold name_le in Hle.
  destruct (league_name (snd item)); try discriminate.
  destruct (league_name (snd x)); simpl in *; try contradiction; discriminate.
Qed.

Lemma league_page_not_text (u : Unicode) (site : Site)
  (pages : list (value * string)) (item : value * league) (st : state) :
  is_str (league_name (snd item)) = false ->
  (exists f new st',
     league_page u site pages item st = (Failed f, st')
     /\ events st' = events st ++ new /\ written new = [])
  /\ (renders site -> permissive site ->
      league_page u site pages item st
      = (Failed (Raised TypeError),
         mkstate (events st ++ [Mkdir (join site (output_dir site) "leagues")])
           (S (clock_reads st)))).
Proof.
  intros Hn.
  assert (Hname : page_file_name u (league_name (snd item)) (fst item)
                  = Raise TypeError).
  { unfold page_file_name. destruct (league_name (snd item));
      [reflexivity|reflexivity|discriminate]. }
  unfold league_page. rewrite Hname.
  unfold gbind, now, perform, lift. cbn [events clock_reads].
  split.
  - destruct (render site _ _) as [html|f].
    + destruct (permits site (events st) _).
      * do 3 eexists. split; [reflexivity|]. cbn [events].
        split; reflexivity.
      * exists OSError, []. eexists. split; [reflexivity|]. cbn [events].
        now rewrite app_nil_r.
    + exists f, []. eexists. split; [reflexivity|]. cbn [events].
      now rewrite app_nil_r.
  - intros Hr Hp.
    destruct (Hr "league.html.j2"
                (LeagueData (py_str (league_name (snd item)) ++ " - 賽事列表")
                   (snd item) (league_fixtures (snd item))
                   (strftime_seconds (clock site (clock_reads st)))))
      as [html ->].
    now rewrite Hp.
Qed.

Lemma league_page_loop_not_text (u : Unicode) (site : Site)
  (by_league : list (value * league)) (st : state) :
  StronglySorted name_le by_league ->
  Exists (fun item => is_str (league_name (snd item)) = false) by_league ->
  (exists f new st',
     league_page_loop u site [] by_league st = (Failed f, st')
     /\ events st' = events st ++ new /\ written new = [])
  /\ (renders site -> permissive site ->
      league_page_loop u site [] by_league st
      = (Failed (Raised TypeError),
         mkstate (events st ++ [Mkdir (join site (output_dir site) "leagues")])
           (clock_reads st + 1))).
Proof.
  intros HS HE.
  destruct (first_name_not_text by_league HS HE) as (item & rest & -> & Hn).
  cbn [league_page_loop].
  destruct (league_page_not_text u site [] item st Hn) as [Hany Hte].
  split.
  - destruct Hany as (f & new & st' & Hrun & He & Hw).
    exists f, new, st'. split; [|now split]. now apply gbind_fails.
  - intros Hr Hp.
    replace (clock_reads st + 1)%nat with (S (clock_reads st)) by lia.
    apply gbind_fails. now apply Hte.
Qed.

(** When the mapping of [get_fixtures_by_league] has a competition whose
    name is not a string (the name is null when neither language has one),
    [generate_league_pages] never returns and writes no page, whatever the
    templates and the file system do; when the templates render and the
    file system performs every operation, it raises [TypeError] after it
    has rendered the first page and made the directory. *)
Theorem generate_league_pages_name_not_text (rt : Runtime) (w : World)
  (ids : list Z) (u : Unicode) (site : Site) (fixtures : list fixture)
  (by_league : list (value * league)) (st : state) :
  get_fixtures_by_league fixtures = Ok by_league ->
  Exists (fun item => is_str (league_name (snd item)) = false) by_league ->
  (exists f new st',
     generate_league_pages rt w ids u site (Some fixtures) st = (Failed f, st')
     /\ events st' = events st ++ new /\ written new = [])
  /\ (renders site -> permissive site ->
      generate_league_pages rt w ids u site (Some fixtures) st
      = (Failed (Raised TypeError),
         mkstate (events st ++ [Mkdir (join site (output_dir site) "leagues")])
           (clock_reads st + 1))).
Proof.
  intros Hl HE.
  rewrite (generate_league_pages_run rt w ids u site fixtures by_league st Hl).
  apply league_page_loop_not_text; [|exact HE].
  now apply get_fixtures_by_league_ordered with (fixtures := fixtures).
Qed.

(** ** [generate_index], [generate_css] and [generate_js] *)

(** However [generate_index] ends, it has written the page and returned its
    path, or it has written nothing. *)
Lemma generate_index_outcome (rt : Runtime) (w : World) (ids : list Z)
  (site : Site) (fixtures : list fixture) (days_ahead : Z)
  (st st' : state) (out : outcome string) :
  generate_index rt w ids site (Some fixtures) days_ahead st = (out, st') ->
  (exists html,
     out = Returned (join site (output_dir site) "index.html")
     /\ events st'
        = events st
          ++ [Write (join site (output_dir site) "index.html") (Html html)]
     /\ clock_reads st' = S (clock_reads st))
  \/ (exists f, out = Failed f /\ events st' = events st).
Proof.
  unfold generate_index, fixtures_or_get.
  unfold gbind, ret, lift, now, perform. cbn [events clock_reads].
  destruct (get_fixtures_by_date fixtures) as [by_date|e].
  - destruct (get_fixtures_by_league fixtures) as [by_league|e].
    + destruct (render site _ _) as [html|f].
      * destruct (permits site (events st) _); intros H; injection H as <- <-.
        -- left. exists html. now repeat split.
        -- right. now exists OSError.
      * intros H. injection H as <- <-. right. now exists f.
    + intros H. injection H as <- <-. right. now exists (Raised e).
  - intros H. injection H as <- <-. right. now exists (Raised e).
Qed.

Lemma generate_index_returns (rt : Runtime) (w : World) (ids : list Z)
  (site : Site) (fixtures : list fixture) (days_ahead : Z) (st : state)
  (by_date : list (value * list fixture)) (by_league : list (value * league)) :
  get_fixtures_by_date fixtures = Ok by_date ->
  get_fixtures_by_league fixtures = Ok by_league ->
  renders site -> permissive site ->
  exists html,
    generate_index rt w ids site (Some fixtures) days_ahead st
    = (Returned (join site (output_dir site) "index.html"),
       mkstate
         (events st
          ++ [Write (join site (output_dir site) "index.html") (Html html)])
         (S (clock_reads st))).
Proof.
  intros Hd Hl Hr Hp. unfold generate_index, fixtures_or_get.
  unfold gbind, ret, lift, now, perform. cbn [events clock_reads].
  rewrite Hd, Hl.
  destruct (Hr "index.html.j2"
              (IndexData "足球賽事數據中心" "實時更新的足球賽事信息（繁體中文）"
                 fixtures by_date by_league (List.length fixtures)
                 (List.length by_league)
                 (strftime_seconds (clock site (clock_reads st))) days_ahead))
    as [html ->].
  exists html. now rewrite Hp.
Qed.

Lemma generate_css_outcome (site : Site) (st st' : state)
  (out : outcome string) :
  generate_css site st = (out, st') ->
  let css_dir := join site (output_dir site) "css" in
  (out = Returned (join site css_dir "style.css")
   /\ events st'
      = events st ++ [Mkdir css_dir; Write (join site css_dir "style.css")
                                       Stylesheet]
   /\ clock_reads st' = clock_reads st)
  \/ (out = Failed OSError /\ exists new,
        events st' = events st ++ new /\ written new = []
        /\ clock_reads st' = clock_reads st).
Proof.
  unfold generate_css, gbind, perform, ret. cbn [events clock_reads].
  destruct (permits site (events st) _).
  - cbn [events clock_reads].
    destruct (permits site _ _); intros H; injection H as <- <-; cbn zeta.
    + left. cbn [events clock_reads]. now rewrite app_assoc_cons.
    + right. split; [reflexivity|]. eexists. cbn [events clock_reads].
      repeat split.
  - intros H. injection H as <- <-. right. split; [reflexivity|].
    exists []. now rewrite app_nil_r.
Qed.

Lemma generate_js_outcome (site : Site) (st st' : state)
  (out : outcome string) :
  generate_js site st = (out, st') ->
  let js_dir := join site (output_dir site) "js" in
  (out = Returned (join site js_dir "main.js")
   /\ events st'
      = events st ++ [Mkdir js_dir; Write (join site js_dir "main.js") Script]
   /\ clock_reads st' = clock_reads st)
  \/ (out = Failed OSError /\ exists new,
        events st' = events st ++ new /\ written new = []
        /\ clock_reads st' = clock_reads st).
Proof.
  unfold generate_js, gbind, perform, ret. cbn [events clock_reads].
  destruct (permits site (events st) _).
  - cbn [events clock_reads].
    destruct (permits site _ _); intros H; injection H as <- <-; cbn zeta.
    + left. cbn [events clock_reads]. now rewrite app_assoc_cons.
    + right. split; [reflexivity|]. eexists. cbn [events clock_reads].
      repeat split.
  - intros H. injection H as <- <-. right. split; [reflexivity|].
    exists []. now rewrite app_nil_r.
Qed.

(** ** [generate_all] *)

Lemma league_page_loop_returns (u : Unicode) (site : Site)
  (items : list (value * league)) :
  renders site -> permissive site ->
  Forall (fun item => is_str (league_name (snd item)) = true) items ->
  forall (pages : list (value * string)) (st : state),
    exists pages' st',
      league_page_loop u site pages items st = (Returned pages', st').
Proof.
  intros Hr Hp. induction 1 as [|item items Hn HF IH]; intros pages st.
  - simpl. unfold ret. eauto.
  - cbn [league_page_loop].
    assert (Hpage : exists pages1 st1,
              league_page u site pages item st = (Returned pages1, st1)).
    { unfold league_page, page_file_name.
      destruct (league_name (snd item)) as [| |s] eqn:E; try discriminate.
      unfold gbind, now, perform, lift, ret. cbn [events clock_reads].
      destruct (Hr "league.html.j2"
                  (LeagueData (py_str (VStr s) ++ " - 賽事列表") (snd item)
                     (league_fixtures (snd item))
                     (strftime_seconds (clock site (clock_reads st)))))
        as [html ->].
      rewrite !Hp. eauto. }
    destruct Hpage as (pages1 & st1 & Hpage).
    rewrite (gbind_run _ _ _ _ _ Hpage). apply IH.
Qed.

(** When [get_fixtures] returns fixtures with a competition whose name is
    not a string, [generate_all] never returns, and the only file it may
    have written is [index.html]; when the templates render and the file
    system performs every operation, it raises [TypeError] after it has
    written [index.html] and made the directory of the league pages: nothing
    of the API, the style sheet or the script is generated. *)
Theorem generate_all_name_not_text (rt : Runtime) (w : World)
  (ids : list Z) (u : Unicode) (site : Site) (days_ahead : Z)
  (fixtures : list fixture) (by_league : list (value * league)) (st : state) :
  get_fixtures rt w ids days_ahead = Ok fixtures ->
  get_fixtures_by_league fixtures = Ok by_league ->
  Exists (fun item => is_str (league_name (snd item)) = false) by_league ->
  let index_path := join site (output_dir site) "index.html" in
  (exists f new st',
     generate_all rt w ids u site days_ahead st = (Failed f, st')
     /\ events st' = events st ++ new
     /\ (written new = [] \/ written new = [index_path]))
  /\ (renders site -> permissive site ->
      (exists by_date, get_fixtures_by_date fixtures = Ok by_date) ->
      exists html,
        generate_all rt w ids u site days_ahead st
        = (Failed (Raised TypeError),
           mkstate
             (events st
              ++ [Write index_path (Html html);
                  Mkdir (join site (output_dir site) "leagues")])
             (clock_reads st + 2))).
Proof.
  intros Hf Hl HE index_path. subst index_path.
  pose proof (get_fixtures_by_league_ordered fixtures by_league Hl) as HS.
  assert (Hrun : generate_all rt w ids u site days_ahead st
                 = gbind (generate_index rt w ids site (Some fixtures) days_ahead)
                     (fun index =>
                        league_pages <~
                          generate_league_pages rt w ids u site (Some fixtures) ;;
                        json_api <~
                          generate_json_api rt w ids site (Some fixtures) ;;
                        css <~ generate_css site ;;
                        js <~ generate_js site ;;
                        ret (mksite index league_pages json_api css js)) st).
  { unfold generate_all. unfold gbind at 1. rewrite Hf. reflexivity. }
  split.
  - rewrite Hrun.
    destruct (generate_index rt w ids site (Some fixtures) days_ahead st)
      as [out st1] eqn:Ei.
    destruct (generate_index_outcome _ _ _ _ _ _ _ _ _ Ei)
      as [(html & -> & He & Hc)|(f & -> & He)].
    + rewrite (gbind_run _ _ _ _ _ Ei).
      destruct (proj1 (league_page_loop_not_text u site by_league st1 HS HE))
        as (f & new & st' & Hp & He' & Hw).
      rewrite <- (generate_league_pages_run rt w ids u site fixtures by_league
                    st1 Hl) in Hp.
      rewrite (gbind_fails _ _ _ _ _ Hp).
      exists f.
      exists (Write (join site (output_dir site) "index.html") (Html html)
              :: new), st'.
      split; [reflexivity|]. split.
      * rewrite He', He. now rewrite <- app_assoc.
      * right. simpl. now rewrite Hw.
    + rewrite (gbind_fails _ _ _ _ _ Ei).
      exists f, [], st1. split; [reflexivity|].
      rewrite app_nil_r. split; [assumption|now left].
  - intros Hr Hp [by_date Hd]. rewrite Hrun.
    destruct (generate_index_returns rt w ids site fixtures days_ahead st
                by_date by_league Hd Hl Hr Hp) as [html Hi].
    exists html. rewrite (gbind_run _ _ _ _ _ Hi).
    erewrite gbind_fails
      by (rewrite (generate_league_pages_run rt w ids u site fixtures
                     by_league _ Hl);
          apply (proj2 (league_page_loop_not_text u site by_league _ HS HE)
                   Hr Hp)).
    cbn [events clock_reads]. rewrite app_assoc_cons.
    replace (clock_reads st + 2)%nat with (S (clock_reads st) + 1)%nat by lia.
    reflexivity.
Qed.

Lemma generate_css_returned (site : Site) (st st' : state) (p : string) :
  generate_css site st = (Returned p, st') ->
  p = join site (join site (output_dir site) "css") "style.css"
  /\ events st'
     = events st ++ [Mkdir (join site (output_dir site) "css");
                     Write p Stylesheet]
  /\ clock_reads st' = clock_reads st.
Proof.
  intros H. apply generate_css_outcome in H. cbn zeta in H.
  destruct H as [(H & He & Hc)|(H & _)]; [|discriminate].
  injection H as ->. now repeat split.
Qed.

Lemma generate_js_returned (site : Site) (st st' : state) (p : string) :
  generate_js site st = (Returned p, st') ->
  p = join site (join site (output_dir site) "js") "main.js"
  /\ events st'
     = events st ++ [Mkdir (join site (output_dir site) "js"); Write p Script]
  /\ clock_reads st' = clock_reads st.
Proof.
  intros H. apply generate_js_outcome in H. cbn zeta in H.
  destruct H as [(H & He & Hc)|(H & _)]; [|discriminate].
  injection H as ->. now repeat split.
Qed.

(** Whenever [generate_all] returns, the files it has written are, in this
    order: [index.html], the page of each competition in the order of the
    display names, the four files of the API, [style.css] and [main.js];
    and these are the paths it returns.  It returns when [get_fixtures] and
    the two groupings return, the name of every competition is a string,
    the templates render and the file system performs every operation. *)
Theorem generate_all_files (rt : Runtime) (w : World) (ids : list Z)
  (u : Unicode) (site : Site) (days_ahead : Z) (st : state) :
  (forall r st',
     generate_all rt w ids u site days_ahead st = (Returned r, st') ->
     exists fixtures by_league new,
       get_fixtures rt w ids days_ahead = Ok fixtures
       /\ get_fixtures_by_league fixtures = Ok by_league
       /\ map fst (league_pages r) = map fst by_league
       /\ Forall2 (fun item p => page_path u site item = Ok p)
            by_league (map snd (league_pages r))
       /\ index r = join site (output_dir site) "index.html"
       /\ json_api r
          = (let api_dir := join site (output_dir site) "api" in
             mkapi (join site api_dir "fixtures.json")
               (join site api_dir "leagues.json")
               (join site api_dir "dates.json")
               (join site api_dir "stats.json"))
       /\ css r = join site (join site (output_dir site) "css") "style.css"
       /\ js r = join site (join site (output_dir site) "js") "main.js"
       /\ events st' = events st ++ new
       /\ written new
          = index r :: map snd (league_pages r)
            ++ [ fixtures_path (json_api r); leagues_path (json_api r);
                 dates_path (json_api r); stats_path (json_api r);
                 css r; js r ]
       /\ clock_reads st' = (clock_reads st + List.length by_league + 5)%nat)
  /\ (forall fixtures by_league by_date,
        get_fixtures rt w ids days_ahead = Ok fixtures ->
        get_fixtures_by_league fixtures = Ok by_league ->
        get_fixtures_by_date fixtures = Ok by_date ->
        Forall (fun item => is_str (league_name (snd item)) = true) by_league ->
        renders site -> permissive site ->
        exists r st',
          generate_all rt w ids u site days_ahead st = (Returned r, st')).
Proof.
  split.
  - intros r st' H. unfold generate_all in H.
    apply gbind_returned in H. destruct H as (fixtures & st0 & Hf & H).
    apply lift_returned in Hf. destruct Hf as [Hf ->].
    apply gbind_returned in H. destruct H as (index0 & st1 & Hi & H).
    apply generate_index_outcome in Hi.
    destruct Hi as [(html & Hi & He1 & Hc1)|(f & Hi & _)]; [|discriminate].
    injection Hi as ->.
    apply gbind_returned in H. destruct H as (pages & st2 & Hp & H).
    unfold generate_league_pages, fixtures_or_get in Hp.
    apply gbind_returned in Hp. destruct Hp as (fixtures' & st1' & Hp0 & Hp).
    unfold ret in Hp0. injection Hp0 as <- <-.
    apply gbind_returned in Hp. destruct Hp as (by_league & st1' & Hl & Hp).
    apply lift_returned in Hl. destruct Hl as [Hl ->].
    apply league_page_loop_pages in Hp;
      [|apply (get_fixtures_by_league_groups fixtures by_league Hl)].
    destruct Hp as (new2 & _ & Hkeys & Hpaths & He2 & Hw2 & Hc2).
    apply gbind_returned in H. destruct H as (api & st3 & Ha & H).
    apply generate_json_api_returned in Ha.
    destruct Ha as (fixtures' & by_league' & by_date & _ & _ & _ & Ha).
    cbn zeta in Ha. destruct Ha as (Hapi & He3 & Hc3).
    apply gbind_returned in H. destruct H as (css0 & st4 & Hcss & H).
    apply generate_css_returned in Hcss. destruct Hcss as (-> & He4 & Hc4).
    apply gbind_returned in H. destruct H as (js0 & st5 & Hjs & H).
    apply generate_js_returned in Hjs. destruct Hjs as (-> & He5 & Hc5).
    unfold ret in H. injection H as <- <-.
    exists fixtures, by_league. eexists.
    split; [exact Hf|]. split; [exact Hl|].
    cbn [index league_pages json_api css js].
    split; [exact Hkeys|]. split; [exact Hpaths|]. split; [reflexivity|].
    split; [exact Hapi|]. split; [reflexivity|]. split; [reflexivity|].
    split.
    + rewrite He5, He4, He3, He2, He1. rewrite <- !app_assoc. reflexivity.
    + split; [|lia].
      rewrite !written_app. rewrite Hw2. subst api. reflexivity.
  - intros fixtures by_league by_date Hf Hl Hd Hn Hr Hp.
    unfold generate_all. unfold gbind at 1. rewrite Hf. unfold lift.
    destruct (generate_index_returns rt w ids site fixtures days_ahead st
                by_date by_league Hd Hl Hr Hp) as [html Hi].
    rewrite (gbind_run _ _ _ _ _ Hi).
    destruct (league_page_loop_returns u site by_league Hr Hp Hn []
                (mkstate
                   (events st
                    ++ [Write (join site (output_dir site) "index.html")
                          (Html html)])
                   (S (clock_reads st))))
      as (pages & st2 & Hpages).
    rewrite <- (generate_league_pages_run rt w ids u site fixtures by_league
                  _ Hl) in Hpages.
    rewrite (gbind_run _ _ _ _ _ Hpages).
    destruct (generate_json_api_returns rt w ids site fixtures st2
                by_league by_date Hl Hd Hp) as (api & st3 & Hapi).
    rewrite (gbind_run _ _ _ _ _ Hapi).
    unfold generate_css, generate_js, gbind, perform, ret.
    rewrite !Hp. eauto.
Qed.

(** ** Runs of the generator on examples *)

Lemma renders_example_site : renders example_site.
Proof. intros name data. eexists. reflexivity. Qed.

Lemma permissive_example_site : permissive example_site.
Proof. intros done e. reflexivity. Qed.

Lemma generate_json_api_counts_witness :
  exists paths st' fixtures by_league by_date,
    generate_json_api (cpython 0) (world_with english_rows)
      DEFAULT_LEAGUE_IDS example_site None (mkstate [] 0)
    = (Returned paths, st')
    /\ get_fixtures (cpython 0) (world_with english_rows) DEFAULT_LEAGUE_IDS 7
       = Ok fixtures
    /\ get_fixtures_by_league fixtures = Ok by_league
    /\ get_fixtures_by_date fixtures = Ok by_date
    /\ let api_dir := join example_site (output_dir example_site) "api" in
       let t := fun k => isoformat (clock example_site (0 + k)) in
       let counts :=
         map (fun item => (fst item, league_name (snd item),
                           List.length (league_fixtures (snd item))))
           by_league in
       paths = mkapi (join example_site api_dir "fixtures.json")
                 (join example_site api_dir "leagues.json")
                 (join example_site api_dir "dates.json")
                 (join example_site api_dir "stats.json")
       /\ events st'
          = [] ++
            [ Mkdir api_dir;
              Write (fixtures_path paths)
                (Json (FullData "success" (List.length fixtures) (t 0%nat)
                         fixtures));
              Write (leagues_path paths)
                (Json (LeaguesData "success" (List.length by_league)
                         (t 1%nat) by_league));
              Write (dates_path paths)
                (Json (DatesData "success" (List.length by_date) (t 2%nat)
                         by_date));
              Write (stats_path paths)
                (Json (StatsData "success" (t 3%nat)
                         (List.length fixtures) (List.length by_league)
                         (List.length by_date) counts)) ]
       /\ list_sum (map snd counts) = List.length fixtures
       /\ Forall (fun c => (1 <= snd c)%nat) counts.
Proof.
  destruct (generate_json_api (cpython 0) (world_with english_rows)
              DEFAULT_LEAGUE_IDS example_site None (mkstate [] 0))
    as [[paths|f] st'] eqn:E.
  - destruct (generate_json_api_counts _ _ _ _ _ _ _ _ E)
      as (fixtures & by_league & by_date & H).
    exists paths, st', fixtures, by_league, by_date.
    split; [reflexivity|exact H].
  - vm_compute in E. discriminate E.
Defined.

Lemma generate_json_api_partial_witness :
  permissive example_site
  /\ get_fixtures_by_league (map (normalize_row (cpython 0)) unnamed_league_rows)
     = Raise TypeError
  /\ generate_json_api (cpython 0) (world_with []) DEFAULT_LEAGUE_IDS
       example_site
       (Some (map (normalize_row (cpython 0)) unnamed_league_rows))
       (mkstate [] 0)
     = (Failed (Raised TypeError),
        mkstate
          [ Mkdir "../public/api";
            Write "../public/api/fixtures.json"
              (Json (FullData "success" 2 "2024-03-01T12:00:00"
                       (map (normalize_row (cpython 0)) unnamed_league_rows))) ]
          1).
Proof.
  split; [exact permissive_example_site|].
  assert (H : get_fixtures_by_league
                (map (normalize_row (cpython 0)) unnamed_league_rows)
              = Raise TypeError) by (vm_compute; reflexivity).
  split; [exact H|].
  exact (proj1 (generate_json_api_partial (cpython 0) (world_with [])
                  DEFAULT_LEAGUE_IDS example_site
                  (map (normalize_row (cpython 0)) unnamed_league_rows)
                  (mkstate [] 0) permissive_example_site) TypeError H).
Defined.

Lemma generate_all_nothing_written_witness :
  generate_all (cpython 0) world_without_db DEFAULT_LEAGUE_IDS ascii_unicode
    example_site 7 (mkstate [] 0)
  = (Failed (Raised FileNotFoundError), mkstate [] 0)
  /\ generate_all (cpython 0) (world_with unnamed_league_rows)
       DEFAULT_LEAGUE_IDS ascii_unicode example_site 7 (mkstate [] 0)
     = (Failed (Raised TypeError), mkstate [] 0).
Proof.
  split.
  - apply (proj1 (generate_all_nothing_written (cpython 0) world_without_db
                    DEFAULT_LEAGUE_IDS ascii_unicode example_site 7
                    (mkstate [] 0))).
    vm_compute. reflexivity.
  - apply (proj1 (proj2 (generate_all_nothing_written (cpython 0)
                           (world_with unnamed_league_rows)
                           DEFAULT_LEAGUE_IDS ascii_unicode example_site 7
                           (mkstate [] 0)))
             (map (normalize_row (cpython 0)) unnamed_league_rows)).
    + vm_compute. reflexivity.
    + right.
      destruct (get_fixtures_by_date
                  (map (normalize_row (cpython 0)) unnamed_league_rows))
        as [by_date|e] eqn:E.
      * exists by_date. split; [reflexivity|]. vm_compute. reflexivity.
      * vm_compute in E. discriminate E.
Defined.

Lemma generate_league_pages_returns_witness :
  exists pages st' fixtures by_league new,
    generate_league_pages (cpython 0) (world_with english_rows)
      DEFAULT_LEAGUE_IDS ascii_unicode example_site None (mkstate [] 0)
    = (Returned pages, st')
    /\ get_fixtures (cpython 0) (world_with english_rows) DEFAULT_LEAGUE_IDS 7
       = Ok fixtures
    /\ get_fixtures_by_league fixtures = Ok by_league
    /\ Forall (fun item => is_str (league_name (snd item)) = true) by_league
    /\ map fst pages = map fst by_league
    /\ Forall2 (fun item p => page_path ascii_unicode example_site item = Ok p)
         by_league (map snd pages)
    /\ events st' = [] ++ new
    /\ written new = map snd pages
    /\ clock_reads st' = (0 + List.length by_league)%nat.
Proof.
  destruct (generate_league_pages (cpython 0) (world_with english_rows)
              DEFAULT_LEAGUE_IDS ascii_unicode example_site None
              (mkstate [] 0))
    as [[pages|f] st'] eqn:E.
  - destruct (generate_league_pages_returns _ _ _ _ _ _ _ _ _ E)
      as (fixtures & by_league & new & H).
    exists pages, st', fixtures, by_league, new.
    split; [reflexivity|exact H].
  - vm_compute in E. discriminate E.
Defined.

Lemma generate_league_pages_name_not_text_witness :
  let fixtures := map (normalize_row (cpython 0)) unnamed_competition_rows in
  let by_league := [(VInt 61, mkleague (VInt 61) VNone (VStr "England") fixtures)] in
  get_fixtures_by_league fixtures = Ok by_league
  /\ generate_league_pages (cpython 0) (world_with []) DEFAULT_LEAGUE_IDS
       ascii_unicode example_site (Some fixtures) (mkstate [] 0)
     = (Failed (Raised TypeError), mkstate [Mkdir "../public/leagues"] 1).
Proof.
  intros fixtures by_league.
  assert (H : get_fixtures_by_league fixtures = Ok by_league)
    by (vm_compute; reflexivity).
  assert (HE : Exists (fun item => is_str (league_name (snd item)) = false)
                 by_league)
    by (apply Exists_cons_hd; reflexivity).
  split; [exact H|].
  apply (proj2 (generate_league_pages_name_not_text (cpython 0) (world_with [])
                  DEFAULT_LEAGUE_IDS ascii_unicode example_site fixtures
                  by_league (mkstate [] 0) H HE)
           renders_example_site permissive_example_site).
Defined.

Lemma generate_all_name_not_text_witness :
  let fixtures := map (normalize_row (cpython 0)) unnamed_competition_rows in
  let by_league := [(VInt 61, mkleague (VInt 61) VNone (VStr "England") fixtures)] in
  get_fixtures (cpython 0) (world_with unnamed_competition_rows)
    DEFAULT_LEAGUE_IDS 7 = Ok fixtures
  /\ get_fixtures_by_league fixtures = Ok by_league
  /\ exists html,
       generate_all (cpython 0) (world_with unnamed_competition_rows)
         DEFAULT_LEAGUE_IDS ascii_unicode example_site 7 (mkstate [] 0)
       = (Failed (Raised TypeError),
          mkstate
            [Write "../public/index.html" (Html html);
             Mkdir "../public/leagues"]
            2).
Proof.
  intros fixtures by_league.
  assert (Hf : get_fixtures (cpython 0) (world_with unnamed_competition_rows)
                 DEFAULT_LEAGUE_IDS 7 = Ok fixtures)
    by (vm_compute; reflexivity).
  assert (Hl : get_fixtures_by_league fixtures = Ok by_league)
    by (vm_compute; reflexivity).
  assert (HE : Exists (fun item => is_str (league_name (snd item)) = false)
                 by_league)
    by (apply Exists_cons_hd; reflexivity).
  split; [exact Hf|]. split; [exact Hl|].
  apply (proj2 (generate_all_name_not_text (cpython 0)
                  (world_with unnamed_competition_rows) DEFAULT_LEAGUE_IDS
                  ascii_unicode example_site 7 fixtures by_league
                  (mkstate [] 0) Hf Hl HE)
           renders_example_site permissive_example_site).
  destruct (get_fixtures_by_date fixtures) as [by_date|e] eqn:E.
  - now exists by_date.
  - vm_compute in E. discriminate E.
Defined.

Lemma generate_all_files_witness :
  exists r st',
    generate_all (cpython 0) (world_with english_rows) DEFAULT_LEAGUE_IDS
      ascii_unicode example_site 7 (mkstate [] 0)
    = (Returned r, st')
    /\ written (events st')
       = [ "../public/index.html";
           "../public/leagues/Premier_League.html";
           "../public/leagues/Serie_A.html";
           "../public/api/fixtures.json"; "../public/api/leagues.json";
           "../public/api/dates.json"; "../public/api/stats.json";
           "../public/css/style.css"; "../public/js/main.js" ]%string.
Proof.
  destruct (generate_all (cpython 0) (world_with english_rows)
              DEFAULT_LEAGUE_IDS ascii_unicode example_site 7 (mkstate [] 0))
    as [[r|f] st'] eqn:E.
  - exists r, st'. split; [reflexivity|].
    destruct (proj1 (generate_all_files (cpython 0) (world_with english_rows)
                       DEFAULT_LEAGUE_IDS ascii_unicode example_site 7
                       (mkstate [] 0)) r st' E)
      as (fixtures & by_league & new & _ & _ & _ & _ & _ & _ & _ & _
          & He & Hw & _).
    rewrite He. cbn [events app]. rewrite Hw.
    vm_compute in E. injection E as <- _. reflexivity.
  - vm_compute in E. discriminate E.
Defined.

(** ** Competitions that share a page *)

Lemma combine_fst_snd {A B : Type} (l : list (A * B)) :
  combine (map fst l) (map snd l) = l.
Proof.
  induction l as [|[a b] l IH]; simpl; [reflexivity|]. now rewrite IH.
Qed.

(** The path of a competition of the mapping is the one the loop gave it. *)
Lemma pages_lookup {A : Type} (R : value * A -> string -> Prop)
  (items : list (value * A)) (paths : list string) :
  NoDup (map fst items) ->
  Forall2 R items paths ->
  forall item,
    In item items ->
    exists p,
      R item p
      /\ dget value_eqb (fst item) (combine (map fst items) paths) = Some p.
Proof.
  intros Hnd HF. induction HF as [|x p xs ps Hx HF IH]; intros item Hin.
  - destruct Hin.
  - inversion Hnd as [|? ? Hnotin Hnd']. subst.
    destruct Hin as [->|Hin].
    + exists p. split; [assumption|]. simpl.
      now rewrite (eqb_refl' value_eqb value_eqb_eq).
    + destruct (IH Hnd' item Hin) as (q & Hq & Hget).
      exists q. split; [assumption|]. simpl.
      rewrite (eqb_neq' value_eqb value_eqb_eq); [assumption|].
      intros E. apply Hnotin. rewrite <- E. now apply in_map.
Qed.

Lemma count_occ_twice (l : list (value * string)) (k1 k2 : value) (p : string) :
  In (k1, p) l -> In (k2, p) l -> k1 <> k2 ->
  (2 <= count_occ string_dec (map snd l) p)%nat.
Proof.
  intros H1 H2 Hne.
  assert (Hone : forall (k : value) (l' : list (value * string)),
            In (k, p) l' ->
            (1 <= count_occ string_dec (map snd l') p)%nat).
  { intros k l' Hin. apply count_occ_In.
    apply in_map_iff. now exists (k, p). }
  induction l as [|[k q] l IH]; [destruct H1|].
  simpl. destruct H1 as [E1|H1], H2 as [E2|H2].
  - congruence.
  - injection E1 as -> ->. destruct (string_dec p p); [|contradiction].
    specialize (Hone _ _ H2). lia.
  - injection E2 as -> ->. destruct (string_dec p p); [|contradiction].
    specialize (Hone _ _ H1). lia.
  - specialize (IH H1 H2). destruct (string_dec q p); lia.
Qed.

Lemma dget_In {V : Type} (k : value) (v : V) (d : list (value * V)) :
  dget value_eqb k d = Some v -> In (k, v) d.
Proof.
  intros H. destruct (dget_split value_eqb value_eqb_eq k v d H)
    as (d1 & d2 & -> & _).
  apply in_or_app. right. now left.
Qed.

(** Two competitions that have the same display name, one whose safe name
    is not empty, get the same page: [generate_league_pages] returns the
    same path for both and writes this file once for each, the second time
    over the first. *)
Theorem generate_league_pages_same_name (rt : Runtime) (w : World)
  (ids : list Z) (u : Unicode) (site : Site) (fixtures : list fixture)
  (by_league : list (value * league)) (pages : list (value * string))
  (st st' : state) :
  get_fixtures_by_league fixtures = Ok by_league ->
  generate_league_pages rt w ids u site (Some fixtures) st
  = (Returned pages, st') ->
  forall id1 g1 id2 g2 s,
    In (id1, g1) by_league -> In (id2, g2) by_league -> id1 <> id2 ->
    league_name g1 = VStr s -> league_name g2 = VStr s ->
    let safe :=
      safe_name (code_point u) (code_point_eqb u) (isalnum u) (isspace u)
        (space u) (hyphen u) (underscore u) (code_points u s) [] in
    safe <> [] ->
    let p :=
      join site (join site (output_dir site) "leagues")
        (of_code_points u safe ++ ".html")%string in
    dget value_eqb id1 pages = Some p
    /\ dget value_eqb id2 pages = Some p
    /\ exists new,
         events st' = events st ++ new
         /\ (2 <= count_occ string_dec (written new) p)%nat.
Proof.
  intros Hl H id1 g1 id2 g2 s H1 H2 Hne Hn1 Hn2 safe Hsafe p.
  rewrite (generate_league_pages_run rt w ids u site fixtures by_league st Hl)
    in H.
  pose proof (proj1 (get_fixtures_by_league_groups fixtures by_league Hl))
    as (Hnd & _).
  apply league_page_loop_pages in H; [|exact Hnd].
  destruct H as (new & _ & Hkeys & Hpaths & He & Hw & _).
  assert (Hpath : forall id g,
            league_name g = VStr s -> page_path u site (id, g) = Ok p).
  { intros id g Hn. unfold page_path. cbn [fst snd]. rewrite Hn.
    rewrite page_file_name_safe_name. fold safe.
    destruct safe as [|c l]; [contradiction|]. reflexivity. }
  assert (Hget : forall id g,
            In (id, g) by_league -> league_name g = VStr s ->
            dget value_eqb id pages = Some p).
  { intros id g Hin Hn.
    destruct (pages_lookup (fun item q => page_path u site item = Ok q)
                by_league (map snd pages) Hnd Hpaths (id, g) Hin)
      as (q & Hq & Hget).
    rewrite (Hpath id g Hn) in Hq. injection Hq as <-.
    rewrite <- Hkeys, combine_fst_snd in Hget. exact Hget. }
  pose proof (Hget id1 g1 H1 Hn1) as Hg1.
  pose proof (Hget id2 g2 H2 Hn2) as Hg2.
  split; [exact Hg1|]. split; [exact Hg2|].
  exists new. split; [exact He|]. rewrite Hw.
  apply (count_occ_twice pages id1 id2 p); [| |exact Hne];
    now apply dget_In.
Qed.

Lemma generate_league_pages_same_name_witness :
  exists by_league pages st',
    get_fixtures_by_league same_name_fixtures = Ok by_league
    /\ generate_league_pages (cpython 0) (world_with []) DEFAULT_LEAGUE_IDS
         ascii_unicode example_site (Some same_name_fixtures) (mkstate [] 0)
       = (Returned pages, st')
    /\ dget value_eqb (VInt 203) pages
       = Some "../public/leagues/Super_League.html"
    /\ dget value_eqb (VInt 169) pages
       = Some "../public/leagues/Super_League.html"
    /\ exists new,
         events st' = [] ++ new
         /\ (2 <= count_occ string_dec (written new)
                    "../public/leagues/Super_League.html")%nat.
Proof.
  destruct (get_fixtures_by_league same_name_fixtures) as [by_league|e] eqn:El;
    [|vm_compute in El; discriminate El].
  destruct (generate_league_pages (cpython 0) (world_with [])
              DEFAULT_LEAGUE_IDS ascii_unicode example_site
              (Some same_name_fixtures) (mkstate [] 0))
    as [[pages|f] st'] eqn:E; [|vm_compute in E; discriminate E].
  exists by_league, pages, st'. split; [reflexivity|]. split; [reflexivity|].
  assert (Hin : exists g1 g2,
            In (VInt 203, g1) by_league /\ In (VInt 169, g2) by_league
            /\ league_name g1 = VStr "Super League"
            /\ league_name g2 = VStr "Super League").
  { vm_compute in El. injection El as <-.
    do 2 eexists. split; [right; left; reflexivity|].
    split; [right; right; left; reflexivity|]. split; reflexivity. }
  destruct Hin as (g1 & g2 & H1 & H2 & Hn1 & Hn2).
  apply (generate_league_pages_same_name (cpython 0) (world_with [])
           DEFAULT_LEAGUE_IDS ascii_unicode example_site same_name_fixtures
           by_league pages (mkstate [] 0) st' El E
           (VInt 203) g1 (VInt 169) g2 "Super League" H1 H2);
    try assumption; discriminate.
Defined.
